(** * CSV import pipeline and A/B-test completion scheduler

    A shallow embedding of

    - [apps/web/app/api/cron/import/csv/route.ts]
      ([mapCsvRowToLink], the [Papa.parse] step callback of [POST],
      [processMappedLinks], the reschedule / finalize branch of [POST]);
    - [apps/web/lib/api/links/schedule-test-completion.ts]
      ([scheduleTestCompletion]).

    External collaborators (Redis, Prisma tables, object storage, QStash,
    the e-mail sender) are explicit components of a [World] that every
    operation threads through; helpers imported from other packages are
    fields of the [Externals] class. *)

From stdpp Require Import gmap strings list sorting pretty.
From Stdlib Require Import Ascii.
From Stdlib Require QArith_base.

Open Scope string_scope.
Open Scope list_scope.
Open Scope nat_scope.

(** ** JavaScript string primitives used by the route *)

Module JS.

(** [Boolean(s)] / [!!s] on a string: only the empty string is falsy. *)
Definition truthy (s : string) : bool := negb (String.eqb s "").

(** [mapping.title] and friends are optional strings tested with [if (x)]. *)
Definition truthy_opt (o : option string) : bool :=
  match o with
  | Some s => truthy s
  | None => false
  end.

(** [a || b] on strings. *)
Definition or_else (a b : string) : string := if truthy a then a else b.

(** [s.split(sep)] for a one-character separator; always at least one
    segment, as in JavaScript. *)
Fixpoint split (sep : ascii) (s : string) : list string :=
  match s with
  | EmptyString => [EmptyString]
  | String c rest =>
      if Ascii.eqb c sep then EmptyString :: split sep rest
      else match split sep rest with
           | seg :: segs => String c seg :: segs
           | [] => [String c EmptyString]
           end
  end.

(** [parts.join(sep)]. *)
Fixpoint join (sep : string) (parts : list string) : string :=
  match parts with
  | [] => ""
  | [p] => p
  | p :: rest => p +:+ sep +:+ join sep rest
  end.

(** Whether character [c] occurs in [s]. *)
Fixpoint contains (c : ascii) (s : string) : bool :=
  match s with
  | EmptyString => false
  | String d rest => Ascii.eqb d c || contains c rest
  end.

End JS.

(** ** Data model *)

(** A parsed CSV row ([Record<string, string>], [header: true]): the
    header/value pairs in [Object.keys] order. *)
Definition Row : Type := list (string * string).

Definition row_keys (row : Row) : list string := map fst row.

(** [row[key]] for a key taken from [Object.keys(row)]. *)
Definition row_get (row : Row) (k : string) : string :=
  match List.find (fun kv => String.eqb (fst kv) k) row with
  | Some kv => snd kv
  | None => ""
  end.

(** [row.name] for an arbitrary property name: the cell of the column
    headed [name], or [undefined]. *)
Definition row_prop (row : Row) (name : string) : option string :=
  match List.find (fun kv => String.eqb (fst kv) name) row with
  | Some kv => Some (snd kv)
  | None => None
  end.

(** [z.infer<typeof linkMappingSchema>]: logical field -> source column. *)
Record LinkMapping := {
  map_link : string;
  map_url : string;
  map_title : option string;
  map_description : option string;
  map_tags : option string;
  map_createdAt : option string;
}.

(** [MapperResult["data"]]; a [Date] is its epoch time in milliseconds. *)
Record LinkData := {
  domain : string;
  key : string;
  url : string;
  title : option string;
  description : option string;
  tags : option (list string);
  createdAt : option Z;
}.

(** [interface MapperResult]. *)
Record MapperResult := {
  success : bool;
  error : option string;
  data : option LinkData;
}.

(** [interface ErrorLink]. *)
Record ErrorLink := {
  el_domain : string;
  el_key : string;
  el_error : string;
}.

(** The queue message body, [z.infer<typeof payloadSchema>]. *)
Record Payload := {
  id : string;
  workspaceId : string;
  userId : string;
  folderId : option string;
  file_url : string;
  mapping : LinkMapping;
}.

(** The object handed to [createLinkBodySchema.parse]:
    [{ ...link, tagNames: tags || undefined, folderId }]. *)
Record LinkBody := {
  lb_domain : string;
  lb_key : string;
  lb_url : string;
  lb_title : option string;
  lb_description : option string;
  lb_createdAt : option Z;
  lb_tagNames : option (list string);
  lb_folderId : option string;
}.

(** The argument of [processLink]. *)
Record ProcessLinkArgs := {
  pa_payload : LinkBody;
  pa_workspace_id : string;
  pa_workspace_plan : string;
  pa_userId : string;
  pa_bulk : bool;
}.

(** The [link] component of what [processLink] resolves to; the route
    reads [link.domain] and [link.key] and forwards the whole object. *)
Record ProcessedLink := {
  pl_domain : string;
  pl_key : string;
  pl_url : string;
  pl_projectId : string;
}.

(** [{ link, error }] as resolved by [processLink]. *)
Record ProcessedResult := {
  pr_link : ProcessedLink;
  pr_error : option string;
}.

(** Rows of the Prisma tables the route reads and writes, restricted to
    the columns it mentions. *)
Record Tag := { tag_projectId : string; tag_name : string }.
Record Domain := { dom_projectId : string; dom_slug : string; dom_primary : bool }.
Record StoredLink := { sl_projectId : string; sl_shortLink : string }.
Record Project := { proj_id : string; proj_plan : string }.

(** Helpers the route imports from other packages, and the built-in
    operations of the language whose result it only passes on. They are
    not part of the files under study and are taken as parameters. *)
Class Externals := {
  (** [String.prototype.trim]. *)
  trim : string -> string;
  (** [String.prototype.toLowerCase]. *)
  toLowerCase : string -> string;
  (** [n >= s] for a number [n] and a string [s]: the relational
      comparison of the language, which converts [s] with [ToNumber] and is
      false when that gives [NaN]. *)
  number_ge_string : nat -> string -> bool;
  (** [normalizeString] of [@dub/utils]. *)
  normalizeString : string -> string;
  (** [parseDateTime] of [@dub/utils]: a [Date] or [null]. *)
  parseDateTime : string -> option Z;
  (** Whether [new URL(s)] returns instead of throwing. *)
  constructsURL : string -> bool;
  (** [linkConstructorSimple({ domain, key })] of [@dub/utils]. *)
  linkConstructorSimple : string -> string -> string;
  DUB_DOMAINS_ARRAY : list string;
  APP_DOMAIN_WITH_NGROK : string;
  (** [createLinkBodySchema.parse]: [None] when it throws a [ZodError]. *)
  createLinkBodySchema_parse : LinkBody -> option LinkBody;
  (** [processLink] of [@/lib/api/links]. *)
  processLink : ProcessLinkArgs -> ProcessedResult;
  (** [bulkCreateLinks] of [@/lib/api/links], as a transformer of the link
      table. *)
  bulkCreateLinks : list ProcessedLink -> list StoredLink -> list StoredLink;
}.

Section RowMapper.
Context `{Externals}.

(** The local helper [getValueByKey] of [mapCsvRowToLink]. *)
Definition getValueByKey (row : Row) (targetKey : string) : string :=
  match List.find
          (fun k => String.eqb (normalizeString k) (normalizeString targetKey))
          (row_keys row) with
  | Some k => if JS.truthy k then trim (row_get row k) else ""
  | None => ""
  end.

Definition mapper_failure (msg : string) : MapperResult :=
  {| success := false; error := Some msg; data := None |}.

(** An optional text column: present in the mapping and non-empty in the
    row. *)
Definition optional_text (row : Row) (column : option string) : option string :=
  if JS.truthy_opt column then
    let v := getValueByKey row (default "" column) in
    if JS.truthy v then Some v else None
  else None.

(** [tags.split(",").map(trim).filter(Boolean).map(normalizeString)]. *)
Definition parse_tags (v : string) : list string :=
  map normalizeString
    (List.filter JS.truthy (map trim (JS.split "," v))).

(** [mapCsvRowToLink]. The outer [try]/[catch] has no counterpart: every
    operation below is total. *)
Definition mapCsvRowToLink (row : Row) (mp : LinkMapping) : MapperResult :=
  let linkValue := getValueByKey row (map_link mp) in
  let urlValue := getValueByKey row (map_url mp) in
  if negb (JS.truthy linkValue) then
    mapper_failure "Missing required field: link"
  else if negb (JS.truthy urlValue) then
    mapper_failure "Missing required field: url"
  else
    let parts := JS.split "/" linkValue in
    let dom := hd "" parts in
    let keyParts := tl parts in
    let k := JS.or_else (JS.join "/" keyParts) "_root" in
    if negb (constructsURL urlValue) then
      mapper_failure ("Invalid URL format: " +:+ urlValue)
    else
      {| success := true;
         error := None;
         data := Some
           {| domain := dom;
              key := k;
              url := urlValue;
              title := optional_text row (map_title mp);
              description := optional_text row (map_description mp);
              tags := parse_tags <$> optional_text row (map_tags mp);
              createdAt := optional_text row (map_createdAt mp) ≫= parseDateTime |} |}.

End RowMapper.

(** ** External collaborators *)

(** Values held by the keys of the cursor store. *)
Inductive RedisValue :=
| RInt (n : nat)
| RList (items : list ErrorLink)
| RSet (members : list string).

(** A QStash message: [publishJSON({ url, body?, delay? })]. *)
Record QMessage := {
  q_url : string;
  q_body : option Payload;
  q_delay : option QArith_base.Q;
}.

(** The argument of [sendCsvImportEmails]. *)
Record Email := {
  em_workspaceId : string;
  em_count : nat;
  em_domains : list string;
  em_errorLinks : list ErrorLink;
}.

(** What the route prints with [console.log]. *)
Inductive LogLine :=
| LogNoLinks
| LogFailedMappings (failedMappings : list MapperResult)
| LogExistingLinks (existingLinks : list string)
| LogIsComplete (isComplete : bool)
| LogSummary (domains : list string) (createdCount : nat) (errorLinks : list ErrorLink).

(** Effects in the order in which an invocation performs them. *)
Inductive Event :=
| EvRedisSet (k : string) (v : nat)
| EvRedisIncrBy (k : string) (n : nat)
| EvRedisRPush (k : string) (items : list ErrorLink)
| EvRedisSAdd (k : string) (members : list string)
| EvRedisDel (k : string)
| EvStorageDelete (u : string)
| EvPublish (m : QMessage)
| EvEmail (e : Email)
| EvConsoleLog (line : LogLine)
| EvConsoleError (message : string)
| EvAddDomainToVercel (d : string)
| EvCreateLink (projectId userId dom k : string)
| EvBulkCreateLinks (links : list ProcessedLink)
| EvLogCron (message : string).

Record World := {
  redis : gmap string RedisValue;
  files : gmap string (list Row);
  tagTable : list Tag;
  domainTable : list Domain;
  linkTable : list StoredLink;
  projectTable : list Project;
  queue : list QMessage;
  log : list Event;
}.

Definition upd_redis (f : gmap string RedisValue -> gmap string RedisValue)
    (w : World) : World :=
  {| redis := f (redis w); files := files w; tagTable := tagTable w;
     domainTable := domainTable w; linkTable := linkTable w;
     projectTable := projectTable w; queue := queue w; log := log w |}.

Definition upd_files (f : gmap string (list Row) -> gmap string (list Row))
    (w : World) : World :=
  {| redis := redis w; files := f (files w); tagTable := tagTable w;
     domainTable := domainTable w; linkTable := linkTable w;
     projectTable := projectTable w; queue := queue w; log := log w |}.

Definition upd_tagTable (f : list Tag -> list Tag) (w : World) : World :=
  {| redis := redis w; files := files w; tagTable := f (tagTable w);
     domainTable := domainTable w; linkTable := linkTable w;
     projectTable := projectTable w; queue := queue w; log := log w |}.

Definition upd_domainTable (f : list Domain -> list Domain) (w : World) : World :=
  {| redis := redis w; files := files w; tagTable := tagTable w;
     domainTable := f (domainTable w); linkTable := linkTable w;
     projectTable := projectTable w; queue := queue w; log := log w |}.

Definition upd_linkTable (f : list StoredLink -> list StoredLink) (w : World) : World :=
  {| redis := redis w; files := files w; tagTable := tagTable w;
     domainTable := domainTable w; linkTable := f (linkTable w);
     projectTable := projectTable w; queue := queue w; log := log w |}.

Definition upd_queue (f : list QMessage -> list QMessage) (w : World) : World :=
  {| redis := redis w; files := files w; tagTable := tagTable w;
     domainTable := domainTable w; linkTable := linkTable w;
     projectTable := projectTable w; queue := f (queue w); log := log w |}.

Definition emit (e : Event) (w : World) : World :=
  {| redis := redis w; files := files w; tagTable := tagTable w;
     domainTable := domainTable w; linkTable := linkTable w;
     projectTable := projectTable w; queue := queue w; log := log w ++ [e] |}.

(** ** The monad of an invocation: world passing with exceptions *)

Inductive Outcome (A : Type) :=
| Ok (a : A)
| Thrown (msg : string).
Arguments Ok {A} a.
Arguments Thrown {A} msg.

Definition M (A : Type) : Type := World -> Outcome A * World.

Definition ret {A} (a : A) : M A := fun w => (Ok a, w).

Definition bind {A B} (c : M A) (k : A -> M B) : M B :=
  fun w =>
    match c w with
    | (Ok a, w') => k a w'
    | (Thrown msg, w') => (Thrown msg, w')
    end.

Definition throw {A} (msg : string) : M A := fun w => (Thrown msg, w).
Definition gets {A} (f : World -> A) : M A := fun w => (Ok (f w), w).
Definition modify (f : World -> World) : M unit := fun w => (Ok tt, f w).

Global Instance M_ret : MRet M := @ret.
Global Instance M_bind : MBind M := fun A B k c => bind c k.

(** Run each action in turn, stopping at the first throw. *)
Fixpoint for_each {A} (f : A -> M unit) (l : list A) : M unit :=
  match l with
  | [] => ret tt
  | x :: rest => f x ;; for_each f rest
  end.

(** ** Redis commands *)

Definition redis_get (k : string) : M (option nat) :=
  gets (fun w => match redis w !! k with
                 | Some (RInt n) => Some n
                 | _ => None
                 end).

Definition redis_set (k : string) (v : nat) : M unit :=
  modify (fun w => emit (EvRedisSet k v) (upd_redis (insert k (RInt v)) w)).

Definition redis_incrby (k : string) (n : nat) : M unit :=
  modify (fun w =>
    let old := match redis w !! k with Some (RInt m) => m | _ => 0 end in
    emit (EvRedisIncrBy k n) (upd_redis (insert k (RInt (old + n))) w)).

Definition redis_lrange_all (k : string) : M (list ErrorLink) :=
  gets (fun w => match redis w !! k with
                 | Some (RList l) => l
                 | _ => []
                 end).

Definition redis_rpush (k : string) (items : list ErrorLink) : M unit :=
  modify (fun w =>
    let old := match redis w !! k with Some (RList l) => l | _ => [] end in
    emit (EvRedisRPush k items) (upd_redis (insert k (RList (old ++ items))) w)).

Definition redis_smembers (k : string) : M (list string) :=
  gets (fun w => match redis w !! k with
                 | Some (RSet s) => s
                 | _ => []
                 end).

(** Set union keeping the first occurrence of every member. *)
Definition set_add (s : list string) (members : list string) : list string :=
  fold_left (fun acc x => if existsb (String.eqb x) acc then acc else acc ++ [x])
    members s.

Definition redis_sadd (k : string) (members : list string) : M unit :=
  modify (fun w =>
    let old := match redis w !! k with Some (RSet s) => s | _ => [] end in
    emit (EvRedisSAdd k members) (upd_redis (insert k (RSet (set_add old members))) w)).

Definition redis_del (k : string) : M unit :=
  modify (fun w => emit (EvRedisDel k) (upd_redis (delete k) w)).

(** ** Object storage, queue, console and notification *)

(** [storage.fetch(url)]: the parsed rows of the file, if it exists. *)
Definition storage_fetch (u : string) : M (option (list Row)) :=
  gets (fun w => files w !! u).

Definition storage_delete (u : string) : M unit :=
  modify (fun w => emit (EvStorageDelete u) (upd_files (delete u) w)).

Definition qstash_publishJSON (m : QMessage) : M unit :=
  modify (fun w => emit (EvPublish m) (upd_queue (fun q => q ++ [m]) w)).

Definition console_log (line : LogLine) : M unit :=
  modify (emit (EvConsoleLog line)).

Definition sendCsvImportEmails (e : Email) : M unit :=
  modify (emit (EvEmail e)).

(** ** The batch processor *)

Definition MAX_ROWS_PER_EXECUTION : nat := 25.

Definition redisKeyOf (p : Payload) : string :=
  "import:csv:" +:+ workspaceId p +:+ ":" +:+ id p.

(** The variables the [Papa.parse] callbacks close over. *)
Record ParseState := {
  currentRow : nat;
  mappedLinks : list MapperResult;
}.

(** Which of its three exits one call of the [step] callback took:
    skip-and-resume, abort, or map-persist-resume. *)
Inductive StepBranch := Skipped | Aborted | Mapped.

(** [results.data] as the [complete] callback sees it. With a [step]
    callback papaparse does not accumulate rows: on end of input
    [complete] receives an empty array, and [parser.abort()] calls
    [complete] with the results of the step in flight, whose [data] is
    the single row object. *)
Inductive ResultsData :=
| DataArray (rows : list Row)
| DataRow (row : Row).

(** What [results.data.length] evaluates to. *)
Inductive LengthValue :=
| LengthNumber (n : nat)
| LengthCell (cell : string)
| LengthUndefined.

(** [results.data.length]: the number of elements of an array; on a row
    object, the cell of the column headed [length] if the file has one,
    and [undefined] otherwise. *)
Definition data_length (d : ResultsData) : LengthValue :=
  match d with
  | DataArray rows => LengthNumber (length rows)
  | DataRow row =>
      match row_prop row "length" with
      | Some cell => LengthCell cell
      | None => LengthUndefined
      end
  end.

Record ParseReport := {
  final : ParseState;
  isComplete : bool;
  branches : list StepBranch;
}.

Section BatchProcessor.
Context `{Externals}.

(** The [complete] callback: [isComplete = currentRow >= results.data.length],
    [n] being the value of [currentRow] when it runs. A comparison with
    [undefined] is false; a comparison with a cell is the language's
    comparison of a number with a string. *)
Definition complete (n : nat) (d : ResultsData) : bool :=
  match data_length d with
  | LengthNumber len => (len <=? n)%nat
  | LengthCell cell => number_ge_string n cell
  | LengthUndefined => false
  end.

(** The [step] callback of [POST]. *)
Definition step (cursor : nat) (mp : LinkMapping) (redisKey : string)
    (row : Row) (st : ParseState) : M (StepBranch * ParseState) :=
  if (currentRow st <? cursor)%nat then
    mret (Skipped, {| currentRow := S (currentRow st);
                      mappedLinks := mappedLinks st |})
  else if (MAX_ROWS_PER_EXECUTION <=? currentRow st - cursor)%nat then
    mret (Aborted, st)
  else
    let st' := {| currentRow := S (currentRow st);
                  mappedLinks := mappedLinks st ++ [mapCsvRowToLink row mp] |} in
    redis_set (redisKey +:+ ":cursor") (currentRow st') ;;
    mret (Mapped, st').

(** [Papa.parse] in streaming mode: rows are handed to [step] one at a
    time (the callback pauses the parser for its whole duration) until
    the input ends or the callback aborts. *)
Fixpoint papa_parse (stepf : Row -> ParseState -> M (StepBranch * ParseState))
    (rows : list Row) (st : ParseState) : M ParseReport :=
  match rows with
  | [] =>
      mret {| final := st; isComplete := complete (currentRow st) (DataArray []);
              branches := [] |}
  | row :: rest =>
      r ← stepf row st;
      match fst r with
      | Aborted =>
          mret {| final := snd r;
                  isComplete := complete (currentRow (snd r)) (DataRow row);
                  branches := [Aborted] |}
      | b =>
          rep ← papa_parse stepf rest (snd r);
          mret {| final := final rep; isComplete := isComplete rep;
                  branches := b :: branches rep |}
      end
  end.

(** Everything [POST] does between fetching the file and calling
    [processMappedLinks]. *)
Definition parse_file (p : Payload) (cursor : nat) (rows : list Row) : M ParseReport :=
  papa_parse (step cursor (mapping p) (redisKeyOf p)) rows
    {| currentRow := 0; mappedLinks := [] |}.

End BatchProcessor.

(** ** The link materializer: [processMappedLinks] *)

(** [createMany({ data, skipDuplicates: true })]: a row whose unique key is
    already taken, by the table or by an earlier row of the same call, is
    skipped. *)
Definition createMany_skipDuplicates {A} (same_key : A -> A -> bool)
    (rows table : list A) : list A :=
  fold_left (fun tbl r => if existsb (same_key r) tbl then tbl else tbl ++ [r])
    rows table.

Definition same_tag (a b : Tag) : bool :=
  String.eqb (tag_projectId a) (tag_projectId b)
  && String.eqb (tag_name a) (tag_name b).

Definition same_domain (a b : Domain) : bool :=
  String.eqb (dom_slug a) (dom_slug b).

Definition has_data (r : MapperResult) : bool :=
  match data r with
  | Some _ => true
  | None => false
  end.

(** The two type guards of [processMappedLinks]. *)
Definition is_failed_mapping (r : MapperResult) : bool :=
  negb (success r) && JS.truthy_opt (error r).

Definition is_successful_mapping (r : MapperResult) : bool :=
  success r && has_data r.

Definition failedMappings (ml : list MapperResult) : list MapperResult :=
  List.filter is_failed_mapping ml.

Definition successfulMappings (ml : list MapperResult) : list MapperResult :=
  List.filter is_successful_mapping ml.

(** [successfulMappings.map((result) => result.data)]: [linksToCreate]
    before the duplicate check. *)
Definition candidates (ml : list MapperResult) : list LinkData :=
  omap data (successfulMappings ml).

Definition selectedTags (ml : list MapperResult) : list string :=
  List.filter JS.truthy
    (concat (map (fun d => default [] (tags d)) (candidates ml))).

Definition selectedDomains (ml : list MapperResult) : list string :=
  List.filter JS.truthy (map domain (candidates ml)).

(** [({ tags, ...link }) => ({ ...link, tagNames: tags || undefined, folderId })]. *)
Definition body_of (folder : option string) (d : LinkData) : LinkBody :=
  {| lb_domain := domain d; lb_key := key d; lb_url := url d;
     lb_title := title d; lb_description := description d;
     lb_createdAt := createdAt d; lb_tagNames := tags d;
     lb_folderId := folder |}.

(** [validLinks] and [errorLinks] of [processMappedLinks]. *)
Definition validLinks (processed : list ProcessedResult) : list ProcessedLink :=
  map pr_link
    (List.filter (fun r => match pr_error r with None => true | Some _ => false end)
       processed).

Definition errorLinks (processed : list ProcessedResult) : list ErrorLink :=
  omap (fun r =>
          match pr_error r with
          | Some e => Some {| el_domain := pl_domain (pr_link r);
                              el_key := pl_key (pr_link r);
                              el_error := e |}
          | None => None
          end) processed.

Section LinkMaterializer.
Context `{Externals}.

(** [linkConstructorSimple(link)]: the canonical short-link string. *)
Definition shortLinkOf (d : LinkData) : string :=
  linkConstructorSimple (domain d) (key d).

Definition tagsNotInWorkspace (existing : list Tag) (selected : list string) : list string :=
  List.filter
    (fun tag => negb (existsb
       (fun t => String.eqb (toLowerCase (tag_name t)) (toLowerCase tag)) existing))
    selected.

Definition domainsNotInWorkspace (existing : list Domain) (selected : list string) : list string :=
  List.filter
    (fun d => negb (existsb (fun x => String.eqb (dom_slug x) d) existing)
              && negb (existsb (String.eqb d) DUB_DOMAINS_ARRAY))
    selected.

(** The [prisma.link.findMany] of the duplicate check: the [shortLink]
    column of the workspace's links whose short link is one of the
    candidates'. *)
Definition existingLinks (ws : string) (cands : list LinkData)
    (table : list StoredLink) : list string :=
  map sl_shortLink
    (List.filter
       (fun l => String.eqb (sl_projectId l) ws
                 && existsb (String.eqb (sl_shortLink l)) (map shortLinkOf cands))
       table).

(** [linksToCreate.filter(...)]: drop the candidates found in storage. *)
Definition dedup (existing : list string) (cands : list LinkData) : list LinkData :=
  List.filter
    (fun link => negb (existsb (fun s => String.eqb s (shortLinkOf link)) existing))
    cands.

(** [linksToCreate] as handed to validation, for a given link table. *)
Definition linksToCreate (ws : string) (table : list StoredLink)
    (ml : list MapperResult) : list LinkData :=
  dedup (existingLinks ws (candidates ml) table) (candidates ml).

(** The synchronous part of the [linksToCreate.map] callback: the first
    candidate the schema refuses throws out of the whole [map]. *)
Fixpoint parse_bodies (folder : option string) (links : list LinkData)
    : M (list LinkBody) :=
  match links with
  | [] => mret []
  | d :: rest =>
      match createLinkBodySchema_parse (body_of folder d) with
      | None => throw "ZodError"
      | Some b => bs ← parse_bodies folder rest; mret (b :: bs)
      end
  end.

Definition process_all (ws plan user : string) (bodies : list LinkBody)
    : list ProcessedResult :=
  map (fun b => processLink {| pa_payload := b; pa_workspace_id := ws;
                               pa_workspace_plan := plan; pa_userId := user;
                               pa_bulk := true |}) bodies.

(** [prisma.project.findUniqueOrThrow]. *)
Definition findProjectOrThrow (ws : string) : M Project :=
  w ← gets projectTable;
  match List.find (fun pr => String.eqb (proj_id pr) ws) w with
  | Some pr => mret pr
  | None => throw "No Project found"
  end.

(** "Process the tags": create the requested tags the workspace lacks. *)
Definition process_tags (ml : list MapperResult) (p : Payload) : M unit :=
  let ws := workspaceId p in
  tags ← gets (fun w => List.filter (fun t => String.eqb (tag_projectId t) ws)
                          (tagTable w));
  let newTags := tagsNotInWorkspace tags (selectedTags ml) in
  if (0 <? length newTags)%nat then
    modify (upd_tagTable (createMany_skipDuplicates same_tag
      (map (fun name => {| tag_projectId := ws; tag_name := name |}) newTags)))
  else mret tt.

(** "Process the domains". The [addDomainToVercel] and [createLink] calls
    sit in arrays nested inside the [Promise.allSettled] argument, so they
    are started but not awaited; they are recorded as events and leave the
    link table as the later lookup finds it. *)
Definition process_domains (ml : list MapperResult) (p : Payload) : M unit :=
  let ws := workspaceId p in
  domains ← gets (fun w => List.filter (fun d => String.eqb (dom_projectId d) ws)
                             (domainTable w));
  let newDomains := domainsNotInWorkspace domains (selectedDomains ml) in
  (if (0 <? length newDomains)%nat then
     modify (upd_domainTable (createMany_skipDuplicates same_domain
       (map (fun slug => {| dom_projectId := ws; dom_slug := slug;
                            dom_primary := false |}) newDomains))) ;;
     for_each (fun d => modify (emit (EvAddDomainToVercel d))) newDomains ;;
     for_each (fun d => modify (emit (EvCreateLink ws (userId p) d "_root")))
       newDomains
   else mret tt) ;;
  if (0 <? length (selectedDomains ml))%nat then
    redis_sadd (redisKeyOf p +:+ ":domains") (selectedDomains ml)
  else mret tt.

(** The tail of [processMappedLinks] once validation has answered:
    bulk-insert the valid links and count them, append the rejected ones
    to the failed list. The awaited [bulkCreateLinks], [redis.incrby] and
    [redis.rpush] are taken to resolve, like every call to Redis, Prisma,
    storage and the queue whose failure the source does not handle. *)
Definition record_results (p : Payload) (processed : list ProcessedResult) : M unit :=
  (if (0 <? length (validLinks processed))%nat then
     modify (fun w => emit (EvBulkCreateLinks (validLinks processed))
                        (upd_linkTable (bulkCreateLinks (validLinks processed)) w)) ;;
     redis_incrby (redisKeyOf p +:+ ":created") (length (validLinks processed))
   else mret tt) ;;
  if (0 <? length (errorLinks processed))%nat then
    redis_rpush (redisKeyOf p +:+ ":failed") (errorLinks processed)
  else mret tt.

(** "Process the links": duplicate check, validation, creation. *)
Definition process_links (ml : list MapperResult) (p : Payload) : M unit :=
  let ws := workspaceId p in
  table ← gets linkTable;
  console_log (LogExistingLinks (existingLinks ws (candidates ml) table)) ;;
  workspace ← findProjectOrThrow ws;
  bodies ← parse_bodies (folderId p) (linksToCreate ws table ml);
  record_results p (process_all ws (proj_plan workspace) (userId p) bodies).

(** [processMappedLinks]. *)
Definition processMappedLinks (ml : list MapperResult) (p : Payload) : M unit :=
  if (length ml =? 0)%nat then console_log LogNoLinks
  else
    console_log (LogFailedMappings (failedMappings ml)) ;;
    process_tags ml p ;;
    process_domains ml p ;;
    process_links ml p.

End LinkMaterializer.

(** ** The route handler *)

Inductive Response :=
| ResponseOK
| ResponseError (message : string).

Section Route.
Context `{Externals}.

Definition continuation (p : Payload) : QMessage :=
  {| q_url := APP_DOMAIN_WITH_NGROK +:+ "/api/cron/import/csv";
     q_body := Some p;
     q_delay := None |}.

(** The [else] branch of [POST]: notify, then clear the job's state. *)
Definition finalize (p : Payload) : M unit :=
  let redisKey := redisKeyOf p in
  errs ← redis_lrange_all (redisKey +:+ ":failed");
  created ← redis_get (redisKey +:+ ":created");
  let createdCount := default 0 created in
  domains ← redis_smembers (redisKey +:+ ":domains");
  console_log (LogSummary domains createdCount errs) ;;
  sendCsvImportEmails {| em_workspaceId := workspaceId p; em_count := createdCount;
                         em_domains := domains; em_errorLinks := errs |} ;;
  redis_del (redisKey +:+ ":cursor") ;;
  redis_del (redisKey +:+ ":created") ;;
  redis_del (redisKey +:+ ":failed") ;;
  redis_del (redisKey +:+ ":domains") ;;
  storage_delete (file_url p).

(** The body of the [try] block of [POST], after signature verification
    and payload parsing. *)
Definition POST_try (p : Payload) : M unit :=
  if negb (JS.truthy (id p)) || negb (JS.truthy (file_url p)) then
    throw "Missing ID or URL for the import file."
  else
    stored ← redis_get (redisKeyOf p +:+ ":cursor");
    let cursor := default 0 stored in
    response ← storage_fetch (file_url p);
    match response with
    | None => throw "CSV import file not found."
    | Some rows =>
        rep ← parse_file p cursor rows;
        processMappedLinks (mappedLinks (final rep)) p ;;
        console_log (LogIsComplete (isComplete rep)) ;;
        if (MAX_ROWS_PER_EXECUTION <=? currentRow (final rep) - cursor)%nat
           && negb (isComplete rep)
        then qstash_publishJSON (continuation p)
        else finalize p
    end.

(** [POST]: the [catch] block logs and answers with an error response. *)
Definition POST (p : Payload) (w : World) : Response * World :=
  match POST_try p w with
  | (Ok _, w') => (ResponseOK, w')
  | (Thrown msg, w') =>
      (ResponseError msg,
       emit (EvLogCron ("Error importing CSV links: " +:+ msg)) w')
  end.

End Route.

(** ** The test-completion scheduler *)

Record TestVariant := { tv_url : string; tv_percentage : nat }.

(** The fields of [ExpandedLink] that [scheduleTestCompletion] reads; a
    [Date] is its epoch time in milliseconds. *)
Record ExpandedLink := {
  link_id : string;
  testVariants : option (list TestVariant);
  testCompletedAt : option Z;
}.

(** How the [fetch] of the cancellation request settles. *)
Inductive FetchResult :=
| FetchRejected
| FetchResponse (ok : bool) (status : nat).

(** What one call observes of its environment: the outcome of the
    cancellation request and the two readings of the clock ([new Date()]
    in the comparison and in the delay). *)
Record CallEnv := {
  cancel_response : FetchResult;
  now_compared : Z;
  now_delayed : Z;
}.

Definition console_error (msg : string) : M unit :=
  modify (emit (EvConsoleError msg)).

(** [DELETE /v2/messages] with body [{ url }]: a request answered with an
    [ok] status has cancelled every pending message addressed to [url];
    any other outcome leaves the queue alone and reaches the [catch]. *)
Definition cancel_scheduled (r : FetchResult) (u : string) : M unit :=
  match r with
  | FetchResponse true _ =>
      modify (upd_queue (List.filter (fun m => negb (String.eqb (q_url m) u))))
  | _ =>
      console_error
        "scheduleTestCompletion: failed to cancel previously scheduled completion messages"
  end.

Section Scheduler.
Context `{Externals}.

Definition completionUrl (link : ExpandedLink) : string :=
  APP_DOMAIN_WITH_NGROK +:+ "/api/cron/links/" +:+ link_id link +:+ "/complete-tests".

(** [scheduleTestCompletion]. The awaited [qstash.publishJSON] is taken
    to resolve; a rejected publish would leave the state of the
    cancellation and reach the caller as an exception. *)
Definition scheduleTestCompletion (link : ExpandedLink) (env : CallEnv) : M unit :=
  cancel_scheduled (cancel_response env) (completionUrl link) ;;
  match testVariants link with
  | None => mret tt
  | Some _ =>
      match testCompletedAt link with
      | None => mret tt
      | Some t =>
          if (now_compared env <? t)%Z then
            qstash_publishJSON
              {| q_url := completionUrl link;
                 q_body := None;
                 q_delay := Some (QArith_base.Qmake (t - now_delayed env) 1000) |}
          else mret tt
      end
  end.

(** The delayed completion messages pending for [link]. *)
Definition outstanding (link : ExpandedLink) (w : World) : list QMessage :=
  List.filter (fun m => String.eqb (q_url m) (completionUrl link)) (queue w).

End Scheduler.

(** ** A concrete choice of the external helpers, for running the model *)

Module Sample.

Definition is_space (c : ascii) : bool := Ascii.eqb c " "%char.

Fixpoint trim_left (s : string) : string :=
  match s with
  | String c rest => if is_space c then trim_left rest else s
  | EmptyString => EmptyString
  end.

Fixpoint trim_right (s : string) : string :=
  match s with
  | String c rest =>
      match trim_right rest with
      | EmptyString => if is_space c then EmptyString else String c EmptyString
      | r => String c r
      end
  | EmptyString => EmptyString
  end.

Definition lower_ascii (c : ascii) : ascii :=
  let n := nat_of_ascii c in
  if ((65 <=? n) && (n <=? 90))%nat then ascii_of_nat (n + 32) else c.

Fixpoint lower (s : string) : string :=
  match s with
  | String c rest => String (lower_ascii c) (lower rest)
  | EmptyString => EmptyString
  end.

Definition short_link (dom k : string) : string :=
  "https://" +:+ dom +:+ (if String.eqb k "_root" then "" else "/" +:+ k).

(** Validation that rejects exactly the key [taken]. *)
Definition validate (a : ProcessLinkArgs) : ProcessedResult :=
  let b := pa_payload a in
  {| pr_link := {| pl_domain := lb_domain b; pl_key := lb_key b;
                   pl_url := lb_url b; pl_projectId := pa_workspace_id a |};
     pr_error := if String.eqb (lb_key b) "taken"
                 then Some "Duplicate key: This short link already exists."
                 else None |}.

(** The value of a string of decimal digits; the empty string counts as
    zero, as [ToNumber] has it. *)
Fixpoint digits_value (acc : nat) (s : string) : option nat :=
  match s with
  | EmptyString => Some acc
  | String c rest =>
      let n := nat_of_ascii c in
      if ((48 <=? n) && (n <=? 57))%nat
      then digits_value (10 * acc + (n - 48)) rest
      else None
  end.

(** [n >= s] on strings of decimal digits; anything else is taken not to
    be a number. *)
Definition ge_decimal (n : nat) (s : string) : bool :=
  match digits_value 0 s with
  | Some m => (m <=? n)%nat
  | None => false
  end.

Definition insert_links (links : list ProcessedLink) (table : list StoredLink)
    : list StoredLink :=
  table ++ map (fun l => {| sl_projectId := pl_projectId l;
                            sl_shortLink := short_link (pl_domain l) (pl_key l) |})
               links.

Definition externals : Externals :=
  {| trim := fun s => trim_right (trim_left s);
     toLowerCase := lower;
     number_ge_string := ge_decimal;
     normalizeString := lower;
     parseDateTime := fun _ => None;
     constructsURL := fun s => String.prefix "http" s;
     linkConstructorSimple := short_link;
     DUB_DOMAINS_ARRAY := ["dub.sh"];
     APP_DOMAIN_WITH_NGROK := "https://app.dub.co";
     createLinkBodySchema_parse := Some;
     processLink := validate;
     bulkCreateLinks := insert_links |}.

Definition mapping0 : LinkMapping :=
  {| map_link := "Short Link"; map_url := "URL"; map_title := None;
     map_description := None; map_tags := None; map_createdAt := None |}.

Definition payload0 : Payload :=
  {| id := "job1"; workspaceId := "ws_1"; userId := "user_1"; folderId := None;
     file_url := "imports/job1.csv"; mapping := mapping0 |}.

Definition row_of (link dest : string) : Row :=
  [("short link", link); ("url", dest)].

Definition world0 (rows : list Row) : World :=
  {| redis := ∅;
     files := {[ "imports/job1.csv" := rows ]};
     tagTable := [];
     domainTable := [];
     linkTable := [];
     projectTable := [{| proj_id := "ws_1"; proj_plan := "pro" |}];
     queue := [];
     log := [] |}.

(** A 60-row file. *)
Definition rows60 : list Row :=
  map (fun i => row_of ("d.co/k" +:+ pretty i) "https://example.com/page") (seq 0 60).

(** A row without a link, one without a URL, one with an unparseable URL
    and a good one. *)
Definition mixed_rows : list Row :=
  [row_of "" "https://example.com";
   row_of "d.co/a" "";
   row_of "d.co/b" "not a url";
   row_of "d.co/ok" "https://example.com"].


(** The mixed batch followed by a row that validation rejects. *)
Definition mixed_and_taken : list MapperResult :=
  map (fun r => @mapCsvRowToLink externals r mapping0)
    (mixed_rows ++ [row_of "d.co/taken" "https://example.com"]).

(** The first batch of the 60-row file. *)
Definition first_batch : list MapperResult :=
  map (fun r => @mapCsvRowToLink externals r mapping0) (take 25 rows60).

Definition result_a : MapperResult :=
  @mapCsvRowToLink externals (row_of "d.co/a" "https://example.com") mapping0.

Definition data_a : LinkData :=
  {| domain := "d.co"; key := "a"; url := "https://example.com";
     title := None; description := None; tags := None; createdAt := None |}.

Definition project0 : Project := {| proj_id := "ws_1"; proj_plan := "pro" |}.

Definition link0 : ExpandedLink :=
  {| link_id := "link_1";
     testVariants := Some [{| tv_url := "https://a.example"; tv_percentage := 50 |};
                           {| tv_url := "https://b.example"; tv_percentage := 50 |}];
     testCompletedAt := Some 1000%Z |}.

Definition env_ok (now : Z) : CallEnv :=
  {| cancel_response := FetchResponse true 200; now_compared := now; now_delayed := now |}.


End Sample.

(** ** Vocabulary of the statements *)

Definition cursorKey (p : Payload) : string := redisKeyOf p +:+ ":cursor".

(** What the next invocation will read as its cursor:
    [parseInt((await redis.get(key)) || "0")]. *)
Definition storedCursor (p : Payload) (w : World) : nat :=
  match redis w !! cursorKey p with
  | Some (RInt n) => n
  | _ => 0
  end.

(** The job's failed-rows list and created counter as [finalize] reads
    them. *)
Definition failedRows (p : Payload) (w : World) : list ErrorLink :=
  match redis w !! (redisKeyOf p +:+ ":failed") with
  | Some (RList l) => l
  | _ => []
  end.

Definition createdCount (p : Payload) (w : World) : nat :=
  match redis w !! (redisKeyOf p +:+ ":created") with
  | Some (RInt n) => n
  | _ => 0
  end.

(** The values written to key [k] with [redis.set], oldest first. *)
Definition cursor_writes (k : string) (evs : list Event) : list nat :=
  omap (fun e => match e with
                 | EvRedisSet k' v => if String.eqb k' k then Some v else None
                 | _ => None
                 end) evs.

(** The world after the cursor writes [from + 1], ..., [from + count]. *)
Definition persist_cursor (k : string) (from count : nat) (w : World) : World :=
  fold_left (fun w v => emit (EvRedisSet k v) (upd_redis (insert k (RInt v)) w))
    (seq (S from) count) w.

(** A parse whose report is prefixed with the branches [bs] taken by
    earlier rows. *)
Definition with_branches (bs : list StepBranch) (m : M ParseReport) : M ParseReport :=
  fun w =>
    match m w with
    | (Ok rep, w') =>
        (Ok {| final := final rep; isComplete := isComplete rep;
               branches := bs ++ branches rep |}, w')
    | (Thrown msg, w') => (Thrown msg, w')
    end.

(** Events of the tag and domain phases of [processMappedLinks]: none of
    them writes the cursor, the failed list or the link table. *)
Definition is_side_event (e : Event) : bool :=
  match e with
  | EvConsoleLog _ | EvRedisSAdd _ _ | EvAddDomainToVercel _
  | EvCreateLink _ _ _ _ => true
  | _ => false
  end.

(** [w1] differs from [w] only in the tag and domain tables, the job's
    [":domains"] set and side events appended to the log. *)
Definition prefix_frame (p : Payload) (w w1 : World) : Prop :=
  files w1 = files w
  ∧ queue w1 = queue w
  ∧ projectTable w1 = projectTable w
  ∧ linkTable w1 = linkTable w
  ∧ (∀ k, k ≠ redisKeyOf p +:+ ":domains" → redis w1 !! k = redis w !! k)
  ∧ ∃ evs, log w1 = log w ++ evs ∧ Forall (fun e => is_side_event e = true) evs.

Section JobLife.
Context `{Externals}.

(** The bodies [createLinkBodySchema.parse] returns for [links], or [None]
    if it refuses one of them. *)
Fixpoint parsed_bodies (folder : option string) (links : list LinkData)
    : option (list LinkBody) :=
  match links with
  | [] => Some []
  | d :: rest =>
      match createLinkBodySchema_parse (body_of folder d) with
      | None => None
      | Some b =>
          match parsed_bodies folder rest with
          | None => None
          | Some bs => Some (b :: bs)
          end
      end
  end.

(** What [record_results] appends to the log. *)
Definition record_events (p : Payload) (processed : list ProcessedResult) : list Event :=
  (if 0 <? length (validLinks processed)
   then [EvBulkCreateLinks (validLinks processed);
         EvRedisIncrBy (redisKeyOf p +:+ ":created") (length (validLinks processed))]
   else [])
  ++ (if 0 <? length (errorLinks processed)
      then [EvRedisRPush (redisKeyOf p +:+ ":failed") (errorLinks processed)]
      else []).

(** [n] deliveries of the job's queue message, one after the other. *)
Fixpoint invocations (n : nat) (p : Payload) (w : World) : World :=
  match n with
  | 0 => w
  | S n' => invocations n' p (snd (POST p w))
  end.

(** What [finalize] appends to the log in world [w]. *)
Definition finalize_events (p : Payload) (w : World) : list Event :=
  let domains := match redis w !! (redisKeyOf p +:+ ":domains") with
                 | Some (RSet s) => s
                 | _ => []
                 end in
  [EvConsoleLog (LogSummary domains (createdCount p w) (failedRows p w));
   EvEmail {| em_workspaceId := workspaceId p; em_count := createdCount p w;
              em_domains := domains; em_errorLinks := failedRows p w |};
   EvRedisDel (redisKeyOf p +:+ ":cursor");
   EvRedisDel (redisKeyOf p +:+ ":created");
   EvRedisDel (redisKeyOf p +:+ ":failed");
   EvRedisDel (redisKeyOf p +:+ ":domains");
   EvStorageDelete (file_url p)].

(** The batch an invocation started in world [w] hands to
    [processMappedLinks] when the file holds [rows]. *)
Definition batch_rows (p : Payload) (w : World) (rows : list Row) : list Row :=
  take MAX_ROWS_PER_EXECUTION (drop (storedCursor p w) rows).

(** The cursor values persisted between world [w] and a later world
    [w'] whose log extends that of [w]. *)
Definition cursor_history (p : Payload) (w w' : World) : list nat :=
  cursor_writes (cursorKey p) (drop (length (log w)) (log w')).

(** Whether an invocation started at cursor [c] on the file [rows] ends
    its parse with [isComplete] set: at the end of the input, or at an
    abort on a row whose [length] cell the counter has reached. *)
Definition completes_at (c : nat) (rows : list Row) : bool :=
  match rows !! (c + MAX_ROWS_PER_EXECUTION) with
  | Some row => complete (c + MAX_ROWS_PER_EXECUTION) (DataRow row)
  | None => true
  end.

(** [processLink] applied, for the workspace on record [pr], to each of
    [bodies] in order. *)
Definition validated (p : Payload) (pr : Project) (bodies : list LinkBody)
    : list ProcessedResult :=
  map (fun b => processLink {| pa_payload := b; pa_workspace_id := workspaceId p;
                               pa_workspace_plan := proj_plan pr;
                               pa_userId := userId p; pa_bulk := true |}) bodies.

(** The rows [batch] have been carried from the link table [table] to
    [table'] with the validation results [processed]: [processed] holds
    [processLink]'s answer, one per survivor of the duplicate check and in
    their order, to the body the schema made of it, and the valid ones
    have been bulk-inserted. *)
Definition batch_processed (p : Payload) (pr : Project) (batch : list Row)
    (table table' : list StoredLink) (processed : list ProcessedResult) : Prop :=
  ∃ bodies,
    Forall2 (fun d b => createLinkBodySchema_parse (body_of (folderId p) d) = Some b)
      (linksToCreate (workspaceId p) table
         (map (fun r => mapCsvRowToLink r (mapping p)) batch))
      bodies
    ∧ processed = validated p pr bodies
    ∧ table' = (if 0 <? length (validLinks processed)
                then bulkCreateLinks (validLinks processed) table
                else table).

(** The parse state after [n] skipped rows, and after mapping [rows]. *)
Definition advance (n : nat) (st : ParseState) : ParseState :=
  {| currentRow := currentRow st + n; mappedLinks := mappedLinks st |}.

Definition accept (mp : LinkMapping) (rows : list Row) (st : ParseState) : ParseState :=
  {| currentRow := currentRow st + length rows;
     mappedLinks := mappedLinks st ++ map (fun r => mapCsvRowToLink r mp) rows |}.

(** [existingLinks.some((l) => l.shortLink === linkConstructorSimple(link))]. *)
Definition found_in_storage (ws : string) (cands : list LinkData)
    (table : list StoredLink) (d : LinkData) : bool :=
  existsb (fun s => String.eqb s (shortLinkOf d)) (existingLinks ws cands table).

(** The invariant of a job: the values persisted so far increase
    strictly, and as long as the file exists none of them exceeds the
    stored cursor. *)
Definition cursor_inv (p : Payload) (hist : list nat) (w : World) : Prop :=
  StronglySorted lt hist
  ∧ (files w !! file_url p = None ∨ Forall (fun v => v ≤ storedCursor p w) hist).

(** Modelled from the spec: [bulkCreateLinks] is not among the sources;
    the spec has a validated row become a Link record identified by its
    domain and key, stored under the canonical short-link string. *)
Definition stored_link (l : ProcessedLink) : StoredLink :=
  {| sl_projectId := pl_projectId l;
     sl_shortLink := linkConstructorSimple (pl_domain l) (pl_key l) |}.

(** Modelled from the spec: what [bulkCreateLinks], [processLink] and
    [createLinkBodySchema], none of them among the sources, must do for a
    stored link to be recognised by the duplicate check: the bulk insert
    appends one record per link under its canonical short link, and
    neither the schema nor an accepting validation changes the workspace,
    domain or key of a link. *)
Definition faithful_storage : Prop :=
  (∀ links table, bulkCreateLinks links table = table ++ map stored_link links)
  ∧ (∀ a, pr_error (processLink a) = None →
          pl_projectId (pr_link (processLink a)) = pa_workspace_id a
          ∧ pl_domain (pr_link (processLink a)) = lb_domain (pa_payload a)
          ∧ pl_key (pr_link (processLink a)) = lb_key (pa_payload a))
  ∧ (∀ b b', createLinkBodySchema_parse b = Some b' →
             lb_domain b' = lb_domain b ∧ lb_key b' = lb_key b).

End JobLife.

(** ** Further vocabulary *)

(** The mapping reduced to its two required columns. *)
Definition required_only (mp : LinkMapping) : LinkMapping :=
  {| map_link := map_link mp; map_url := map_url mp; map_title := None;
     map_description := None; map_tags := None; map_createdAt := None |}.

(** The required part of a mapped link. *)
Definition required_part (d : LinkData) : string * string * string :=
  (domain d, key d, url d).

(** The job's set of touched domains as [finalize] reads it. *)
Definition touchedDomains (p : Payload) (w : World) : list string :=
  match redis w !! (redisKeyOf p +:+ ":domains") with
  | Some (RSet s) => s
  | _ => []
  end.

(** The message of the error thrown before any row is read: for a payload
    without id or URL, and for a file that storage does not hold. *)
Definition early_message (p : Payload) : string :=
  if negb (JS.truthy (id p)) || negb (JS.truthy (file_url p))
  then "Missing ID or URL for the import file."
  else "CSV import file not found.".

Section MoreVocabulary.
Context `{Externals}.

(** The requested domains that [processMappedLinks] registers: those owned
    neither by the workspace nor by the platform. *)
Definition unregisteredDomains (ml : list MapperResult) (p : Payload) (w : World)
    : list string :=
  domainsNotInWorkspace
    (List.filter (fun d => String.eqb (dom_projectId d) (workspaceId p)) (domainTable w))
    (selectedDomains ml).

End MoreVocabulary.

(** ** Further sample data *)

Module MoreSamples.
Import Sample.

(** The sample helpers with a schema that refuses exactly the key [bad]. *)
Definition strict_externals : Externals :=
  {| trim := fun s => trim_right (trim_left s);
     toLowerCase := lower;
     number_ge_string := ge_decimal;
     normalizeString := lower;
     parseDateTime := fun _ => None;
     constructsURL := fun s => String.prefix "http" s;
     linkConstructorSimple := short_link;
     DUB_DOMAINS_ARRAY := ["dub.sh"];
     APP_DOMAIN_WITH_NGROK := "https://app.dub.co";
     createLinkBodySchema_parse :=
       fun b => if String.eqb (lb_key b) "bad" then None else Some b;
     processLink := validate;
     bulkCreateLinks := insert_links |}.



(** The 60-row file with a third column, headed [length]. *)
Definition rows60_length : list Row :=
  map (fun i => [("short link", "d.co/k" +:+ pretty i);
                 ("url", "https://example.com/page");
                 ("length", "3")])
    (seq 0 60).

(** A good row followed by one the strict schema refuses. *)
Definition refused_batch : list MapperResult :=
  map (fun r => @mapCsvRowToLink strict_externals r mapping0)
    [row_of "d.co/ok" "https://example.com"; row_of "d.co/bad" "https://example.com"].

Definition data_bad : LinkData :=
  {| domain := "d.co"; key := "bad"; url := "https://example.com";
     title := None; description := None; tags := None; createdAt := None |}.

(** A mapping with every optional column, and a row whose title is blank
    and whose tags cell has empty segments. *)
Definition mapping_full : LinkMapping :=
  {| map_link := "Short Link"; map_url := "URL"; map_title := Some "Title";
     map_description := Some "Description"; map_tags := Some "Tags";
     map_createdAt := Some "Created" |}.

Definition row_full : Row :=
  [("short link", "d.co/a"); ("url", "https://example.com"); ("title", "   ");
   ("description", "A page"); ("tags", "News, ,Blog,"); ("created", "yesterday")].

Definition data_full : LinkData :=
  {| domain := "d.co"; key := "a"; url := "https://example.com";
     title := None; description := Some "A page"; tags := Some ["news"; "blog"];
     createdAt := None |}.

(** Storage without the job's file. *)
Definition fileless_world : World :=
  {| redis := ∅; files := ∅; tagTable := []; domainTable := []; linkTable := [];
     projectTable := [{| proj_id := "ws_1"; proj_plan := "pro" |}];
     queue := []; log := [] |}.

(** The file is there, the workspace is not. *)
Definition orphan_world (rows : list Row) : World :=
  {| redis := ∅; files := {[ "imports/job1.csv" := rows ]};
     tagTable := []; domainTable := []; linkTable := []; projectTable := [];
     queue := []; log := [] |}.

(** A completion message for another link, and a queue that holds it
    behind a pending completion message of [link0]. *)
Definition completion_other : QMessage :=
  {| q_url := "https://app.dub.co/api/cron/links/link_2/complete-tests";
     q_body := None;
     q_delay := Some (QArith_base.Qmake 5 1) |}.

Definition busy_world : World :=
  {| redis := ∅; files := ∅; tagTable := []; domainTable := []; linkTable := [];
     projectTable := [];
     queue := [{| q_url := "https://app.dub.co/api/cron/links/link_1/complete-tests";
                  q_body := None;
                  q_delay := Some (QArith_base.Qmake 9 1) |};
               completion_other];
     log := [] |}.

(** The completion message of [link0] when the clock reads [now]. *)
Definition completion0 (now : Z) : QMessage :=
  {| q_url := "https://app.dub.co/api/cron/links/link_1/complete-tests";
     q_body := None;
     q_delay := Some (QArith_base.Qmake (1000 - now) 1000) |}.

End MoreSamples.

(** * Properties *)

(** ** Strings *)

Section StringFacts.

Lemma truthy_true_iff s : JS.truthy s = true ↔ s ≠ "".
Proof.
  unfold JS.truthy. destruct (String.eqb_spec s ""); simpl; split; congruence.
Qed.

Lemma truthy_false_iff s : JS.truthy s = false ↔ s = "".
Proof.
  unfold JS.truthy. destruct (String.eqb_spec s ""); simpl; split; congruence.
Qed.

Lemma split_nonempty sep s : JS.split sep s ≠ [].
Proof.
  destruct s as [|c rest]; simpl; [done|].
  destruct (Ascii.eqb c sep); [done|].
  destruct (JS.split sep rest); done.
Qed.

Lemma split_no_sep sep s : JS.contains sep s = false → JS.split sep s = [s].
Proof.
  induction s as [|c rest IH]; simpl; [done|].
  intros Hc. apply orb_false_iff in Hc as [Hc Hrest].
  rewrite Hc, (IH Hrest). done.
Qed.

Lemma split_has_sep sep s :
  JS.contains sep s = true → ∃ d p ps, JS.split sep s = d :: p :: ps.
Proof.
  induction s as [|c rest IH]; simpl; [done|].
  destruct (Ascii.eqb c sep) eqn:Hc; simpl.
  - intros _. destruct (JS.split sep rest) as [|p ps] eqn:Hs.
    + by apply split_nonempty in Hs.
    + eauto.
  - intros Hrest. destruct (IH Hrest) as (d & p & ps & ->). eauto.
Qed.

Lemma split_head_no_sep sep s : JS.contains sep (hd "" (JS.split sep s)) = false.
Proof.
  induction s as [|c rest IH]; simpl; [done|].
  destruct (Ascii.eqb c sep) eqn:Hc; simpl; [done|].
  destruct (JS.split sep rest) as [|p ps]; simpl in *.
  - by rewrite Hc.
  - by rewrite Hc, IH.
Qed.

Lemma join_cons sep p q qs :
  JS.join sep (p :: q :: qs) = p +:+ sep +:+ JS.join sep (q :: qs).
Proof. reflexivity. Qed.

(** Splitting and re-joining on the same separator is the identity. *)
Lemma join_split sep s : JS.join (String sep "") (JS.split sep s) = s.
Proof.
  induction s as [|c rest IH]; [done|].
  simpl JS.split. destruct (Ascii.eqb_spec c sep) as [->|Hne].
  - destruct (JS.split sep rest) as [|p ps] eqn:Hs.
    + by apply split_nonempty in Hs.
    + rewrite join_cons, IH. reflexivity.
  - destruct (JS.split sep rest) as [|p ps] eqn:Hs.
    + by apply split_nonempty in Hs.
    + destruct ps as [|q qs].
      * simpl in IH. simpl. by rewrite IH.
      * rewrite join_cons in IH. rewrite join_cons, <- IH. reflexivity.
Qed.

(** A string with a separator is its first segment, the separator, and
    the remaining segments joined. *)
Lemma split_first sep s :
  JS.contains sep s = true →
  s = hd "" (JS.split sep s) +:+ String sep "" +:+
      JS.join (String sep "") (tl (JS.split sep s)).
Proof.
  intros Hc. destruct (split_has_sep _ _ Hc) as (d & p & ps & Hs).
  rewrite <- (join_split sep s) at 1. rewrite Hs. reflexivity.
Qed.

Lemma append_inj_l (s a b : string) : s +:+ a = s +:+ b → a = b.
Proof. induction s as [|c s IH]; simpl; [done|]. intros [=]. auto. Qed.

End StringFacts.

(** ** The row mapper *)

Section RowMapperFacts.
Context `{Externals}.

(** The mapper has exactly four outcomes. *)
Lemma mapCsvRowToLink_cases row mp :
  let linkValue := getValueByKey row (map_link mp) in
  let urlValue := getValueByKey row (map_url mp) in
  (linkValue = "" ∧
     mapCsvRowToLink row mp = mapper_failure "Missing required field: link")
  ∨ (linkValue ≠ "" ∧ urlValue = "" ∧
     mapCsvRowToLink row mp = mapper_failure "Missing required field: url")
  ∨ (linkValue ≠ "" ∧ urlValue ≠ "" ∧ constructsURL urlValue = false ∧
     mapCsvRowToLink row mp = mapper_failure ("Invalid URL format: " +:+ urlValue))
  ∨ (linkValue ≠ "" ∧ urlValue ≠ "" ∧ constructsURL urlValue = true ∧
     ∃ d, mapCsvRowToLink row mp = {| success := true; error := None; data := Some d |}
          ∧ url d = urlValue
          ∧ domain d = hd "" (JS.split "/" linkValue)
          ∧ key d = JS.or_else (JS.join "/" (tl (JS.split "/" linkValue))) "_root").
Proof.
  intros linkValue urlValue. unfold mapCsvRowToLink.
  fold linkValue urlValue.
  destruct (JS.truthy linkValue) eqn:Hl; simpl.
  2:{ left. by apply truthy_false_iff in Hl. }
  apply truthy_true_iff in Hl.
  destruct (JS.truthy urlValue) eqn:Hu; simpl.
  2:{ right; left. by apply truthy_false_iff in Hu. }
  apply truthy_true_iff in Hu.
  destruct (constructsURL urlValue) eqn:Hc; simpl.
  - right; right; right. repeat split; try done. eexists. repeat split.
  - right; right; left. done.
Qed.

(** Whatever reaches the candidate list carries a URL that [new URL]
    accepted. *)
Lemma candidates_url_constructs mp rows :
  Forall (fun d => constructsURL (url d) = true)
    (candidates (map (fun row => mapCsvRowToLink row mp) rows)).
Proof.
  unfold candidates, successfulMappings.
  induction rows as [|row rows IH]; simpl; [constructor|].
  destruct (mapCsvRowToLink_cases row mp)
    as [[_ ->]|[(_ & _ & ->)|[(_ & _ & _ & ->)|(_ & _ & Hc & d & -> & Hd & _)]]];
    simpl; try exact IH.
  constructor; [by rewrite Hd | exact IH].
Qed.

Lemma dedup_sublist existing cands d :
  d ∈ dedup existing cands → d ∈ cands.
Proof.
  unfold dedup. rewrite !list_elem_of_In, filter_In. tauto.
Qed.

Lemma candidates_app ml1 ml2 :
  candidates (ml1 ++ ml2) = candidates ml1 ++ candidates ml2.
Proof.
  unfold candidates, successfulMappings.
  by rewrite List.filter_app, omap_app.
Qed.


End RowMapperFacts.

Section RowMapperClaims.
Context `{Externals}.

(** C8. A row whose (trimmed) [link] value has no ["/"] is mapped to
    [domain] = the whole value and [key] = ["_root"]. A row whose [link]
    value has a ["/"] is mapped to [domain] = the text before the first
    ["/"] and [key] = the remaining segments joined by ["/"], with
    ["_root"] standing in when that remainder is empty. *)
Theorem C8_domain_and_key (row : Row) (mp : LinkMapping) :
  getValueByKey row (map_link mp) ≠ "" →
  getValueByKey row (map_url mp) ≠ "" →
  constructsURL (getValueByKey row (map_url mp)) = true →
  ∃ d,
    mapCsvRowToLink row mp = {| success := true; error := None; data := Some d |}
    ∧ (JS.contains "/" (getValueByKey row (map_link mp)) = false →
       domain d = getValueByKey row (map_link mp) ∧ key d = "_root")
    ∧ (JS.contains "/" (getValueByKey row (map_link mp)) = true →
       let rest := JS.join "/" (tl (JS.split "/" (getValueByKey row (map_link mp)))) in
       getValueByKey row (map_link mp) = domain d +:+ "/" +:+ rest
       ∧ JS.contains "/" (domain d) = false
       ∧ (rest ≠ "" → key d = rest)
       ∧ (rest = "" → key d = "_root")).
Proof.
  intros Hl Hu Hc.
  destruct (mapCsvRowToLink_cases row mp)
    as [[Hl' _]|[(_ & Hu' & _)|[(_ & _ & Hc' & _)|(_ & _ & _ & d & Hd & _ & Hdom & Hkey)]]];
    try congruence.
  exists d. split; [exact Hd|]. split.
  - intros Hno. rewrite Hdom, Hkey, (split_no_sep _ _ Hno). done.
  - intros Hyes rest. rewrite Hdom, Hkey. repeat split.
    + by apply split_first.
    + apply split_head_no_sep.
    + intros Hrest. unfold JS.or_else. fold rest.
      by apply truthy_true_iff in Hrest as ->.
    + intros Hrest. unfold JS.or_else. fold rest.
      by apply truthy_false_iff in Hrest as ->.
Qed.

(** C7. A row whose mapped [url] value is not accepted by [new URL] gets
    a failure result with an error message and no data; that result is
    not a successful mapping, adds no candidate to the batch, and every
    link handed to validation carries a URL that [new URL] accepted. *)
Theorem C7_unparseable_url_fails (row : Row) (mp : LinkMapping) :
  constructsURL (getValueByKey row (map_url mp)) = false →
  success (mapCsvRowToLink row mp) = false
  ∧ data (mapCsvRowToLink row mp) = None
  ∧ (error (mapCsvRowToLink row mp) = Some "Missing required field: link"
     ∨ error (mapCsvRowToLink row mp) = Some "Missing required field: url"
     ∨ error (mapCsvRowToLink row mp)
       = Some ("Invalid URL format: " +:+ getValueByKey row (map_url mp)))
  ∧ (∀ before after : list MapperResult,
       successfulMappings (before ++ mapCsvRowToLink row mp :: after)
       = successfulMappings (before ++ after))
  ∧ (∀ (before after : list MapperResult) ws table,
       linksToCreate ws table (before ++ mapCsvRowToLink row mp :: after)
       = linksToCreate ws table (before ++ after))
  ∧ (∀ (rows : list Row) ws table d,
       d ∈ linksToCreate ws table (map (fun r => mapCsvRowToLink r mp) rows) →
       constructsURL (url d) = true).
Proof.
  intros Hbad.
  assert (Hfail : ∃ msg, mapCsvRowToLink row mp = mapper_failure msg
            ∧ (msg = "Missing required field: link"
               ∨ msg = "Missing required field: url"
               ∨ msg = "Invalid URL format: " +:+ getValueByKey row (map_url mp))).
  { destruct (mapCsvRowToLink_cases row mp)
      as [[_ ->]|[(_ & _ & ->)|[(_ & _ & _ & ->)|(_ & _ & Hc & _)]]];
      [eauto 6 ..|congruence]. }
  destruct Hfail as (msg & -> & Hmsg).
  assert (Hsucc : ∀ before after,
            successfulMappings (before ++ mapper_failure msg :: after)
            = successfulMappings (before ++ after)).
  { intros. unfold successfulMappings. by rewrite !List.filter_app. }
  repeat split; try done.
  - simpl. destruct Hmsg as [-> | [-> | ->]]; auto.
  - intros. unfold linksToCreate, candidates. by rewrite Hsucc.
  - intros rows ws table d Hd. apply dedup_sublist in Hd.
    pose proof (candidates_url_constructs mp rows) as Hall.
    rewrite Forall_forall in Hall. by apply Hall.
Qed.

End RowMapperClaims.

(** ** The monad *)

Section MonadFacts.

Lemma bind_Ok {A B} (c : M A) (k : A -> M B) w a w' :
  c w = (Ok a, w') → (c ≫= k) w = k a w'.
Proof. intros Hc. unfold mbind, M_bind, bind. by rewrite Hc. Qed.

Lemma bind_Thrown {A B} (c : M A) (k : A -> M B) w msg w' :
  c w = (Thrown msg, w') → (c ≫= k) w = (Thrown msg, w').
Proof. intros Hc. unfold mbind, M_bind, bind. by rewrite Hc. Qed.

Lemma with_branches_nil m w : with_branches [] m w = m w.
Proof.
  unfold with_branches. destruct (m w) as [[rep|msg] w']; [|done].
  by destruct rep.
Qed.

Lemma with_branches_app bs1 bs2 m w :
  with_branches bs1 (with_branches bs2 m) w = with_branches (bs1 ++ bs2) m w.
Proof.
  unfold with_branches. destruct (m w) as [[rep|msg] w']; [|done].
  simpl. by rewrite app_assoc.
Qed.

Lemma with_branches_app_eq bs1 bs2 m w :
  match with_branches bs2 m w with
  | (Ok rep, w') =>
      (Ok {| final := final rep; isComplete := isComplete rep;
             branches := bs1 ++ branches rep |}, w')
  | (Thrown msg, w') => (Thrown msg, w')
  end = with_branches (bs1 ++ bs2) m w.
Proof. apply with_branches_app. Qed.

End MonadFacts.

(** ** The parse loop *)

Section ParseFacts.
Context `{Externals}.

Lemma papa_parse_nil stepf st w :
  papa_parse stepf [] st w
  = (Ok {| final := st; isComplete := true; branches := [] |}, w).
Proof. reflexivity. Qed.

Lemma papa_parse_cons stepf row rest st w b st' w' :
  stepf row st w = (Ok (b, st'), w') →
  papa_parse stepf (row :: rest) st w
  = match b with
    | Aborted =>
        (Ok {| final := st'; isComplete := complete (currentRow st') (DataRow row);
               branches := [Aborted] |}, w')
    | _ => with_branches [b] (papa_parse stepf rest st') w'
    end.
Proof.
  intros Hstep. simpl. erewrite bind_Ok by exact Hstep. simpl.
  unfold with_branches.
  destruct b; try reflexivity;
    unfold mbind, M_bind, bind;
    destruct (papa_parse stepf rest st' w') as [[rep|msg] w'']; reflexivity.
Qed.

Lemma step_skip c mp k row st w :
  currentRow st < c →
  step c mp k row st w = (Ok (Skipped, advance 1 st), w).
Proof.
  intros Hlt. unfold step, advance.
  destruct (Nat.ltb_spec (currentRow st) c); [|lia].
  by rewrite Nat.add_1_r.
Qed.

Lemma step_abort c mp k row st w :
  c + MAX_ROWS_PER_EXECUTION ≤ currentRow st →
  step c mp k row st w = (Ok (Aborted, st), w).
Proof.
  intros Hge. unfold step.
  destruct (Nat.ltb_spec (currentRow st) c); [lia|].
  destruct (Nat.leb_spec MAX_ROWS_PER_EXECUTION (currentRow st - c)); [|lia].
  reflexivity.
Qed.

Lemma step_map c mp k row st w :
  c ≤ currentRow st → currentRow st < c + MAX_ROWS_PER_EXECUTION →
  step c mp k row st w
  = (Ok (Mapped, accept mp [row] st),
     persist_cursor (k +:+ ":cursor") (currentRow st) 1 w).
Proof.
  intros Hge Hlt. unfold step, accept.
  destruct (Nat.ltb_spec (currentRow st) c); [lia|].
  destruct (Nat.leb_spec MAX_ROWS_PER_EXECUTION (currentRow st - c)); [lia|].
  simpl. by rewrite Nat.add_1_r.
Qed.

Lemma persist_cursor_S k from count w :
  persist_cursor k from (S count) w
  = persist_cursor k (S from) count (persist_cursor k from 1 w).
Proof. reflexivity. Qed.

Lemma papa_parse_abort c mp k row rest st w :
  c + MAX_ROWS_PER_EXECUTION ≤ currentRow st →
  papa_parse (step c mp k) (row :: rest) st w
  = (Ok {| final := st; isComplete := complete (currentRow st) (DataRow row);
           branches := [Aborted] |}, w).
Proof.
  intros Hge. by rewrite (papa_parse_cons _ _ _ _ _ _ _ _ (step_abort _ _ _ _ _ _ Hge)).
Qed.

Lemma papa_parse_skip c mp k rows1 rows2 st w :
  currentRow st + length rows1 ≤ c →
  papa_parse (step c mp k) (rows1 ++ rows2) st w
  = with_branches (replicate (length rows1) Skipped)
      (papa_parse (step c mp k) rows2 (advance (length rows1) st)) w.
Proof.
  revert st. induction rows1 as [|row rows1 IH]; intros st Hle.
  - simpl. rewrite with_branches_nil. unfold advance.
    rewrite Nat.add_0_r. by destruct st.
  - simpl in Hle. simpl app.
    rewrite (papa_parse_cons _ _ _ _ _ Skipped (advance 1 st) w)
      by (apply step_skip; lia).
    unfold with_branches at 1. rewrite IH by (simpl; lia).
    change (replicate (length (row :: rows1)) Skipped)
      with ([Skipped] ++ replicate (length rows1) Skipped).
    rewrite <- with_branches_app. unfold with_branches at 3.
    replace (advance (length rows1) (advance 1 st))
      with (advance (length (row :: rows1)) st); [done|].
    unfold advance. simpl. f_equal. lia.
Qed.

Lemma papa_parse_map c mp k rows1 rows2 st w :
  c ≤ currentRow st →
  currentRow st + length rows1 ≤ c + MAX_ROWS_PER_EXECUTION →
  papa_parse (step c mp k) (rows1 ++ rows2) st w
  = with_branches (replicate (length rows1) Mapped)
      (papa_parse (step c mp k) rows2 (accept mp rows1 st))
      (persist_cursor (k +:+ ":cursor") (currentRow st) (length rows1) w).
Proof.
  revert st w. induction rows1 as [|row rows1 IH]; intros st w Hge Hle.
  - simpl. rewrite with_branches_nil. unfold accept. simpl.
    rewrite Nat.add_0_r, app_nil_r. by destruct st.
  - simpl in Hle. simpl app.
    rewrite (papa_parse_cons _ _ _ _ _ Mapped (accept mp [row] st)
               (persist_cursor (k +:+ ":cursor") (currentRow st) 1 w))
      by (apply step_map; lia).
    unfold with_branches at 1. rewrite IH by (simpl; lia).
    change (replicate (length (row :: rows1)) Mapped)
      with ([Mapped] ++ replicate (length rows1) Mapped).
    rewrite <- with_branches_app. unfold with_branches at 3.
    replace (accept mp rows1 (accept mp [row] st))
      with (accept mp (row :: rows1) st).
    2:{ unfold accept. simpl. rewrite <- app_assoc. f_equal. lia. }
    simpl length. rewrite persist_cursor_S.
    replace (currentRow (accept mp [row] st)) with (S (currentRow st))
      by (simpl; lia).
    done.
Qed.

(** A stream made of rows before the cursor, a batch within the budget
    and whatever follows. *)
Lemma papa_parse_three c mp k pre batch more w :
  length pre ≤ c →
  (length pre < c → batch = [] ∧ more = []) →
  length batch ≤ MAX_ROWS_PER_EXECUTION →
  (length batch < MAX_ROWS_PER_EXECUTION → more = []) →
  papa_parse (step c mp k) (pre ++ batch ++ more)
    {| currentRow := 0; mappedLinks := [] |} w
  = (Ok {| final := {| currentRow := length pre + length batch;
                       mappedLinks := map (fun r => mapCsvRowToLink r mp) batch |};
           isComplete := match more with
                         | [] => true
                         | row :: _ => complete (length pre + length batch) (DataRow row)
                         end;
           branches := replicate (length pre) Skipped
                       ++ replicate (length batch) Mapped
                       ++ match more with [] => [] | _ => [Aborted] end |},
     persist_cursor (k +:+ ":cursor") c (length batch) w).
Proof.
  intros Hpre Hshort Hbatch Hfull.
  rewrite papa_parse_skip by (simpl; lia).
  unfold with_branches at 1.
  destruct (decide (length pre < c)) as [Hlt|Hge].
  - destruct (Hshort Hlt) as [-> ->]. simpl app.
    rewrite papa_parse_nil. simpl. by rewrite Nat.add_0_r.
  - rewrite papa_parse_map by (simpl; lia).
    unfold with_branches at 1. simpl currentRow.
    replace (length pre) with c by lia.
    destruct more as [|row more'].
    + rewrite papa_parse_nil. reflexivity.
    + rewrite papa_parse_abort; [reflexivity|].
      simpl. destruct (decide (length batch < MAX_ROWS_PER_EXECUTION)) as [Hb|Hb].
      * by specialize (Hfull Hb).
      * lia.
Qed.

(** What one invocation's parse does, in closed form. *)
Lemma parse_file_spec p c rows w :
  ∃ rep,
    parse_file p c rows w
    = (Ok rep,
       persist_cursor (cursorKey p) c
         (length (take MAX_ROWS_PER_EXECUTION (drop c rows))) w)
    ∧ currentRow (final rep) = length rows `min` (c + MAX_ROWS_PER_EXECUTION)
    ∧ mappedLinks (final rep)
      = map (fun r => mapCsvRowToLink r (mapping p))
          (take MAX_ROWS_PER_EXECUTION (drop c rows))
    ∧ isComplete rep = completes_at c rows
    ∧ branches rep
      = replicate (c `min` length rows) Skipped
        ++ replicate (length (take MAX_ROWS_PER_EXECUTION (drop c rows))) Mapped
        ++ (if bool_decide (length rows ≤ c + MAX_ROWS_PER_EXECUTION)
            then [] else [Aborted]).
Proof.
  set (batch := take MAX_ROWS_PER_EXECUTION (drop c rows)).
  set (more := drop MAX_ROWS_PER_EXECUTION (drop c rows)).
  assert (Hb : length batch = (length rows - c) `min` MAX_ROWS_PER_EXECUTION)
    by (unfold batch; rewrite length_take, length_drop; lia).
  assert (Hm : length more = length rows - c - MAX_ROWS_PER_EXECUTION)
    by (unfold more; rewrite !length_drop; lia).
  assert (Hp : length (take c rows) = c `min` length rows)
    by apply length_take.
  pose proof (papa_parse_three c (mapping p) (redisKeyOf p)
                (take c rows) batch more w) as Hrun.
  assert (Hsplit : take c rows ++ batch ++ more = rows)
    by (unfold batch, more; by rewrite !take_drop).
  rewrite Hsplit in Hrun. unfold parse_file, cursorKey.
  rewrite Hrun.
  - eexists. split; [reflexivity|]. simpl. rewrite Hp.
    assert (Hcase : more = [] ↔ length rows ≤ c + MAX_ROWS_PER_EXECUTION).
    { split; intros Hx.
      - rewrite Hx in Hm. simpl in Hm. lia.
      - apply length_zero_iff_nil. lia. }
    assert (Hnext : rows !! (c + MAX_ROWS_PER_EXECUTION) = more !! 0).
    { unfold more. rewrite !lookup_drop. f_equal; lia. }
    unfold completes_at. rewrite Hnext.
    destruct more as [|row more'].
    + rewrite bool_decide_true by (by apply Hcase). repeat split; try done. lia.
    + rewrite bool_decide_false by (intros Hx; by apply Hcase in Hx).
      simpl in Hm. repeat split; try done; [lia|].
      simpl. f_equal. lia.
  - lia.
  - rewrite Hp. intros Hlt. split; apply length_zero_iff_nil; lia.
  - lia.
  - intros Hlt. apply length_zero_iff_nil. lia.
Qed.

Lemma persist_cursor_log k from n w :
  log (persist_cursor k from n w) = log w ++ map (EvRedisSet k) (seq (S from) n).
Proof.
  revert from w. induction n as [|n IH]; intros from w.
  - simpl. by rewrite app_nil_r.
  - rewrite persist_cursor_S, IH. simpl. by rewrite <- app_assoc.
Qed.

Lemma persist_cursor_redis k from n w :
  redis (persist_cursor k from n w)
  = match n with
    | 0 => redis w
    | S _ => <[k := RInt (from + n)]> (redis w)
    end.
Proof.
  revert from w. induction n as [|n IH]; intros from w; [done|].
  rewrite persist_cursor_S, IH. destruct n as [|n].
  - simpl. by rewrite Nat.add_1_r.
  - simpl. rewrite insert_insert_eq. do 2 f_equal. lia.
Qed.

Lemma persist_cursor_others k from n w :
  files (persist_cursor k from n w) = files w
  ∧ queue (persist_cursor k from n w) = queue w
  ∧ projectTable (persist_cursor k from n w) = projectTable w
  ∧ linkTable (persist_cursor k from n w) = linkTable w
  ∧ tagTable (persist_cursor k from n w) = tagTable w
  ∧ domainTable (persist_cursor k from n w) = domainTable w.
Proof.
  revert from w. induction n as [|n IH]; intros from w; [done|].
  rewrite persist_cursor_S. destruct (IH (S from) (persist_cursor k from 1 w))
    as (-> & -> & -> & -> & -> & ->). done.
Qed.

Lemma cursor_writes_app k evs1 evs2 :
  cursor_writes k (evs1 ++ evs2) = cursor_writes k evs1 ++ cursor_writes k evs2.
Proof. apply omap_app. Qed.

Lemma cursor_writes_sets k vs : cursor_writes k (map (EvRedisSet k) vs) = vs.
Proof.
  induction vs as [|v vs IH]; [done|].
  simpl. rewrite String.eqb_refl. simpl. by rewrite IH.
Qed.

(** The rest of the stream is parsed from a state in which the row just
    mapped is already counted and persisted. *)
Lemma parse_file_after_mapped p c pre r post w :
  c ≤ length pre → length pre < c + MAX_ROWS_PER_EXECUTION →
  parse_file p c (pre ++ r :: post) w
  = with_branches
      (replicate c Skipped ++ replicate (length pre - c + 1) Mapped)
      (papa_parse (step c (mapping p) (redisKeyOf p)) post
         {| currentRow := S (length pre);
            mappedLinks := map (fun x => mapCsvRowToLink x (mapping p))
                             (drop c pre ++ [r]) |})
      (persist_cursor (cursorKey p) c (length pre - c + 1) w).
Proof.
  intros Hge Hlt. unfold parse_file, cursorKey.
  replace (pre ++ r :: post) with (take c pre ++ (drop c pre ++ [r]) ++ post).
  2:{ rewrite <- (take_drop c pre) at 3. by rewrite <- !app_assoc. }
  assert (Htake : length (take c pre) = c) by (rewrite length_take; lia).
  assert (Hdrop : length (drop c pre ++ [r]) = length pre - c + 1)
    by (rewrite length_app, length_drop; simpl; lia).
  rewrite papa_parse_skip by (simpl; lia).
  unfold with_branches at 1.
  rewrite papa_parse_map by (simpl; lia).
  rewrite with_branches_app_eq. simpl currentRow.
  rewrite Htake. unfold accept. simpl currentRow. simpl mappedLinks.
  rewrite ?Htake, !Hdrop.
  replace (c + (length pre - c + 1)) with (S (length pre)) by lia.
  reflexivity.
Qed.

End ParseFacts.

(** ** The link materializer *)

Section MaterializerFacts.
Context `{Externals}.

Lemma prefix_frame_refl p w : prefix_frame p w w.
Proof.
  repeat split; try done. exists []. by rewrite app_nil_r.
Qed.

Lemma prefix_frame_trans p w1 w2 w3 :
  prefix_frame p w1 w2 → prefix_frame p w2 w3 → prefix_frame p w1 w3.
Proof.
  intros (Hf1 & Hq1 & Hp1 & Hl1 & Hr1 & evs1 & He1 & Hs1)
         (Hf2 & Hq2 & Hp2 & Hl2 & Hr2 & evs2 & He2 & Hs2).
  repeat split; try congruence.
  - intros k Hk. rewrite Hr2, Hr1; done.
  - exists (evs1 ++ evs2). split.
    + by rewrite He2, He1, app_assoc.
    + by apply Forall_app.
Qed.

Lemma prefix_frame_emit p e w :
  is_side_event e = true → prefix_frame p w (emit e w).
Proof.
  intros He. repeat split; try done. exists [e]. split; [done|].
  by constructor.
Qed.

Lemma for_each_emit p (f : string -> Event) (l : list string) w :
  (∀ d, is_side_event (f d) = true) →
  ∃ w', for_each (fun d => modify (emit (f d))) l w = (Ok tt, w')
        ∧ prefix_frame p w w'.
Proof.
  intros Hf. revert w. induction l as [|d l IH]; intros w.
  - exists w. split; [done|]. apply prefix_frame_refl.
  - simpl. destruct (IH (emit (f d) w)) as (w' & Hrun & Hfr).
    exists w'. split.
    + erewrite bind_Ok by reflexivity. exact Hrun.
    + eapply prefix_frame_trans; [|exact Hfr]. by apply prefix_frame_emit.
Qed.

Lemma process_tags_frame ml p w :
  ∃ w', process_tags ml p w = (Ok tt, w') ∧ prefix_frame p w w'.
Proof.
  unfold process_tags. erewrite bind_Ok by reflexivity.
  match goal with |- context [if ?b then _ else _] => destruct b end.
  - eexists. split; [reflexivity|].
    repeat split; try done. exists []. by rewrite app_nil_r.
  - exists w. split; [done|]. apply prefix_frame_refl.
Qed.

Lemma process_domains_frame ml p w :
  ∃ w', process_domains ml p w = (Ok tt, w') ∧ prefix_frame p w w'.
Proof.
  unfold process_domains. erewrite bind_Ok by reflexivity.
  set (newDomains := domainsNotInWorkspace _ _).
  assert (Hfirst : ∃ w1,
    (if 0 <? length newDomains
     then modify (upd_domainTable (createMany_skipDuplicates same_domain
            (map (fun slug => {| dom_projectId := workspaceId p; dom_slug := slug;
                                 dom_primary := false |}) newDomains))) ;;
          for_each (fun d => modify (emit (EvAddDomainToVercel d))) newDomains ;;
          for_each (fun d => modify (emit (EvCreateLink (workspaceId p) (userId p) d "_root")))
            newDomains
     else mret tt) w = (Ok tt, w1) ∧ prefix_frame p w w1).
  { destruct (0 <? length newDomains).
    - erewrite bind_Ok by reflexivity.
      set (w0 := upd_domainTable _ w).
      destruct (for_each_emit p EvAddDomainToVercel newDomains w0) as (wa & Ha & Hfa);
        [done|].
      destruct (for_each_emit p (fun d => EvCreateLink (workspaceId p) (userId p) d "_root")
                  newDomains wa) as (wb & Hb & Hfb); [done|].
      exists wb. split.
      + erewrite bind_Ok by exact Ha. exact Hb.
      + eapply prefix_frame_trans; [|exact Hfb].
        eapply prefix_frame_trans; [|exact Hfa].
        repeat split; try done. exists []. by rewrite app_nil_r.
    - exists w. split; [done|]. apply prefix_frame_refl. }
  destruct Hfirst as (w1 & Hrun1 & Hfr1).
  erewrite bind_Ok by exact Hrun1.
  destruct (0 <? length (selectedDomains ml)).
  - eexists. split; [reflexivity|].
    eapply prefix_frame_trans; [exact Hfr1|].
    repeat split; try done.
    + intros k Hk. simpl. by rewrite lookup_insert_ne.
    + eexists [_]. split; [reflexivity|]. by constructor.
  - exists w1. split; [done|]. exact Hfr1.
Qed.

Lemma parse_bodies_run folder links w :
  parse_bodies folder links w
  = (match parsed_bodies folder links with
     | Some bs => Ok bs
     | None => Thrown "ZodError"
     end, w).
Proof.
  induction links as [|d rest IH]; [done|].
  simpl. destruct (createLinkBodySchema_parse (body_of folder d)); [|done].
  unfold mbind, M_bind, bind. rewrite IH.
  by destruct (parsed_bodies folder rest).
Qed.

Lemma parsed_bodies_total folder links :
  (∀ b, is_Some (createLinkBodySchema_parse b)) →
  ∃ bs, parsed_bodies folder links = Some bs ∧ length bs = length links.
Proof.
  intros Htot. induction links as [|d rest (bs & Hbs & Hlen)].
  - by exists [].
  - simpl. destruct (Htot (body_of folder d)) as [b ->]. rewrite Hbs.
    exists (b :: bs). simpl. by rewrite Hlen.
Qed.

Lemma parsed_bodies_length folder links bs :
  parsed_bodies folder links = Some bs → length bs = length links.
Proof.
  revert bs. induction links as [|d rest IH]; intros bs; simpl.
  - by intros [= <-].
  - destruct (createLinkBodySchema_parse _); [|done].
    destruct (parsed_bodies folder rest) as [bs'|]; [|done].
    intros [= <-]. simpl. by rewrite (IH bs').
Qed.

Lemma ltb_length_false {A} (l : list A) : (0 <? length l) = false → l = [].
Proof. destruct l; [done|]. simpl. discriminate. Qed.

Lemma job_keys_distinct rk :
  rk +:+ ":created" ≠ rk +:+ ":cursor"
  ∧ rk +:+ ":failed" ≠ rk +:+ ":cursor"
  ∧ rk +:+ ":domains" ≠ rk +:+ ":cursor"
  ∧ rk +:+ ":created" ≠ rk +:+ ":failed"
  ∧ rk +:+ ":domains" ≠ rk +:+ ":failed"
  ∧ rk +:+ ":domains" ≠ rk +:+ ":created".
Proof.
  repeat split; intros Heq; by apply append_inj_l in Heq.
Qed.

Lemma valid_error_partition processed :
  length (validLinks processed) + length (errorLinks processed) = length processed.
Proof.
  unfold validLinks, errorLinks. rewrite length_map.
  induction processed as [|r rest IH]; [done|].
  unfold omap in *. simpl. destruct (pr_error r); simpl; lia.
Qed.

(** The effect of the tail of the link phase. *)
Lemma record_results_run p processed w :
  ∃ w',
    record_results p processed w = (Ok tt, w')
    ∧ files w' = files w ∧ queue w' = queue w
    ∧ projectTable w' = projectTable w
    ∧ linkTable w' = (if 0 <? length (validLinks processed)
                      then bulkCreateLinks (validLinks processed) (linkTable w)
                      else linkTable w)
    ∧ failedRows p w' = failedRows p w ++ errorLinks processed
    ∧ createdCount p w' = createdCount p w + length (validLinks processed)
    ∧ redis w' !! cursorKey p = redis w !! cursorKey p
    ∧ log w' = log w ++ record_events p processed.
Proof.
  destruct (job_keys_distinct (redisKeyOf p)) as (Hcc & Hfc & _ & Hcf & _).
  unfold record_results, record_events, failedRows, createdCount, cursorKey.
  destruct (0 <? length (validLinks processed)) eqn:Hv;
    destruct (0 <? length (errorLinks processed)) eqn:He;
    (eexists; split; [reflexivity|]); simpl;
    rewrite ?lookup_insert_eq, ?(lookup_insert_ne _ _ _ _ Hcc),
      ?(lookup_insert_ne _ _ _ _ Hfc), ?(lookup_insert_ne _ _ _ _ Hcf),
      ?(lookup_insert_ne _ _ _ _ (not_eq_sym Hcf)), ?lookup_insert_eq;
    rewrite ?(ltb_length_false _ He), ?(ltb_length_false _ Hv);
    simpl; rewrite ?app_nil_r, ?Nat.add_0_r, <- ?app_assoc;
    repeat split; try done.
  by rewrite lookup_insert_ne.
Qed.

(** Every batch with at least one row reaches the link phase, in a world
    that differs from the initial one by the tag and domain phases
    only. *)
Lemma processMappedLinks_prefix ml p w :
  ml ≠ [] →
  ∃ w1, prefix_frame p w w1
        ∧ processMappedLinks ml p w = process_links ml p w1.
Proof.
  intros Hne. unfold processMappedLinks.
  destruct ml as [|r ml']; [done|].
  change (length (r :: ml') =? 0) with false. cbv iota.
  set (ml := r :: ml').
  erewrite bind_Ok by reflexivity.
  set (w0 := emit _ w).
  destruct (process_tags_frame ml p w0) as (wt & Ht & Hft).
  destruct (process_domains_frame ml p wt) as (wd & Hd & Hfd).
  exists wd. split.
  - eapply prefix_frame_trans; [|exact Hfd].
    eapply prefix_frame_trans; [|exact Hft].
    by apply prefix_frame_emit.
  - erewrite bind_Ok by exact Ht. erewrite bind_Ok by exact Hd. reflexivity.
Qed.

(** The link phase, case by case. *)
Lemma process_links_run ml p w :
  process_links ml p w
  = let ws := workspaceId p in
    let w2 := emit (EvConsoleLog
                (LogExistingLinks (existingLinks ws (candidates ml) (linkTable w)))) w in
    match List.find (fun pr => String.eqb (proj_id pr) ws) (projectTable w) with
    | None => (Thrown "No Project found", w2)
    | Some pr =>
        match parsed_bodies (folderId p) (linksToCreate ws (linkTable w) ml) with
        | None => (Thrown "ZodError", w2)
        | Some bodies =>
            record_results p (process_all ws (proj_plan pr) (userId p) bodies) w2
        end
    end.
Proof.
  unfold process_links.
  erewrite bind_Ok by reflexivity.
  erewrite bind_Ok by reflexivity.
  unfold findProjectOrThrow.
  cbv zeta. simpl projectTable.
  destruct (List.find _ (projectTable w)) as [pr|] eqn:Hfind.
  - erewrite bind_Ok; cycle 1.
    { erewrite bind_Ok by reflexivity. simpl. rewrite Hfind. reflexivity. }
    destruct (parsed_bodies _ _) as [bodies|] eqn:Hb.
    + erewrite bind_Ok; [reflexivity|]. by rewrite parse_bodies_run, Hb.
    + erewrite bind_Thrown; [reflexivity|]. by rewrite parse_bodies_run, Hb.
  - erewrite bind_Thrown; [reflexivity|].
    erewrite bind_Ok by reflexivity. simpl. by rewrite Hfind.
Qed.

Lemma cursor_writes_side k evs :
  Forall (fun e => is_side_event e = true) evs → cursor_writes k evs = [].
Proof.
  induction 1 as [|e evs He _ IH]; [done|].
  change (e :: evs) with ([e] ++ evs).
  rewrite cursor_writes_app, IH, app_nil_r. by destruct e.
Qed.

Lemma cursor_writes_record p processed k :
  cursor_writes k (record_events p processed) = [].
Proof.
  unfold record_events.
  destruct (0 <? length (validLinks processed));
    destruct (0 <? length (errorLinks processed)); reflexivity.
Qed.

(** Whatever its outcome, [processMappedLinks] leaves the file, the
    queue, the project table and the cursor key alone and writes no
    cursor value. *)
Lemma processMappedLinks_cursor_frame ml p w :
  let w' := snd (processMappedLinks ml p w) in
  files w' = files w ∧ queue w' = queue w
  ∧ projectTable w' = projectTable w
  ∧ redis w' !! cursorKey p = redis w !! cursorKey p
  ∧ ∃ evs, log w' = log w ++ evs ∧ cursor_writes (cursorKey p) evs = [].
Proof.
  destruct (job_keys_distinct (redisKeyOf p)) as (_ & _ & Hdc & _).
  destruct ml as [|r ml'].
  { simpl. repeat split; try done. by eexists [_]. }
  destruct (processMappedLinks_prefix (r :: ml') p w)
    as (w1 & (Hf & Hq & Hp & Hl & Hr & evs & Hlog & Hside) & ->); [done|].
  rewrite process_links_run. cbv zeta.
  set (w2 := emit _ w1).
  assert (Hw2 : files w2 = files w ∧ queue w2 = queue w
                ∧ projectTable w2 = projectTable w
                ∧ redis w2 !! cursorKey p = redis w !! cursorKey p
                ∧ ∃ evs', log w2 = log w ++ evs'
                          ∧ cursor_writes (cursorKey p) evs' = []).
  { repeat split; try done.
    - simpl. apply Hr. by apply not_eq_sym.
    - eexists (evs ++ [_]). split.
      + simpl. rewrite Hlog, <- app_assoc. reflexivity.
      + rewrite cursor_writes_app, cursor_writes_side by done. reflexivity. }
  destruct (List.find _ (projectTable w1)) as [pr|]; [|exact Hw2].
  destruct (parsed_bodies _ _) as [bodies|]; [|exact Hw2].
  destruct (record_results_run p
              (process_all (workspaceId p) (proj_plan pr) (userId p) bodies) w2)
    as (w3 & -> & Hf3 & Hq3 & Hp3 & _ & _ & _ & Hc3 & Hlog3).
  destruct Hw2 as (Hf2 & Hq2 & Hp2 & Hc2 & evs2 & Hlog2 & Hcw2).
  simpl. repeat split; try congruence.
  eexists (evs2 ++ _). split.
  - rewrite Hlog3, Hlog2, <- app_assoc. reflexivity.
  - by rewrite cursor_writes_app, Hcw2, cursor_writes_record.
Qed.

(** A batch whose workspace exists and whose surviving candidates all
    pass the schema is processed to the end. *)
Lemma processMappedLinks_Ok ml p w pr bodies :
  ml ≠ [] →
  List.find (fun x => String.eqb (proj_id x) (workspaceId p)) (projectTable w) = Some pr →
  parsed_bodies (folderId p) (linksToCreate (workspaceId p) (linkTable w) ml) = Some bodies →
  let processed := process_all (workspaceId p) (proj_plan pr) (userId p) bodies in
  ∃ w',
    processMappedLinks ml p w = (Ok tt, w')
    ∧ linkTable w' = (if 0 <? length (validLinks processed)
                      then bulkCreateLinks (validLinks processed) (linkTable w)
                      else linkTable w)
    ∧ failedRows p w' = failedRows p w ++ errorLinks processed
    ∧ createdCount p w' = createdCount p w + length (validLinks processed)
    ∧ ∃ evs, log w' = log w ++ evs ++ record_events p processed
             ∧ Forall (fun e => is_side_event e = true) evs.
Proof.
  intros Hne Hfind Hbodies processed.
  destruct (job_keys_distinct (redisKeyOf p)) as (_ & _ & _ & _ & Hdf & Hdcr).
  destruct (processMappedLinks_prefix ml p w Hne)
    as (w1 & (Hf & Hq & Hp & Hl & Hr & evs & Hlog & Hside) & ->).
  rewrite process_links_run. cbv zeta.
  rewrite Hp, Hl, Hfind, Hbodies. fold processed.
  set (w2 := emit _ w1).
  destruct (record_results_run p processed w2)
    as (w3 & -> & _ & _ & _ & Hl3 & Hfail3 & Hcr3 & _ & Hlog3).
  exists w3. split; [done|]. repeat split.
  - rewrite Hl3. simpl. by rewrite Hl.
  - rewrite Hfail3. unfold failedRows. simpl.
    rewrite Hr by (by apply not_eq_sym). done.
  - rewrite Hcr3. unfold createdCount. simpl.
    rewrite Hr by (by apply not_eq_sym). done.
  - eexists (evs ++ [_]). split.
    + rewrite Hlog3. simpl. rewrite Hlog, <- !app_assoc. reflexivity.
    + apply Forall_app. split; [done|]. by constructor.
Qed.

(** With the workspace on record and a schema that accepts every body,
    the invocation of [processMappedLinks] runs to the end. *)
Lemma processMappedLinks_total ml p w pr :
  List.find (fun x => String.eqb (proj_id x) (workspaceId p)) (projectTable w) = Some pr →
  (∀ b, is_Some (createLinkBodySchema_parse b)) →
  ∃ w' bodies,
    processMappedLinks ml p w = (Ok tt, w')
    ∧ parsed_bodies (folderId p)
        (linksToCreate (workspaceId p) (linkTable w) ml) = Some bodies
    ∧ failedRows p w'
      = failedRows p w
        ++ errorLinks (process_all (workspaceId p) (proj_plan pr) (userId p) bodies)
    ∧ createdCount p w'
      = createdCount p w
        + length (validLinks (process_all (workspaceId p) (proj_plan pr) (userId p) bodies)).
Proof.
  intros Hfind Htotal.
  destruct (parsed_bodies_total (folderId p)
              (linksToCreate (workspaceId p) (linkTable w) ml) Htotal)
    as (bodies & Hbodies & Hlen).
  destruct ml as [|r ml'] eqn:Eml.
  - exists (emit (EvConsoleLog LogNoLinks) w), bodies.
    simpl in Hbodies. injection Hbodies as <-.
    repeat split; try done.
    unfold failedRows. simpl. by rewrite app_nil_r.
  - rewrite <- Eml in *.
    destruct (processMappedLinks_Ok ml p w pr bodies)
      as (w' & Hrun & _ & Hfail & Hcreated & _); [by rewrite Eml|done|done|].
    by exists w', bodies.
Qed.

End MaterializerFacts.

(** ** The duplicate check *)

Section DedupFacts.
Context `{Externals}.

Lemma found_in_storage_iff ws cands table d :
  d ∈ cands →
  found_in_storage ws cands table d = true
  ↔ ∃ l, l ∈ table ∧ sl_projectId l = ws ∧ sl_shortLink l = shortLinkOf d.
Proof.
  intros Hd. unfold found_in_storage, existingLinks.
  rewrite existsb_exists. split.
  - intros (s & Hin & Heq). apply String.eqb_eq in Heq as ->.
    apply in_map_iff in Hin as (l & Hl & Hin).
    apply filter_In in Hin as (Hin & Hcond).
    apply andb_true_iff in Hcond as (Hws & _).
    apply String.eqb_eq in Hws.
    exists l. by rewrite list_elem_of_In.
  - intros (l & Hin & Hws & Hl). exists (sl_shortLink l). split.
    + apply in_map. apply filter_In. split; [by apply list_elem_of_In|].
      apply andb_true_iff. split; [by apply String.eqb_eq|].
      apply existsb_exists. exists (shortLinkOf d). split.
      * apply in_map. by apply list_elem_of_In.
      * by apply String.eqb_eq.
    + by apply String.eqb_eq.
Qed.

Lemma linksToCreate_filter ws table ml :
  linksToCreate ws table ml
  = List.filter (fun d => negb (found_in_storage ws (candidates ml) table d))
      (candidates ml).
Proof. reflexivity. Qed.

(** The survivors of the duplicate check are exactly the candidates with
    no stored link of the workspace under their canonical short link. *)
Lemma linksToCreate_iff ws table ml d :
  d ∈ linksToCreate ws table ml
  ↔ d ∈ candidates ml
    ∧ ∀ l, l ∈ table → sl_projectId l = ws → sl_shortLink l ≠ shortLinkOf d.
Proof.
  rewrite linksToCreate_filter, list_elem_of_In, filter_In, <- list_elem_of_In.
  split.
  - intros (Hd & Hkeep). split; [done|]. intros l Hl Hws Heq.
    apply negb_true_iff in Hkeep.
    assert (found_in_storage ws (candidates ml) table d = true) as Hfound
      by (apply found_in_storage_iff; eauto).
    congruence.
  - intros (Hd & Hfree). split; [done|]. apply negb_true_iff.
    destruct (found_in_storage ws (candidates ml) table d) eqn:Hfound; [|done].
    apply found_in_storage_iff in Hfound as (l & Hl & Hws & Heq); [|done].
    by destruct (Hfree l Hl Hws).
Qed.

Lemma candidates_success r d :
  success r = true → data r = Some d → candidates [r] = [d].
Proof.
  intros Hs Hd. unfold candidates, successfulMappings, is_successful_mapping,
    has_data. simpl. rewrite Hs, Hd. simpl. by rewrite Hd.
Qed.

Lemma parsed_bodies_app folder l1 l2 bs :
  parsed_bodies folder (l1 ++ l2) = Some bs →
  ∃ bs1 bs2, bs = bs1 ++ bs2
             ∧ parsed_bodies folder l1 = Some bs1
             ∧ parsed_bodies folder l2 = Some bs2.
Proof.
  revert bs. induction l1 as [|d l1 IH]; intros bs; simpl.
  - intros Hbs. by exists [], bs.
  - destruct (createLinkBodySchema_parse (body_of folder d)) as [b|]; [|done].
    destruct (parsed_bodies folder (l1 ++ l2)) as [bs'|]; [|done].
    intros [= <-]. destruct (IH bs' eq_refl) as (bs1 & bs2 & -> & -> & ->).
    by exists (b :: bs1), bs2.
Qed.

Lemma parsed_bodies_cons folder d l bs :
  parsed_bodies folder (d :: l) = Some bs →
  ∃ b bs', bs = b :: bs'
           ∧ createLinkBodySchema_parse (body_of folder d) = Some b
           ∧ parsed_bodies folder l = Some bs'.
Proof.
  simpl. destruct (createLinkBodySchema_parse (body_of folder d)) as [b|]; [|done].
  destruct (parsed_bodies folder l) as [bs'|]; [|done].
  intros [= <-]. by exists b, bs'.
Qed.

End DedupFacts.

(** ** Running the same batch again *)

Section RerunFacts.
Context `{Externals}.

Lemma parsed_bodies_Forall2 folder links bs :
  parsed_bodies folder links = Some bs
  ↔ Forall2 (fun d b => createLinkBodySchema_parse (body_of folder d) = Some b) links bs.
Proof.
  revert bs. induction links as [|d links IH]; intros bs; simpl.
  - split; [intros [= <-]; constructor | by inversion 1].
  - destruct (createLinkBodySchema_parse (body_of folder d)) as [b|] eqn:Hb.
    + destruct (parsed_bodies folder links) as [bs'|].
      * split.
        -- intros [= <-]. constructor; [done|]. by apply IH.
        -- inversion 1 as [|? b0 ? bs0 Hb0 Hrest]; subst.
           apply IH in Hrest. congruence.
      * split; [done|]. inversion 1 as [|? b0 ? bs0 Hb0 Hrest]; subst.
        by apply IH in Hrest.
    + split; [done|]. inversion 1; congruence.
Qed.

Lemma validLinks_none processed :
  Forall (fun r => pr_error r ≠ None) processed → validLinks processed = [].
Proof.
  induction 1 as [|r rest Hr _ IH]; [done|].
  unfold validLinks in *. simpl. by destruct (pr_error r).
Qed.

Lemma validLinks_elem processed r :
  r ∈ processed → pr_error r = None → pr_link r ∈ validLinks processed.
Proof.
  intros Hin Hr. unfold validLinks. apply list_elem_of_In, in_map, filter_In.
  split; [by apply list_elem_of_In|]. by rewrite Hr.
Qed.

(** The duplicate check against a larger table keeps fewer candidates. *)
Lemma linksToCreate_mono ws table extra ml d :
  d ∈ linksToCreate ws (table ++ extra) ml → d ∈ linksToCreate ws table ml.
Proof.
  rewrite !linksToCreate_iff. intros (Hd & Hfree). split; [done|].
  intros l Hl. apply Hfree. apply elem_of_app. by left.
Qed.

(** Under [faithful_storage], a second run of [processMappedLinks] over
    a batch that a first run processed to the end inserts nothing: the
    link table and the created counter stay as the first run left
    them. *)
Lemma rerun_creates_nothing ml p w0 w1 :
  faithful_storage →
  processMappedLinks ml p w0 = (Ok tt, w1) →
  ∃ w2, processMappedLinks ml p w1 = (Ok tt, w2)
        ∧ linkTable w2 = linkTable w1
        ∧ createdCount p w2 = createdCount p w1.
Proof.
  intros (Hbulk & Hkeep & Hschema) Hrun1.
  destruct ml as [|r0 ml'] eqn:Eml.
  { by eexists. }
  rewrite <- Eml in *. assert (Hne : ml ≠ []) by (by rewrite Eml).
  set (ws := workspaceId p).
  (* the first run *)
  destruct (processMappedLinks_prefix ml p w0 Hne)
    as (wa & (_ & _ & Hpa & Hla & _) & Hruna).
  rewrite Hruna, process_links_run in Hrun1. cbv zeta in Hrun1.
  rewrite Hpa, Hla in Hrun1. fold ws in Hrun1.
  destruct (List.find _ (projectTable w0)) as [pr|] eqn:Hfind; [|done].
  destruct (parsed_bodies (folderId p) (linksToCreate ws (linkTable w0) ml))
    as [bodies1|] eqn:Hb1; [|done].
  set (processed1 := process_all ws (proj_plan pr) (userId p) bodies1) in *.
  match type of Hrun1 with record_results _ _ ?w = _ => set (wb := w) in * end.
  destruct (record_results_run p processed1 wb)
    as (w1' & Hrec1 & _ & _ & Hp1 & Hl1 & _).
  rewrite Hrec1 in Hrun1. injection Hrun1 as ->.
  assert (Htable1 : linkTable w1 = linkTable w0 ++ map stored_link (validLinks processed1)).
  { rewrite Hl1. change (linkTable wb) with (linkTable wa). rewrite Hla.
    destruct (0 <? length (validLinks processed1)) eqn:Hv; [apply Hbulk|].
    by rewrite (ltb_length_false _ Hv), app_nil_r. }
  assert (Hproj1 : projectTable w1 = projectTable w0).
  { rewrite Hp1. change (projectTable wb) with (projectTable wa). done. }
  (* the second run *)
  set (L2 := linksToCreate ws (linkTable w1) ml).
  assert (Hsub : ∀ d, d ∈ L2 → d ∈ linksToCreate ws (linkTable w0) ml).
  { intros d. unfold L2. rewrite Htable1. apply linksToCreate_mono. }
  apply parsed_bodies_Forall2 in Hb1.
  assert (Hb2 : ∃ bodies2,
            Forall2 (fun d b => createLinkBodySchema_parse (body_of (folderId p) d) = Some b)
              L2 bodies2).
  { clearbody L2. induction L2 as [|d L2 IH]; [by exists []|].
    destruct IH as (bs & Hbs); [intros d' Hd'; apply Hsub; by right|].
    assert (Hd : d ∈ linksToCreate ws (linkTable w0) ml) by (apply Hsub; by left).
    apply list_elem_of_lookup in Hd as (i & Hi).
    destruct (Forall2_lookup_l _ _ _ _ _ Hb1 Hi) as (b & _ & Hb).
    exists (b :: bs). by constructor. }
  destruct Hb2 as (bodies2 & Hb2).
  set (processed2 := process_all ws (proj_plan pr) (userId p) bodies2).
  assert (Hnone : validLinks processed2 = []).
  { apply validLinks_none. unfold processed2, process_all.
    apply Forall_forall. intros r Hr.
    apply list_elem_of_In, in_map_iff in Hr as (b & <- & Hb).
    apply list_elem_of_In, list_elem_of_lookup in Hb as (i & Hi).
    destruct (Forall2_lookup_r _ _ _ _ _ Hb2 Hi) as (d & Hd & Hparse).
    apply list_elem_of_lookup_2 in Hd.
    intros Hacc.
    (* the same body was validated, and accepted, by the first run *)
    pose proof (Hsub d Hd) as Hd1.
    apply list_elem_of_lookup in Hd1 as (j & Hj).
    destruct (Forall2_lookup_l _ _ _ _ _ Hb1 Hj) as (b' & Hb' & Hparse').
    assert (b' = b) as -> by congruence.
    set (a := {| pa_payload := b; pa_workspace_id := ws;
                 pa_workspace_plan := proj_plan pr; pa_userId := userId p;
                 pa_bulk := true |}) in *.
    assert (Hin1 : pr_link (processLink a) ∈ validLinks processed1).
    { apply validLinks_elem; [|done]. unfold processed1, process_all.
      apply list_elem_of_In, in_map_iff. exists b. split; [done|].
      apply list_elem_of_In. by eapply list_elem_of_lookup_2. }
    destruct (Hkeep a Hacc) as (Hproj & Hdom & Hkey).
    destruct (Hschema _ _ Hparse) as (Hdom' & Hkey').
    unfold L2 in Hd. apply linksToCreate_iff in Hd as (_ & Hfree).
    apply (Hfree (stored_link (pr_link (processLink a)))).
    - rewrite Htable1. apply elem_of_app. right.
      apply list_elem_of_In, in_map. by apply list_elem_of_In.
    - done.
    - unfold stored_link, shortLinkOf. simpl.
      rewrite Hdom, Hkey. simpl. by rewrite Hdom', Hkey'. }
  apply parsed_bodies_Forall2 in Hb2.
  destruct (processMappedLinks_Ok ml p w1 pr bodies2 Hne)
    as (w2 & Hrun2 & Hl2 & _ & Hc2 & _); [by rewrite Hproj1|done|].
  fold ws processed2 in Hl2, Hc2. rewrite Hnone in Hl2, Hc2. simpl in Hl2, Hc2.
  exists w2. split; [done|]. split; [done|]. lia.
Qed.

End RerunFacts.

(** ** Invocations whose survivors pass the schema *)

Section AcceptanceFacts.
Context `{Externals}.

Lemma accepted_bodies folder links :
  (∀ d, d ∈ links → is_Some (createLinkBodySchema_parse (body_of folder d))) →
  ∃ bodies,
    Forall2 (fun d b => createLinkBodySchema_parse (body_of folder d) = Some b)
      links bodies.
Proof.
  induction links as [|d links IH]; intros Hall.
  - exists []. constructor.
  - destruct (Hall d) as [b Hb]; [apply elem_of_cons; by left|].
    destruct IH as [bs Hbs]; [intros d' Hd'; apply Hall, elem_of_cons; by right|].
    exists (b :: bs). by constructor.
Qed.

Lemma validLinks_app l1 l2 : validLinks (l1 ++ l2) = validLinks l1 ++ validLinks l2.
Proof. unfold validLinks. by rewrite List.filter_app, map_app. Qed.

Lemma validLinks_cons_valid r l :
  pr_error r = None → validLinks (r :: l) = pr_link r :: validLinks l.
Proof. intros Hr. unfold validLinks. simpl. by rewrite Hr. Qed.

Lemma validated_app p pr bs1 bs2 :
  validated p pr (bs1 ++ bs2) = validated p pr bs1 ++ validated p pr bs2.
Proof. apply map_app. Qed.

Lemma validated_length p pr bodies : length (validated p pr bodies) = length bodies.
Proof. apply length_map. Qed.

(** With the workspace on record and bodies for the survivors of the
    duplicate check, the invocation runs to the end: it hands the valid
    results to [bulkCreateLinks] in one call, counts them and lists the
    rejected ones. *)
Lemma processMappedLinks_accepted ml p w pr bodies :
  List.find (fun x => String.eqb (proj_id x) (workspaceId p)) (projectTable w) = Some pr →
  Forall2 (fun d b => createLinkBodySchema_parse (body_of (folderId p) d) = Some b)
    (linksToCreate (workspaceId p) (linkTable w) ml) bodies →
  ∃ w' evs,
    processMappedLinks ml p w = (Ok tt, w')
    ∧ linkTable w' = (if 0 <? length (validLinks (validated p pr bodies))
                      then bulkCreateLinks (validLinks (validated p pr bodies)) (linkTable w)
                      else linkTable w)
    ∧ failedRows p w' = failedRows p w ++ errorLinks (validated p pr bodies)
    ∧ createdCount p w'
      = createdCount p w + length (validLinks (validated p pr bodies))
    ∧ log w' = log w ++ evs
    ∧ ((0 <? length (validLinks (validated p pr bodies))) = true →
       EvBulkCreateLinks (validLinks (validated p pr bodies)) ∈ evs).
Proof.
  intros Hfind Hbodies.
  destruct ml as [|r ml'] eqn:Eml.
  - inversion Hbodies; subst.
    exists (emit (EvConsoleLog LogNoLinks) w), [EvConsoleLog LogNoLinks].
    split; [reflexivity|]. split; [reflexivity|].
    split; [symmetry; apply app_nil_r|]. split; [symmetry; apply Nat.add_0_r|].
    split; [reflexivity|]. simpl. discriminate.
  - rewrite <- Eml in *. apply parsed_bodies_Forall2 in Hbodies.
    destruct (processMappedLinks_Ok ml p w pr bodies)
      as (w' & Hrun & Hl & Hf & Hc & evs & Hlog & _);
      [by rewrite Eml|done|done|].
    exists w', (evs ++ record_events p (validated p pr bodies)).
    split; [done|]. split; [exact Hl|]. split; [exact Hf|]. split; [exact Hc|].
    split; [exact Hlog|].
    intros Hvalid. apply elem_of_app. right. unfold record_events.
    change (process_all (workspaceId p) (proj_plan pr) (userId p) bodies)
      with (validated p pr bodies).
    rewrite Hvalid. apply elem_of_app. left. apply elem_of_cons. by left.
Qed.

End AcceptanceFacts.

Section DedupClaims.
Context `{Externals}.

(** C1. In every invocation of [processMappedLinks] -- in particular a
    repeated one over rows already processed, run against the storage the
    earlier invocation left -- a candidate whose canonical short link is
    already stored for the workspace is not among the links handed to
    validation, and the only list ever handed to [bulkCreateLinks] is made
    of validated survivors of that check. When the bulk insert stores
    links under their canonical short link ([faithful_storage]), running
    the same batch again after a completed run inserts nothing. *)
Theorem C1_stored_short_links_excluded (ml : list MapperResult) :
  (∀ ws table d l,
     d ∈ candidates ml → l ∈ table → sl_projectId l = ws →
     sl_shortLink l = shortLinkOf d →
     d ∉ linksToCreate ws table ml)
  ∧ (∀ p w links,
       EvBulkCreateLinks links
         ∈ drop (length (log w)) (log (snd (processMappedLinks ml p w))) →
       ∃ pr bodies,
         List.find (fun x => String.eqb (proj_id x) (workspaceId p)) (projectTable w)
         = Some pr
         ∧ parsed_bodies (folderId p)
             (linksToCreate (workspaceId p) (linkTable w) ml) = Some bodies
         ∧ links = validLinks
                     (process_all (workspaceId p) (proj_plan pr) (userId p) bodies))
  ∧ (∀ p w0 d l,
       let w1 := snd (processMappedLinks ml p w0) in
       d ∈ linksToCreate (workspaceId p) (linkTable w1) ml →
       l ∈ linkTable w1 → sl_projectId l = workspaceId p →
       sl_shortLink l ≠ shortLinkOf d)
  ∧ (faithful_storage →
     ∀ p w0 w1,
       processMappedLinks ml p w0 = (Ok tt, w1) →
       ∃ w2, processMappedLinks ml p w1 = (Ok tt, w2)
             ∧ linkTable w2 = linkTable w1
             ∧ createdCount p w2 = createdCount p w1).
Proof.
  split; [|split; [|split]]; [| | |intros; by eapply rerun_creates_nothing].
  - intros ws table d l Hd Hl Hws Heq Hin.
    apply linksToCreate_iff in Hin as (_ & Hfree).
    by destruct (Hfree l Hl Hws).
  - intros p w links Hin.
    destruct ml as [|r ml'] eqn:Eml.
    { simpl in Hin. rewrite drop_app_length in Hin.
      apply list_elem_of_singleton in Hin. discriminate. }
    rewrite <- Eml in *.
    destruct (processMappedLinks_prefix ml p w)
      as (w1 & (_ & _ & Hp & Hl & _ & evs & Hlog & Hside) & Hrun);
      [by rewrite Eml|].
    rewrite Hrun, process_links_run in Hin. cbv zeta in Hin.
    rewrite Hl, Hp in Hin.
    assert (Hno : ∀ x, EvBulkCreateLinks links ∈ evs ++ [EvConsoleLog x] → False).
    { intros x Hx. apply elem_of_app in Hx as [Hx|Hx].
      - rewrite Forall_forall in Hside. by specialize (Hside _ Hx).
      - apply list_elem_of_singleton in Hx. discriminate. }
    destruct (List.find _ (projectTable w)) as [pr|] eqn:Hfind.
    2:{ simpl in Hin. rewrite Hlog, <- app_assoc, drop_app_length in Hin.
        by apply Hno in Hin. }
    destruct (parsed_bodies _ _) as [bodies|] eqn:Hb.
    2:{ simpl in Hin. rewrite Hlog, <- app_assoc, drop_app_length in Hin.
        by apply Hno in Hin. }
    exists pr, bodies. split; [done|]. split; [done|].
    set (processed := process_all _ _ _ bodies) in *.
    destruct (record_results_run p processed
                (emit (EvConsoleLog (LogExistingLinks
                   (existingLinks (workspaceId p) (candidates ml) (linkTable w)))) w1))
      as (w3 & Hrun3 & _ & _ & _ & _ & _ & _ & _ & Hlog3).
    rewrite Hrun3 in Hin. simpl in Hin.
    rewrite Hlog3 in Hin. simpl in Hin.
    rewrite Hlog, <- !app_assoc, drop_app_length in Hin.
    apply elem_of_app in Hin as [Hin|Hin].
    { rewrite Forall_forall in Hside. by specialize (Hside _ Hin). }
    apply elem_of_cons in Hin as [Hin|Hin]; [discriminate|].
    unfold record_events in Hin.
    destruct (0 <? length (validLinks processed));
      destruct (0 <? length (errorLinks processed)); simpl in Hin;
      repeat (apply elem_of_cons in Hin as [Hin|Hin];
              [by (discriminate || injection Hin as ->)|]);
      by apply elem_of_nil in Hin.
  - intros p w0 d l w1 Hd Hl Hws.
    apply linksToCreate_iff in Hd as (_ & Hfree). by apply Hfree.
Qed.

(** C10. The duplicate check keeps exactly the candidates with no stored
    link of the workspace under their canonical short link; it never
    compares candidates with each other. Two successful rows with the
    same domain and key, not in storage, both survive, in order. In an
    invocation whose workspace is on record and whose survivors pass the
    schema, [processMappedLinks] validates each of the two by a call of
    [processLink] of its own, counts each of them as created or as
    failed, and, when validation accepts both, hands both to
    [bulkCreateLinks] in the one list it inserts. *)
Theorem C10_no_dedup_within_batch (p : Payload) (w : World) (pr : Project)
    (ml1 ml2 ml3 : list MapperResult) (r1 r2 : MapperResult) (d1 d2 : LinkData)
    (bodies : list LinkBody) :
  success r1 = true → data r1 = Some d1 →
  success r2 = true → data r2 = Some d2 →
  domain d1 = domain d2 → key d1 = key d2 →
  (∀ l, l ∈ linkTable w → sl_projectId l = workspaceId p →
        sl_shortLink l ≠ shortLinkOf d1) →
  List.find (fun x => String.eqb (proj_id x) (workspaceId p)) (projectTable w) = Some pr →
  Forall2 (fun d b => createLinkBodySchema_parse (body_of (folderId p) d) = Some b)
    (linksToCreate (workspaceId p) (linkTable w) (ml1 ++ r1 :: ml2 ++ r2 :: ml3)) bodies →
  let ml := ml1 ++ r1 :: ml2 ++ r2 :: ml3 in
  let check := fun b => processLink {| pa_payload := b; pa_workspace_id := workspaceId p;
                                       pa_workspace_plan := proj_plan pr;
                                       pa_userId := userId p; pa_bulk := true |} in
  (∀ d, d ∈ linksToCreate (workspaceId p) (linkTable w) ml
        ↔ d ∈ candidates ml
          ∧ ∀ l, l ∈ linkTable w → sl_projectId l = workspaceId p →
                 sl_shortLink l ≠ shortLinkOf d)
  ∧ ∃ s1 s2 s3 bs1 b1 bs2 b2 bs3 w',
      linksToCreate (workspaceId p) (linkTable w) ml = s1 ++ d1 :: s2 ++ d2 :: s3
      ∧ bodies = bs1 ++ b1 :: bs2 ++ b2 :: bs3
      ∧ createLinkBodySchema_parse (body_of (folderId p) d1) = Some b1
      ∧ createLinkBodySchema_parse (body_of (folderId p) d2) = Some b2
      ∧ processMappedLinks ml p w = (Ok tt, w')
      ∧ failedRows p w'
        = failedRows p w
          ++ errorLinks (map check bs1 ++ check b1 :: map check bs2
                         ++ check b2 :: map check bs3)
      ∧ createdCount p w'
        = createdCount p w
          + length (validLinks (map check bs1 ++ check b1 :: map check bs2
                                ++ check b2 :: map check bs3))
      ∧ createdCount p w' + length (failedRows p w')
        = createdCount p w + length (failedRows p w)
          + (length s1 + length s2 + length s3 + 2)
      ∧ (pr_error (check b1) = None → pr_error (check b2) = None →
         ∃ v1 v2 v3,
           EvBulkCreateLinks (v1 ++ pr_link (check b1) :: v2 ++ pr_link (check b2) :: v3)
             ∈ drop (length (log w)) (log w')
           ∧ linkTable w'
             = bulkCreateLinks (v1 ++ pr_link (check b1) :: v2 ++ pr_link (check b2) :: v3)
                 (linkTable w)).
Proof.
  intros Hs1 Hd1 Hs2 Hd2 Hdom Hkey Hfree Hfind Hbodies ml check.
  set (ws := workspaceId p) in *. set (table := linkTable w) in *.
  assert (Hsplit : ∃ s1 s2 s3, linksToCreate ws table ml = s1 ++ d1 :: s2 ++ d2 :: s3).
  { assert (Hcands : candidates ml
              = candidates ml1 ++ d1 :: candidates ml2 ++ d2 :: candidates ml3).
    { unfold ml.
      change (r1 :: ml2 ++ r2 :: ml3) with ([r1] ++ ml2 ++ [r2] ++ ml3).
      rewrite !candidates_app.
      by rewrite (candidates_success r1 d1), (candidates_success r2 d2). }
    assert (Hkeep : ∀ d, d ∈ candidates ml → shortLinkOf d = shortLinkOf d1 →
              negb (found_in_storage ws (candidates ml) table d) = true).
    { intros d Hd Hsame. apply negb_true_iff.
      destruct (found_in_storage ws (candidates ml) table d) eqn:Hfound; [|done].
      apply found_in_storage_iff in Hfound as (l & Hl & Hws & Heq); [|done].
      rewrite Hsame in Heq. by destruct (Hfree l Hl Hws). }
    rewrite linksToCreate_filter.
    set (keep := fun d => negb (found_in_storage ws (candidates ml) table d)).
    rewrite Hcands.
    change (d1 :: candidates ml2 ++ d2 :: candidates ml3)
      with ([d1] ++ candidates ml2 ++ [d2] ++ candidates ml3).
    rewrite !List.filter_app. simpl.
    assert (keep d1 = true) as ->.
    { apply Hkeep; [|done]. rewrite Hcands. set_solver. }
    assert (keep d2 = true) as ->.
    { apply Hkeep.
      - rewrite Hcands. set_solver.
      - unfold shortLinkOf. by rewrite Hdom, Hkey. }
    by eexists _, _, _. }
  split; [intros d; apply linksToCreate_iff|].
  destruct Hsplit as (s1 & s2 & s3 & Hsplit).
  destruct (processMappedLinks_accepted ml p w pr bodies Hfind Hbodies)
    as (w' & evs & Hrun & Hl & Hf & Hc & Hlog & Hbulk).
  fold ml in Hbodies. pose proof (Forall2_length _ _ _ Hbodies) as Hlen.
  rewrite Hsplit in Hbodies.
  apply Forall2_app_inv_l in Hbodies as (bs1 & rest1 & Hbs1 & Hrest1 & ->).
  apply Forall2_cons_inv_l in Hrest1 as (b1 & rest2 & Hb1 & Hrest2 & ->).
  apply Forall2_app_inv_l in Hrest2 as (bs2 & rest3 & Hbs2 & Hrest3 & ->).
  apply Forall2_cons_inv_l in Hrest3 as (b2 & bs3 & Hb2 & Hbs3 & ->).
  assert (Hprocessed : validated p pr (bs1 ++ b1 :: bs2 ++ b2 :: bs3)
                       = map check bs1 ++ check b1 :: map check bs2
                         ++ check b2 :: map check bs3).
  { unfold validated. fold check. by rewrite !map_app, !map_cons, !map_app, !map_cons. }
  rewrite Hprocessed in Hl, Hf, Hc, Hbulk.
  set (processed := map check bs1 ++ check b1 :: map check bs2
                    ++ check b2 :: map check bs3) in *.
  exists s1, s2, s3, bs1, b1, bs2, b2, bs3, w'.
  split; [done|]. split; [done|]. split; [done|]. split; [done|].
  split; [done|]. split; [done|]. split; [done|]. split.
  - rewrite Hc, Hf, length_app.
    pose proof (valid_error_partition processed) as Hpart.
    assert (Hn : length processed = length s1 + length s2 + length s3 + 2).
    { rewrite <- Hprocessed, validated_length, <- Hlen, Hsplit.
      rewrite !length_app. simpl. rewrite !length_app. simpl. lia. }
    lia.
  - intros Hv1 Hv2.
    assert (Hvalid : validLinks processed
                     = validLinks (map check bs1) ++ pr_link (check b1)
                       :: validLinks (map check bs2) ++ pr_link (check b2)
                       :: validLinks (map check bs3)).
    { unfold processed.
      rewrite validLinks_app, (validLinks_cons_valid _ _ Hv1),
        validLinks_app, (validLinks_cons_valid _ _ Hv2). done. }
    assert (Hpos : (0 <? length (validLinks processed)) = true).
    { rewrite Hvalid, length_app. simpl. apply Nat.ltb_lt. lia. }
    exists (validLinks (map check bs1)), (validLinks (map check bs2)),
           (validLinks (map check bs3)).
    rewrite <- Hvalid. split.
    + rewrite Hlog, drop_app_length. by apply Hbulk.
    + by rewrite Hl, Hpos.
Qed.

End DedupClaims.

Section FailureClaims.
Context `{Externals}.



End FailureClaims.

(** ** The batch window and the cursor *)

Section WindowClaims.
Context `{Externals}.

Lemma branches_lookup a b (tail : list StepBranch) i x :
  (replicate a Skipped ++ replicate b Mapped ++ tail) !! i = Some x →
  (i < a ∧ x = Skipped)
  ∨ (a ≤ i < a + b ∧ x = Mapped)
  ∨ (a + b ≤ i ∧ tail !! (i - a - b) = Some x).
Proof.
  rewrite lookup_app_Some, length_replicate, lookup_replicate.
  intros [[-> Hi]|[Hge Hrest]]; [by left|].
  apply lookup_app_Some in Hrest.
  rewrite length_replicate, lookup_replicate in Hrest.
  destruct Hrest as [[-> Hi]|[Hge' Hrest]].
  - right; left. split; [lia|done].
  - right; right. split; [lia|]. by replace (i - a - b) with (i - a - b) by lia.
Qed.

(** C3. One invocation maps the rows [c], ..., [c + 24] of the stream (as
    far as they exist) and no others: the callback is entered once per
    delivered row; for a row before the cursor it only counts the row,
    for the next 25 it maps the row, and at the 26th it aborts the parse,
    so that no later row is delivered. *)
Theorem C3_window_of_25_rows_from_cursor (p : Payload) (c : nat)
    (rows : list Row) (w : World) :
  ∃ rep w',
    parse_file p c rows w = (Ok rep, w')
    ∧ mappedLinks (final rep)
      = map (fun r => mapCsvRowToLink r (mapping p))
          (take MAX_ROWS_PER_EXECUTION (drop c rows))
    ∧ length (mappedLinks (final rep)) ≤ MAX_ROWS_PER_EXECUTION
    ∧ length (branches rep) ≤ length rows
    ∧ (∀ i, i < c → i < length rows → branches rep !! i = Some Skipped)
    ∧ (∀ i, branches rep !! i = Some Mapped → c ≤ i < c + MAX_ROWS_PER_EXECUTION)
    ∧ (∀ i, c ≤ i < c + MAX_ROWS_PER_EXECUTION → i < length rows →
            branches rep !! i = Some Mapped)
    ∧ (∀ b, branches rep !! (c + MAX_ROWS_PER_EXECUTION) = Some b → b = Aborted)
    ∧ (∀ i, c + MAX_ROWS_PER_EXECUTION < i → branches rep !! i = None).
Proof.
  destruct (parse_file_spec p c rows w) as (rep & Hrun & _ & Hml & _ & Hbr).
  set (batch := take MAX_ROWS_PER_EXECUTION (drop c rows)) in *.
  assert (Hb : length batch = (length rows - c) `min` MAX_ROWS_PER_EXECUTION)
    by (unfold batch; rewrite length_take, length_drop; lia).
  set (tail := if bool_decide (length rows ≤ c + MAX_ROWS_PER_EXECUTION)
               then [] else [Aborted]) in *.
  assert (Htail : length tail = if bool_decide (length rows ≤ c + MAX_ROWS_PER_EXECUTION)
                                then 0 else 1)
    by (unfold tail; by case_bool_decide).
  assert (Hlen : length (branches rep)
                 = c `min` length rows + length batch + length tail)
    by (rewrite Hbr, !length_app, !length_replicate; lia).
  eexists rep, _. split; [exact Hrun|].
  split; [exact Hml|]. split; [rewrite Hml, length_map; lia|].
  split; [rewrite Hlen, Hb, Htail; case_bool_decide; lia|].
  split; [|split; [|split; [|split]]].
  - intros i Hic Hir. rewrite Hbr, lookup_app_l by (rewrite length_replicate; lia).
    apply lookup_replicate. split; [done|lia].
  - intros i Hi. rewrite Hbr in Hi.
    apply branches_lookup in Hi as [[_ ?]|[[Hi _]|[_ Hi]]]; [done|lia|].
    unfold tail in Hi. case_bool_decide; [by rewrite lookup_nil in Hi|].
    by apply list_lookup_singleton_Some in Hi as [_ ?].
  - intros i Hi Hir. rewrite Hbr.
    rewrite lookup_app_r by (rewrite length_replicate; lia).
    rewrite length_replicate.
    rewrite lookup_app_l by (rewrite length_replicate; lia).
    apply lookup_replicate. split; [done|lia].
  - intros b Hi. rewrite Hbr in Hi.
    apply branches_lookup in Hi as [[Hi _]|[[Hi _]|[_ Hi]]]; [lia|lia|].
    unfold tail in Hi. case_bool_decide; [by rewrite lookup_nil in Hi|].
    by apply list_lookup_singleton_Some in Hi as [_ ?].
  - intros i Hi. apply lookup_ge_None. rewrite Hlen, Hb, Htail.
    case_bool_decide; lia.
Qed.

End WindowClaims.

(** ** The route handler *)

Section RouteFacts.
Context `{Externals}.

Lemma finalize_run p w :
  ∃ w',
    finalize p w = (Ok tt, w')
    ∧ log w' = log w ++ finalize_events p w
    ∧ queue w' = queue w
    ∧ projectTable w' = projectTable w
    ∧ files w' = delete (file_url p) (files w)
    ∧ redis w' !! (redisKeyOf p +:+ ":cursor") = None
    ∧ redis w' !! (redisKeyOf p +:+ ":created") = None
    ∧ redis w' !! (redisKeyOf p +:+ ":failed") = None
    ∧ redis w' !! (redisKeyOf p +:+ ":domains") = None.
Proof.
  destruct (job_keys_distinct (redisKeyOf p)) as (Hcc & Hfc & Hdc & Hcf & Hdf & Hdcr).
  eexists. split.
  { unfold finalize. repeat (erewrite bind_Ok by reflexivity). reflexivity. }
  simpl. repeat split.
  - unfold finalize_events, createdCount, failedRows. rewrite <- !app_assoc.
    by destruct (redis w !! (redisKeyOf p +:+ ":created")) as [[]|].
  - rewrite !lookup_delete_ne by done. apply lookup_delete_eq.
  - rewrite !lookup_delete_ne by done. apply lookup_delete_eq.
  - rewrite lookup_delete_ne by done. apply lookup_delete_eq.
  - apply lookup_delete_eq.
Qed.

Lemma finalize_tables p w :
  linkTable (snd (finalize p w)) = linkTable w
  ∧ tagTable (snd (finalize p w)) = tagTable w
  ∧ domainTable (snd (finalize p w)) = domainTable w.
Proof.
  unfold finalize. repeat (erewrite bind_Ok by reflexivity). done.
Qed.

(** An invocation ends without [isComplete] only by aborting on a row
    that exists, and then by that row's [length] comparison. *)
Lemma completes_at_false c rows :
  completes_at c rows = false →
  ∃ row, rows !! (c + MAX_ROWS_PER_EXECUTION) = Some row
         ∧ complete (c + MAX_ROWS_PER_EXECUTION) (DataRow row) = false.
Proof.
  unfold completes_at. destruct (rows !! (c + MAX_ROWS_PER_EXECUTION)) as [row|]; [|done].
  intros Hrow. by exists row.
Qed.

Lemma completes_at_end c rows :
  length rows ≤ c + MAX_ROWS_PER_EXECUTION → completes_at c rows = true.
Proof.
  intros Hle. unfold completes_at. by rewrite lookup_ge_None_2.
Qed.

Lemma completes_at_row c rows row :
  rows !! (c + MAX_ROWS_PER_EXECUTION) = Some row →
  completes_at c rows = complete (c + MAX_ROWS_PER_EXECUTION) (DataRow row).
Proof. intros Hrow. unfold completes_at. by rewrite Hrow. Qed.

(** A row without a column headed [length] never completes a parse. *)
Lemma complete_no_length_cell n row :
  row_prop row "length" = None → complete n (DataRow row) = false.
Proof. intros Hrow. unfold complete, data_length. by rewrite Hrow. Qed.

(** The candidates of a batch are candidates of the file. *)
Lemma candidates_of_batch mp c n rows d :
  d ∈ candidates (map (fun r => mapCsvRowToLink r mp) (take n (drop c rows))) →
  d ∈ candidates (map (fun r => mapCsvRowToLink r mp) rows).
Proof.
  intros Hd.
  rewrite <- (take_drop c rows), <- (take_drop n (drop c rows)).
  rewrite !map_app, !candidates_app, !elem_of_app. right; by left.
Qed.

Lemma redis_get_cursor p w :
  ∃ stored, redis_get (redisKeyOf p +:+ ":cursor") w = (Ok stored, w)
            ∧ storedCursor p w = default 0 stored.
Proof.
  eexists. split; [reflexivity|]. unfold storedCursor, cursorKey.
  by destruct (redis w !! _) as [[]|].
Qed.

(** One invocation on an existing file, up to the outcome of
    [processMappedLinks]. *)
Lemma POST_try_run p w rows :
  id p ≠ "" → file_url p ≠ "" →
  files w !! file_url p = Some rows →
  POST_try p w
  = let c := storedCursor p w in
    let batch := batch_rows p w rows in
    let wp := persist_cursor (cursorKey p) c (length batch) w in
    match processMappedLinks (map (fun r => mapCsvRowToLink r (mapping p)) batch) p wp with
    | (Thrown msg, wq) => (Thrown msg, wq)
    | (Ok _, wq) =>
        let done := completes_at c rows in
        let wl := emit (EvConsoleLog (LogIsComplete done)) wq in
        if done then finalize p wl else qstash_publishJSON (continuation p) wl
    end.
Proof.
  intros Hid Hurl Hfile. unfold POST_try.
  apply truthy_true_iff in Hid as ->. apply truthy_true_iff in Hurl as ->.
  change (negb true || negb true) with false. cbv iota.
  destruct (redis_get_cursor p w) as (stored & Hget & Hstored).
  erewrite bind_Ok by exact Hget. rewrite <- Hstored.
  erewrite bind_Ok by (unfold storage_fetch, gets; rewrite Hfile; reflexivity).
  cbv zeta. unfold batch_rows.
  set (c := storedCursor p w).
  destruct (parse_file_spec p c rows w) as (rep & Hparse & Hcur & Hml & Hdone & _).
  erewrite bind_Ok by exact Hparse.
  rewrite Hml.
  destruct (processMappedLinks _ p _) as [[[]|msg] wq] eqn:Hpml.
  - erewrite bind_Ok by exact Hpml.
    erewrite bind_Ok by reflexivity.
    rewrite Hcur, Hdone.
    destruct (completes_at c rows) eqn:Hat; simpl.
    + by rewrite andb_false_r.
    + apply completes_at_false in Hat as (row & Hrow & _).
      apply lookup_lt_Some in Hrow.
      replace (length rows `min` (c + MAX_ROWS_PER_EXECUTION) - c)
        with MAX_ROWS_PER_EXECUTION by lia.
      reflexivity.
  - erewrite bind_Thrown by exact Hpml. reflexivity.
Qed.

(** One invocation on an existing file, for a workspace on record and a
    schema that accepts the bodies of the batch: it answers OK, has the
    batch processed, and either re-enqueues itself or finalizes. *)
Lemma POST_ok p w rows pr :
  id p ≠ "" → file_url p ≠ "" →
  files w !! file_url p = Some rows →
  List.find (fun x => String.eqb (proj_id x) (workspaceId p)) (projectTable w) = Some pr →
  (∀ d, d ∈ candidates (map (fun r => mapCsvRowToLink r (mapping p)) (batch_rows p w rows)) →
        is_Some (createLinkBodySchema_parse (body_of (folderId p) d))) →
  ∃ w' evs processed,
    POST p w = (ResponseOK, w')
    ∧ log w' = log w ++ evs
    ∧ cursor_writes (cursorKey p) evs
      = seq (S (storedCursor p w)) (length (batch_rows p w rows))
    ∧ projectTable w' = projectTable w
    ∧ EvConsoleLog (LogIsComplete (completes_at (storedCursor p w) rows)) ∈ evs
    ∧ batch_processed p pr (batch_rows p w rows) (linkTable w) (linkTable w') processed
    ∧ if completes_at (storedCursor p w) rows
      then queue w' = queue w
           ∧ files w' !! file_url p = None
           ∧ redis w' !! (redisKeyOf p +:+ ":cursor") = None
           ∧ redis w' !! (redisKeyOf p +:+ ":created") = None
           ∧ redis w' !! (redisKeyOf p +:+ ":failed") = None
           ∧ redis w' !! (redisKeyOf p +:+ ":domains") = None
           ∧ ∃ pre wl, evs = pre ++ finalize_events p wl
                       ∧ createdCount p wl
                         = createdCount p w + length (validLinks processed)
                       ∧ failedRows p wl = failedRows p w ++ errorLinks processed
      else queue w' = queue w ++ [continuation p]
           ∧ files w' = files w
           ∧ storedCursor p w' = storedCursor p w + MAX_ROWS_PER_EXECUTION
           ∧ createdCount p w' = createdCount p w + length (validLinks processed)
           ∧ failedRows p w' = failedRows p w ++ errorLinks processed.
Proof.
  intros Hid Hurl Hfile Hfind Haccept.
  destruct (job_keys_distinct (redisKeyOf p)) as (Hcc & Hfc & _).
  unfold POST. rewrite (POST_try_run p w rows Hid Hurl Hfile). cbv zeta.
  set (c := storedCursor p w). set (batch := batch_rows p w rows) in *.
  set (wp := persist_cursor (cursorKey p) c (length batch) w).
  set (ml := map _ batch) in *.
  destruct (persist_cursor_others (cursorKey p) c (length batch) w)
    as (Hfp & Hqp & Hpp & Hlp & _).
  fold wp in Hfp, Hqp, Hpp, Hlp.
  assert (Hcp : createdCount p wp = createdCount p w ∧ failedRows p wp = failedRows p w).
  { unfold createdCount, failedRows, wp. rewrite persist_cursor_redis.
    destruct (length batch); [done|]. unfold cursorKey.
    by rewrite !lookup_insert_ne by (by apply not_eq_sym). }
  destruct Hcp as (Hcp & Hfailp).
  pose proof (processMappedLinks_cursor_frame ml p wp) as Hframe. cbv zeta in Hframe.
  destruct (accepted_bodies (folderId p) (linksToCreate (workspaceId p) (linkTable wp) ml))
    as (bodies & Hbodies).
  { intros d Hd. apply Haccept. by apply linksToCreate_iff in Hd as (Hd & _). }
  destruct (processMappedLinks_accepted ml p wp pr bodies) as
    (wq & _ & Hrun & Hlq & Hfailq & Hcreatedq & _); [by rewrite Hpp|done|].
  rewrite Hlp in Hbodies, Hlq. rewrite Hcp in Hcreatedq. rewrite Hfailp in Hfailq.
  set (processed := validated p pr bodies) in *.
  assert (Hprocessed : batch_processed p pr batch (linkTable w) (linkTable wq) processed)
    by (by exists bodies).
  rewrite Hrun in Hframe |- *. simpl in Hframe.
  destruct Hframe as (Hfq & Hqq & Hpq & Hcq & evq & Hlogq & Hwq).
  assert (Hlogp : log wp = log w ++ map (EvRedisSet (cursorKey p)) (seq (S c) (length batch)))
    by apply persist_cursor_log.
  generalize (completes_at_false c rows).
  generalize (completes_at c rows).
  intros isdone Hdone.
  set (wl := emit (EvConsoleLog (LogIsComplete isdone)) wq).
  assert (Hlogl : log wl = log w ++ (map (EvRedisSet (cursorKey p)) (seq (S c) (length batch))
                                      ++ evq ++ [EvConsoleLog (LogIsComplete isdone)])).
  { simpl. rewrite Hlogq, Hlogp, <- !app_assoc. reflexivity. }
  assert (Hwl : cursor_writes (cursorKey p)
                  (map (EvRedisSet (cursorKey p)) (seq (S c) (length batch))
                   ++ evq ++ [EvConsoleLog (LogIsComplete isdone)])
                = seq (S c) (length batch)).
  { rewrite !cursor_writes_app, cursor_writes_sets, Hwq. apply app_nil_r. }
  assert (Hfl : files wl = files wq ∧ queue wl = queue wq
                ∧ projectTable wl = projectTable wq ∧ linkTable wl = linkTable wq) by done.
  destruct Hfl as (Hfl & Hql & Hpl & Hll).
  assert (Hredl : redis wl = redis wq) by done.
  assert (Hcl : createdCount p wl = createdCount p w + length (validLinks processed))
    by exact Hcreatedq.
  assert (Hfaill : failedRows p wl = failedRows p w ++ errorLinks processed)
    by exact Hfailq.
  set (evl := map (EvRedisSet (cursorKey p)) (seq (S c) (length batch))
              ++ evq ++ [EvConsoleLog (LogIsComplete isdone)]) in Hlogl, Hwl.
  assert (Hconsole : EvConsoleLog (LogIsComplete isdone) ∈ evl)
    by (unfold evl; rewrite !elem_of_app, list_elem_of_singleton; auto).
  clearbody evl wl.
  destruct isdone.
  - (* the parse ended with [isComplete]: finalize *)
    destruct (finalize_run p wl) as (wf & Hfin & Hlogf & Hqf & Hpf & Hff & Hk1 & Hk2 & Hk3 & Hk4).
    destruct (finalize_tables p wl) as (Hlf & _). rewrite Hfin in Hlf |- *. simpl in Hlf.
    exists wf, (evl ++ finalize_events p wl), processed.
    split; [reflexivity|]. split; [by rewrite Hlogf, Hlogl, app_assoc|].
    split; [by rewrite cursor_writes_app, Hwl, app_nil_r|].
    split; [congruence|].
    split; [apply elem_of_app; by left|].
    split; [by rewrite Hlf, Hll|].
    split; [congruence|]. split; [rewrite Hff; apply lookup_delete_eq|].
    repeat (split; [done|]).
    by exists evl, wl.
  - (* the parse was aborted without [isComplete]: publish the continuation *)
    destruct (Hdone eq_refl) as (row & Hrow & _). apply lookup_lt_Some in Hrow.
    exists (upd_queue (fun q => q ++ [continuation p])
              (emit (EvPublish (continuation p)) wl)),
           (evl ++ [EvPublish (continuation p)]), processed.
    split; [reflexivity|]. split; [simpl; by rewrite Hlogl, app_assoc|].
    split; [by rewrite cursor_writes_app, Hwl, app_nil_r|].
    split; [simpl; congruence|].
    split; [apply elem_of_app; by left|].
    split; [simpl; by rewrite Hll|].
    split; [simpl; congruence|]. split; [simpl; congruence|].
    split; [|split; [exact Hcl|exact Hfaill]].
    unfold storedCursor. simpl. rewrite Hredl, Hcq. unfold wp.
    rewrite persist_cursor_redis.
    assert (Hb : length batch = MAX_ROWS_PER_EXECUTION).
    { unfold batch, batch_rows. rewrite length_take, length_drop. fold c. lia. }
    rewrite Hb. simpl. by rewrite lookup_insert_eq.
Qed.

Lemma POST_without_file p w :
  files w !! file_url p = None →
  POST p w
  = (ResponseError (early_message p),
     emit (EvLogCron ("Error importing CSV links: " +:+ early_message p)) w).
Proof.
  intros Hnone. unfold POST, POST_try, early_message.
  destruct (negb (JS.truthy (id p)) || negb (JS.truthy (file_url p))); [done|].
  erewrite bind_Ok by reflexivity.
  erewrite bind_Ok by (unfold storage_fetch, gets; rewrite Hnone; reflexivity).
  done.
Qed.

(** Deliveries that find no file change nothing but the cron log. *)
Lemma invocations_without_file p w n :
  files w !! file_url p = None →
  files (invocations n p w) = files w
  ∧ queue (invocations n p w) = queue w
  ∧ linkTable (invocations n p w) = linkTable w
  ∧ ∃ evs, log (invocations n p w) = log w ++ evs
           ∧ cursor_writes (cursorKey p) evs = [].
Proof.
  revert w. induction n as [|n IH]; intros w Hnone.
  - repeat split; try done. exists []. by rewrite app_nil_r.
  - simpl invocations. rewrite POST_without_file by done. cbn [snd].
    destruct (IH (emit (EvLogCron ("Error importing CSV links: " +:+ early_message p)) w))
      as (Hf & Hq & Hl & evs & Hlog & Hw); [done|].
    rewrite Hf, Hq, Hl. repeat split; try done.
    exists (EvLogCron ("Error importing CSV links: " +:+ early_message p) :: evs).
    split; [rewrite Hlog; simpl; by rewrite <- app_assoc|].
    change (?e :: evs) with ([e] ++ evs). by rewrite cursor_writes_app, Hw.
Qed.

End RouteFacts.

Section RouteClaims.
Context `{Externals}.

(** C2 (code defect). A 60-row file, no stored cursor, a workspace on
    record and a schema that accepts the bodies of the file's candidates.

    As claimed, when the [length] comparison of the [complete] callback is
    false at the two rows on which the parse is aborted (rows 25 and 50;
    so for every file without a column headed [length]): the first
    delivery processes rows 0-24, leaves the stored cursor at 25 and
    publishes exactly one continuation message; the second processes rows
    25-49, leaves the cursor at 50 and publishes one more; the third
    processes rows 50-59, sees [isComplete = true] and finalizes: it
    publishes nothing, sends the summary e-mail with the job's totals,
    deletes the four keys of the job and deletes the file.

    Against the claim, when row 25 carries a [length] cell that the
    counter 25 has reached: the first delivery processes rows 0-24, sees
    [isComplete = true] and finalizes; no continuation is published, the
    file and the keys are deleted, and no later delivery maps a row. *)
Theorem C2_three_deliveries_unless_length_cell (p : Payload) (rows : list Row)
    (w0 : World) (pr : Project) :
  id p ≠ "" → file_url p ≠ "" →
  files w0 !! file_url p = Some rows →
  length rows = 60 →
  redis w0 !! cursorKey p = None →
  List.find (fun x => String.eqb (proj_id x) (workspaceId p)) (projectTable w0) = Some pr →
  (∀ d, d ∈ candidates (map (fun r => mapCsvRowToLink r (mapping p)) rows) →
        is_Some (createLinkBodySchema_parse (body_of (folderId p) d))) →
  ((∀ row, rows !! 25 = Some row → complete 25 (DataRow row) = false) →
   (∀ row, rows !! 50 = Some row → complete 50 (DataRow row) = false) →
   ∃ w1 w2 w3 evs1 evs2 evs3 done1 done2 done3,
     (* first delivery *)
     POST p w0 = (ResponseOK, w1)
     ∧ log w1 = log w0 ++ evs1
     ∧ cursor_writes (cursorKey p) evs1 = seq 1 25
     ∧ batch_processed p pr (take 25 rows) (linkTable w0) (linkTable w1) done1
     ∧ createdCount p w1 = createdCount p w0 + length (validLinks done1)
     ∧ failedRows p w1 = failedRows p w0 ++ errorLinks done1
     ∧ EvConsoleLog (LogIsComplete false) ∈ evs1
     ∧ storedCursor p w1 = 25
     ∧ queue w1 = queue w0 ++ [continuation p]
     (* second delivery *)
     ∧ POST p w1 = (ResponseOK, w2)
     ∧ log w2 = log w1 ++ evs2
     ∧ cursor_writes (cursorKey p) evs2 = seq 26 25
     ∧ batch_processed p pr (take 25 (drop 25 rows)) (linkTable w1) (linkTable w2) done2
     ∧ createdCount p w2 = createdCount p w1 + length (validLinks done2)
     ∧ failedRows p w2 = failedRows p w1 ++ errorLinks done2
     ∧ EvConsoleLog (LogIsComplete false) ∈ evs2
     ∧ storedCursor p w2 = 50
     ∧ queue w2 = queue w1 ++ [continuation p]
     (* third delivery *)
     ∧ POST p w2 = (ResponseOK, w3)
     ∧ log w3 = log w2 ++ evs3
     ∧ cursor_writes (cursorKey p) evs3 = seq 51 10
     ∧ batch_processed p pr (drop 50 rows) (linkTable w2) (linkTable w3) done3
     ∧ EvConsoleLog (LogIsComplete true) ∈ evs3
     ∧ queue w3 = queue w2
     ∧ (∃ domains,
          EvEmail {| em_workspaceId := workspaceId p;
                     em_count := createdCount p w2 + length (validLinks done3);
                     em_domains := domains;
                     em_errorLinks := failedRows p w2 ++ errorLinks done3 |} ∈ evs3)
     ∧ EvRedisDel (redisKeyOf p +:+ ":cursor") ∈ evs3
     ∧ EvRedisDel (redisKeyOf p +:+ ":created") ∈ evs3
     ∧ EvRedisDel (redisKeyOf p +:+ ":failed") ∈ evs3
     ∧ EvRedisDel (redisKeyOf p +:+ ":domains") ∈ evs3
     ∧ EvStorageDelete (file_url p) ∈ evs3
     ∧ redis w3 !! (redisKeyOf p +:+ ":cursor") = None
     ∧ redis w3 !! (redisKeyOf p +:+ ":created") = None
     ∧ redis w3 !! (redisKeyOf p +:+ ":failed") = None
     ∧ redis w3 !! (redisKeyOf p +:+ ":domains") = None
     ∧ files w3 !! file_url p = None)
  ∧ ((∃ row, rows !! 25 = Some row ∧ complete 25 (DataRow row) = true) →
     ∃ w1 evs1 done1,
       POST p w0 = (ResponseOK, w1)
       ∧ log w1 = log w0 ++ evs1
       ∧ cursor_writes (cursorKey p) evs1 = seq 1 25
       ∧ batch_processed p pr (take 25 rows) (linkTable w0) (linkTable w1) done1
       ∧ EvConsoleLog (LogIsComplete true) ∈ evs1
       ∧ queue w1 = queue w0
       ∧ EvStorageDelete (file_url p) ∈ evs1
       ∧ files w1 !! file_url p = None
       ∧ redis w1 !! (redisKeyOf p +:+ ":cursor") = None
       ∧ ∀ n, cursor_history p w0 (invocations (S n) p w0) = seq 1 25
              ∧ linkTable (invocations (S n) p w0) = linkTable w1
              ∧ queue (invocations (S n) p w0) = queue w0).
Proof.
  intros Hid Hurl Hfile Hlen Hcur Hfind Haccept.
  assert (Hc0 : storedCursor p w0 = 0) by (unfold storedCursor; by rewrite Hcur).
  assert (Hacc : ∀ w d,
            d ∈ candidates (map (fun r => mapCsvRowToLink r (mapping p)) (batch_rows p w rows)) →
            is_Some (createLinkBodySchema_parse (body_of (folderId p) d))).
  { intros w d Hd. apply Haccept. unfold batch_rows in Hd.
    by apply candidates_of_batch in Hd. }
  assert (Hfin : ∀ wl evs pre, evs = pre ++ finalize_events p wl →
            ∀ e, e ∈ finalize_events p wl → e ∈ evs).
  { intros wl evs pre -> e He. apply elem_of_app. by right. }
  (* first delivery *)
  destruct (POST_ok p w0 rows pr Hid Hurl Hfile Hfind (Hacc w0))
    as (w1 & evs1 & done1 & Hrun1 & Hlog1 & Hw1 & Hp1 & Hcomplete1 & Hdone1 & Hbranch1).
  assert (Hb0 : batch_rows p w0 rows = take 25 rows)
    by (unfold batch_rows; by rewrite Hc0).
  rewrite Hc0 in Hcomplete1, Hbranch1.
  rewrite Hb0 in Hdone1. rewrite Hb0, Hc0, length_take, Hlen in Hw1.
  change (25 `min` 60) with 25 in Hw1.
  destruct (lookup_lt_is_Some_2 rows 25) as [row25 Hrow25]; [lia|].
  rewrite (completes_at_row 0 rows row25 Hrow25) in Hcomplete1, Hbranch1.
  change (0 + MAX_ROWS_PER_EXECUTION) with 25 in Hcomplete1, Hbranch1.
  split.
  - intros Hno25 Hno50.
    rewrite (Hno25 row25 Hrow25) in Hcomplete1, Hbranch1.
    destruct Hbranch1 as (Hq1 & Hf1 & Hc1 & Hcr1 & Hfl1).
    change (0 + MAX_ROWS_PER_EXECUTION) with 25 in Hc1.
    (* second delivery *)
    destruct (POST_ok p w1 rows pr Hid Hurl) as
      (w2 & evs2 & done2 & Hrun2 & Hlog2 & Hw2 & Hp2 & Hcomplete2 & Hdone2 & Hbranch2);
      [by rewrite Hf1|by rewrite Hp1|apply Hacc|].
    assert (Hb1 : batch_rows p w1 rows = take 25 (drop 25 rows))
      by (unfold batch_rows; by rewrite Hc1).
    rewrite Hc1 in Hcomplete2, Hbranch2.
    rewrite Hb1 in Hdone2. rewrite Hb1, Hc1, length_take, length_drop, Hlen in Hw2.
    change (25 `min` (60 - 25)) with 25 in Hw2.
    destruct (lookup_lt_is_Some_2 rows 50) as [row50 Hrow50]; [lia|].
    rewrite (completes_at_row 25 rows row50 Hrow50) in Hcomplete2, Hbranch2.
    change (25 + MAX_ROWS_PER_EXECUTION) with 50 in Hcomplete2, Hbranch2.
    rewrite (Hno50 row50 Hrow50) in Hcomplete2, Hbranch2.
    destruct Hbranch2 as (Hq2 & Hf2 & Hc2 & Hcr2 & Hfl2).
    change (25 + MAX_ROWS_PER_EXECUTION) with 50 in Hc2.
    (* third delivery *)
    destruct (POST_ok p w2 rows pr Hid Hurl) as
      (w3 & evs3 & done3 & Hrun3 & Hlog3 & Hw3 & Hp3 & Hcomplete3 & Hdone3 & Hbranch3);
      [by rewrite Hf2, Hf1|by rewrite Hp2, Hp1|apply Hacc|].
    assert (Hb2 : batch_rows p w2 rows = drop 50 rows).
    { unfold batch_rows. rewrite Hc2. apply take_ge. rewrite length_drop.
      unfold MAX_ROWS_PER_EXECUTION. lia. }
    rewrite Hc2 in Hcomplete3, Hbranch3.
    rewrite completes_at_end in Hcomplete3, Hbranch3
      by (unfold MAX_ROWS_PER_EXECUTION; lia).
    rewrite Hb2 in Hdone3. rewrite Hb2, Hc2, length_drop, Hlen in Hw3.
    destruct Hbranch3 as (Hq3 & Hf3 & Hk1 & Hk2 & Hk3 & Hk4 & pre & wl & Hevs3 & Hcr3 & Hfl3).
    pose proof (Hfin wl evs3 pre Hevs3) as Hin.
    exists w1, w2, w3, evs1, evs2, evs3, done1, done2, done3.
    repeat (split; [done|]).
    split.
    { eexists. apply Hin. unfold finalize_events. rewrite Hcr3, Hfl3.
      rewrite !elem_of_cons. right; left. reflexivity. }
    repeat split; try done;
      apply Hin; unfold finalize_events; rewrite !elem_of_cons; auto 10.
  - intros (row & Hrow & Hreached).
    rewrite Hrow25 in Hrow. injection Hrow as ->.
    rewrite Hreached in Hcomplete1, Hbranch1.
    destruct Hbranch1 as (Hq1 & Hf1 & Hk1 & _ & _ & _ & pre & wl & Hevs1 & _).
    exists w1, evs1, done1.
    repeat (split; [done|]).
    split; [apply (Hfin wl evs1 pre Hevs1); unfold finalize_events;
            rewrite !elem_of_cons; auto 10|].
    split; [done|]. split; [done|].
    intros n. simpl invocations. rewrite Hrun1. cbn [snd].
    destruct (invocations_without_file p w1 n Hf1) as (_ & Hq & Hl & evs & Hlogn & Hwn).
    split; [|split; [done|congruence]].
    unfold cursor_history.
    rewrite Hlogn, Hlog1, <- app_assoc, drop_app_length, cursor_writes_app, Hw1, Hwn.
    apply app_nil_r.
Qed.

End RouteClaims.

(** ** The cursor over the life of a job *)

Section CursorFacts.
Context `{Externals}.

Lemma POST_early_throw p w :
  id p = "" ∨ file_url p = "" ∨ files w !! file_url p = None →
  ∃ msg, POST p w = (ResponseError msg,
                     emit (EvLogCron ("Error importing CSV links: " +:+ msg)) w).
Proof.
  intros Hcase. unfold POST, POST_try.
  destruct (JS.truthy (id p)) eqn:Hid; simpl; [|by eexists].
  destruct (JS.truthy (file_url p)) eqn:Hurl; simpl; [|by eexists].
  apply truthy_true_iff in Hid. apply truthy_true_iff in Hurl.
  destruct Hcase as [?|[?|Hnone]]; [done|done|].
  erewrite bind_Ok by reflexivity.
  erewrite bind_Ok by (unfold storage_fetch, gets; rewrite Hnone; reflexivity).
  by eexists.
Qed.

(** What one delivery does to the cursor: nothing at all, or the writes
    [c + 1], ..., [c + n] after which either the file is gone or the
    stored cursor is the last value written. *)
Lemma POST_cursor p w :
  ∃ evs,
    log (snd (POST p w)) = log w ++ evs
    ∧ ((cursor_writes (cursorKey p) evs = []
        ∧ files (snd (POST p w)) = files w
        ∧ storedCursor p (snd (POST p w)) = storedCursor p w)
       ∨ ∃ rows,
           files w !! file_url p = Some rows
           ∧ cursor_writes (cursorKey p) evs
             = seq (S (storedCursor p w)) (length (batch_rows p w rows))
           ∧ (files (snd (POST p w)) !! file_url p = None
              ∨ (files (snd (POST p w)) = files w
                 ∧ storedCursor p w + length (batch_rows p w rows)
                   = storedCursor p (snd (POST p w))))).
Proof.
  destruct (decide (id p = "")) as [Hid|Hid].
  { destruct (POST_early_throw p w) as (msg & ->); [by left|].
    eexists [_]. split; [reflexivity|]. by left. }
  destruct (decide (file_url p = "")) as [Hurl|Hurl].
  { destruct (POST_early_throw p w) as (msg & ->); [by right; left|].
    eexists [_]. split; [reflexivity|]. by left. }
  destruct (files w !! file_url p) as [rows|] eqn:Hfile.
  2:{ destruct (POST_early_throw p w) as (msg & ->); [by right; right|].
      eexists [_]. split; [reflexivity|]. by left. }
  unfold POST. rewrite (POST_try_run p w rows Hid Hurl Hfile). cbv zeta.
  set (c := storedCursor p w). set (batch := batch_rows p w rows).
  set (wp := persist_cursor (cursorKey p) c (length batch) w).
  destruct (persist_cursor_others (cursorKey p) c (length batch) w) as (Hfp & _).
  fold wp in Hfp.
  assert (Hlogp : log wp = log w ++ map (EvRedisSet (cursorKey p)) (seq (S c) (length batch)))
    by apply persist_cursor_log.
  assert (Hcp : storedCursor p wp = c + length batch).
  { unfold storedCursor, wp. rewrite persist_cursor_redis.
    destruct (length batch); [by rewrite Nat.add_0_r|].
    by rewrite lookup_insert_eq. }
  pose proof (processMappedLinks_cursor_frame
                (map (fun r => mapCsvRowToLink r (mapping p)) batch) p wp) as Hframe.
  cbv zeta in Hframe.
  destruct (processMappedLinks _ p wp) as [[[]|msg] wq].
  - simpl in Hframe. destruct Hframe as (Hfq & _ & _ & Hcq & evq & Hlogq & Hwq).
    generalize (completes_at c rows).
    intros isdone.
    set (wl := emit (EvConsoleLog (LogIsComplete isdone)) wq).
    set (evl := map (EvRedisSet (cursorKey p)) (seq (S c) (length batch))
                ++ evq ++ [EvConsoleLog (LogIsComplete isdone)]).
    assert (Hlogl : log wl = log w ++ evl)
      by (unfold evl; simpl; by rewrite Hlogq, Hlogp, <- !app_assoc).
    assert (Hwl : cursor_writes (cursorKey p) evl = seq (S c) (length batch)).
    { unfold evl. rewrite !cursor_writes_app, cursor_writes_sets, Hwq.
      apply app_nil_r. }
    assert (Hfl : files wl = files w) by (simpl; congruence).
    assert (Hcl : storedCursor p wl = c + length batch)
      by (unfold storedCursor in *; simpl; by rewrite Hcq).
    clearbody evl wl.
    destruct isdone.
    + destruct (finalize_run p wl) as (wf & -> & Hlogf & _ & _ & Hff & _).
      exists (evl ++ finalize_events p wl). simpl.
      split; [by rewrite Hlogf, Hlogl, app_assoc|].
      right. exists rows. split; [done|].
      split; [by rewrite cursor_writes_app, Hwl, app_nil_r|].
      left. rewrite Hff. apply lookup_delete_eq.
    + exists (evl ++ [EvPublish (continuation p)]). simpl.
      split; [by rewrite Hlogl, app_assoc|].
      right. exists rows. split; [done|].
      split; [by rewrite cursor_writes_app, Hwl, app_nil_r|].
      right. split; [done|].
      transitivity (storedCursor p wl); [by rewrite Hcl|]. reflexivity.
  - simpl in Hframe. destruct Hframe as (Hfq & _ & _ & Hcq & evq & Hlogq & Hwq).
    exists (map (EvRedisSet (cursorKey p)) (seq (S c) (length batch))
            ++ evq ++ [EvLogCron ("Error importing CSV links: " +:+ msg)]).
    simpl. split; [by rewrite Hlogq, Hlogp, <- !app_assoc|].
    right. exists rows. split; [done|].
    split.
    { rewrite !cursor_writes_app, cursor_writes_sets, Hwq. apply app_nil_r. }
    right. split; [congruence|].
    transitivity (storedCursor p wp); [by rewrite Hcp|].
    unfold storedCursor. simpl. by rewrite Hcq.
Qed.

Lemma seq_strongly_sorted a n : StronglySorted lt (seq a n).
Proof.
  revert a. induction n as [|n IH]; intros a; simpl; constructor; [apply IH|].
  apply Forall_forall. intros x Hx. apply list_elem_of_In, in_seq in Hx. lia.
Qed.

Lemma cursor_inv_step p hist w :
  cursor_inv p hist w →
  ∃ evs, log (snd (POST p w)) = log w ++ evs
         ∧ cursor_inv p (hist ++ cursor_writes (cursorKey p) evs) (snd (POST p w)).
Proof.
  intros (Hsorted & Hbound).
  destruct (POST_cursor p w) as (evs & Hlog & Hcase).
  exists evs. split; [done|].
  destruct Hcase as [(-> & Hf & Hc)|(rows & Hfile & -> & Hafter)].
  - rewrite app_nil_r. split; [done|]. by rewrite Hf, Hc.
  - destruct Hbound as [Hnone|Hbound]; [congruence|].
    split.
    + apply StronglySorted_app. split; [|split; [done|apply seq_strongly_sorted]].
      intros x1 x2 Hx1 Hx2. rewrite Forall_forall in Hbound.
      specialize (Hbound _ Hx1). apply list_elem_of_In, in_seq in Hx2. lia.
    + destruct Hafter as [Hgone|(_ & Hc)]; [by left|]. right.
      apply Forall_app. split.
      * eapply Forall_impl; [exact Hbound|]. simpl. intros. lia.
      * apply Forall_forall. intros x Hx. apply list_elem_of_In, in_seq in Hx. lia.
Qed.

Lemma invocations_cursor_inv n p hist w :
  cursor_inv p hist w →
  ∃ evs, log (invocations n p w) = log w ++ evs
         ∧ cursor_inv p (hist ++ cursor_writes (cursorKey p) evs) (invocations n p w).
Proof.
  revert hist w. induction n as [|n IH]; intros hist w Hinv.
  - exists []. simpl. by rewrite !app_nil_r.
  - destruct (cursor_inv_step p hist w Hinv) as (evs1 & Hlog1 & Hinv1).
    destruct (IH _ _ Hinv1) as (evs2 & Hlog2 & Hinv2).
    exists (evs1 ++ evs2). simpl. split.
    + by rewrite Hlog2, Hlog1, app_assoc.
    + by rewrite cursor_writes_app, app_assoc.
Qed.

End CursorFacts.

Section CursorClaims.
Context `{Externals}.

(** C5. While the parse of one invocation runs, the callback for the row
    after a mapped row [r] is entered in a world where the counter and
    the stored cursor both already hold the index of [r] plus one, and
    the values written so far are [c + 1], [c + 2], ... without gaps,
    [c] being the cursor the invocation started from. Over a whole
    invocation the values written are [c + 1], ..., [c + m] for the [m]
    rows mapped. Over any number of successive deliveries of the job's
    message, the values written to the cursor key increase strictly. *)
Theorem C5_cursor_persisted_then_increasing (p : Payload) (c : nat)
    (pre : list Row) (r : Row) (post : list Row) (w : World)
    (n : nat) (w0 : World) :
  c ≤ length pre → length pre < c + MAX_ROWS_PER_EXECUTION →
  (∃ bs st1 w1,
     parse_file p c (pre ++ r :: post) w
     = with_branches bs (papa_parse (step c (mapping p) (redisKeyOf p)) post st1) w1
     ∧ currentRow st1 = S (length pre)
     ∧ redis w1 !! cursorKey p = Some (RInt (S (length pre)))
     ∧ cursor_history p w w1 = seq (S c) (length pre - c + 1))
  ∧ (∀ rows, ∃ rep w',
       parse_file p c rows w = (Ok rep, w')
       ∧ cursor_history p w w' = seq (S c) (length (mappedLinks (final rep))))
  ∧ StronglySorted lt (cursor_history p w0 (invocations n p w0)).
Proof.
  intros Hge Hlt. split; [|split].
  - eexists _, _, _. split; [by apply parse_file_after_mapped|].
    split; [done|]. split.
    + rewrite persist_cursor_redis.
      replace (length pre - c + 1) with (S (length pre - c)) by lia.
      rewrite lookup_insert_eq. do 2 f_equal. lia.
    + unfold cursor_history.
      by rewrite persist_cursor_log, drop_app_length, cursor_writes_sets.
  - intros rows.
    destruct (parse_file_spec p c rows w) as (rep & Hrun & _ & Hml & _).
    eexists rep, _. split; [exact Hrun|].
    unfold cursor_history.
    by rewrite persist_cursor_log, drop_app_length, cursor_writes_sets,
      Hml, length_map.
  - destruct (invocations_cursor_inv n p [] w0) as (evs & Hlog & Hsorted & _).
    { split; [constructor|]. right. constructor. }
    unfold cursor_history. by rewrite Hlog, drop_app_length.
Qed.

End CursorClaims.

(** ** The test-completion scheduler *)

Section SchedulerClaims.
Context `{Externals}.

Lemma cancel_scheduled_run r u w :
  ∃ w', cancel_scheduled r u w = (Ok tt, w')
        ∧ queue w' = match r with
                     | FetchResponse true _ =>
                         List.filter (fun m => negb (String.eqb (q_url m) u)) (queue w)
                     | _ => queue w
                     end.
Proof. destruct r as [|[] status]; by eexists. Qed.


Lemma outstanding_after_cancel link w :
  List.filter (fun m => String.eqb (q_url m) (completionUrl link))
    (List.filter (fun m => negb (String.eqb (q_url m) (completionUrl link))) (queue w))
  = [].
Proof.
  induction (queue w) as [|m q IH]; [done|].
  simpl. destruct (String.eqb (q_url m) (completionUrl link)) eqn:Hm; simpl; [done|].
  by rewrite Hm.
Qed.


(** C9. A call for a link whose completion time is not after the time
    read by the comparison does what the cancellation alone does: the
    queue receives no message. *)
Theorem C9_past_timestamp_schedules_nothing (link : ExpandedLink)
    (env : CallEnv) (w : World) (t : Z) :
  testCompletedAt link = Some t →
  (t ≤ now_compared env)%Z →
  scheduleTestCompletion link env w
  = cancel_scheduled (cancel_response env) (completionUrl link) w
  ∧ (∀ m, m ∈ queue (snd (scheduleTestCompletion link env w)) → m ∈ queue w)
  ∧ (∀ m, EvPublish m ∉ drop (length (log w))
                            (log (snd (scheduleTestCompletion link env w)))).
Proof.
  intros Ht Hpast.
  assert (Hsame : scheduleTestCompletion link env w
                  = cancel_scheduled (cancel_response env) (completionUrl link) w).
  { destruct (cancel_scheduled_run (cancel_response env) (completionUrl link) w)
      as (wc & Hc & _).
    unfold scheduleTestCompletion. erewrite bind_Ok by exact Hc. rewrite Hc, Ht.
    destruct (testVariants link); [|done].
    by destruct (Z.ltb_spec (now_compared env) t); [lia|]. }
  split; [done|]. rewrite Hsame.
  destruct (cancel_response env) as [|[] status]; simpl.
  - split; [done|]. intros m. rewrite drop_app_length.
    intros Hin%list_elem_of_singleton. discriminate.
  - split.
    + intros m. rewrite !list_elem_of_In, filter_In. tauto.
    + intros m. rewrite drop_all. apply not_elem_of_nil.
  - split; [done|]. intros m. rewrite drop_app_length.
    intros Hin%list_elem_of_singleton. discriminate.
Qed.

End SchedulerClaims.

(** * The claims on concrete inputs *)

Section Instances.
Import Sample.
#[local] Existing Instance externals.

Example split_segments : JS.split "/" "d.co/a/b" = ["d.co"; "a"; "b"].
Proof. reflexivity. Qed.

Example split_trailing_slash : JS.split "/" "d.co/" = ["d.co"; ""].
Proof. reflexivity. Qed.

Example join_segments : JS.join "/" ["a"; "b"] = "a/b".
Proof. reflexivity. Qed.

Example mapper_root_key :
  data (mapCsvRowToLink (row_of " example.com " "https://a.example") mapping0)
  = Some {| domain := "example.com"; key := "_root"; url := "https://a.example";
            title := None; description := None; tags := None; createdAt := None |}.
Proof. reflexivity. Qed.

Example mapper_nested_key :
  key <$> data (mapCsvRowToLink (row_of "d.co/a/b" "https://a.example") mapping0)
  = Some "a/b".
Proof. reflexivity. Qed.

Example mapper_trailing_slash :
  key <$> data (mapCsvRowToLink (row_of "d.co/" "https://a.example") mapping0)
  = Some "_root".
Proof. reflexivity. Qed.

Example first_delivery_of_sixty :
  storedCursor payload0 (snd (POST payload0 (world0 rows60))) = 25
  ∧ length (queue (snd (POST payload0 (world0 rows60)))) = 1
  ∧ length (linkTable (snd (POST payload0 (world0 rows60)))) = 25.
Proof. vm_compute. done. Qed.

Example three_deliveries_of_sixty :
  redis (invocations 3 payload0 (world0 rows60)) = ∅
  ∧ files (invocations 3 payload0 (world0 rows60)) !! "imports/job1.csv" = None
  ∧ length (queue (invocations 3 payload0 (world0 rows60))) = 2
  ∧ length (linkTable (invocations 3 payload0 (world0 rows60))) = 60.
Proof. vm_compute. done. Qed.

Example length_column_ends_job_at_first_delivery :
  files (snd (POST payload0 (world0 MoreSamples.rows60_length))) !! "imports/job1.csv" = None
  ∧ redis (snd (POST payload0 (world0 MoreSamples.rows60_length))) = ∅
  ∧ queue (snd (POST payload0 (world0 MoreSamples.rows60_length))) = []
  ∧ length (linkTable (invocations 3 payload0 (world0 MoreSamples.rows60_length))) = 25.
Proof. vm_compute. done. Qed.

Lemma sample_faithful_storage : faithful_storage.
Proof.
  split; [|split].
  - reflexivity.
  - intros a _. by repeat split.
  - intros b b' [= <-]. by split.
Qed.

Lemma C1_witness :
  faithful_storage
  ∧ ∃ w1 w2,
      processMappedLinks first_batch payload0 (world0 rows60) = (Ok tt, w1)
      ∧ processMappedLinks first_batch payload0 w1 = (Ok tt, w2)
      ∧ length (linkTable w1) = 25
      ∧ linkTable w2 = linkTable w1.
Proof.
  split; [exact sample_faithful_storage|].
  assert (Hrun1 : ∃ w1, processMappedLinks first_batch payload0 (world0 rows60)
                         = (Ok tt, w1) ∧ length (linkTable w1) = 25).
  { eexists. split; [vm_compute; reflexivity|reflexivity]. }
  destruct Hrun1 as (w1 & Hrun1 & Hlen).
  destruct (proj2 (proj2 (proj2 (C1_stored_short_links_excluded first_batch)))
              sample_faithful_storage payload0 (world0 rows60) w1 Hrun1)
    as (w2 & Hrun2 & Htable & _).
  exists w1, w2. split; [exact Hrun1|]. split; [exact Hrun2|]. split; [exact Hlen|].
  exact Htable.
Defined.

Lemma C8_witness :
  getValueByKey (row_of "example.com" "https://a.example") (map_link mapping0) ≠ ""
  ∧ getValueByKey (row_of "example.com" "https://a.example") (map_url mapping0) ≠ ""
  ∧ constructsURL
      (getValueByKey (row_of "example.com" "https://a.example") (map_url mapping0)) = true
  ∧ ∃ d, mapCsvRowToLink (row_of "example.com" "https://a.example") mapping0
         = {| success := true; error := None; data := Some d |}
         ∧ domain d = "example.com" ∧ key d = "_root".
Proof.
  assert (H1 : getValueByKey (row_of "example.com" "https://a.example")
                 (map_link mapping0) ≠ "") by (vm_compute; discriminate).
  assert (H2 : getValueByKey (row_of "example.com" "https://a.example")
                 (map_url mapping0) ≠ "") by (vm_compute; discriminate).
  assert (H3 : constructsURL (getValueByKey (row_of "example.com" "https://a.example")
                 (map_url mapping0)) = true) by reflexivity.
  split; [exact H1|]. split; [exact H2|]. split; [exact H3|].
  destruct (C8_domain_and_key (row_of "example.com" "https://a.example") mapping0
              H1 H2 H3) as (d & Hd & Hroot & _).
  exists d. split; [exact Hd|]. apply Hroot. reflexivity.
Defined.

Lemma C7_witness :
  constructsURL (getValueByKey (row_of "d.co/b" "not a url") (map_url mapping0)) = false
  ∧ success (mapCsvRowToLink (row_of "d.co/b" "not a url") mapping0) = false.
Proof.
  split; [reflexivity|].
  apply (C7_unparseable_url_fails (row_of "d.co/b" "not a url") mapping0).
  reflexivity.
Defined.

Lemma C10_witness :
  success result_a = true ∧ data result_a = Some data_a
  ∧ (∀ l : StoredLink, l ∈ linkTable (world0 []) →
       sl_projectId l = workspaceId payload0 → sl_shortLink l ≠ shortLinkOf data_a)
  ∧ List.find (fun x => String.eqb (proj_id x) (workspaceId payload0))
      (projectTable (world0 [])) = Some project0
  ∧ Forall2 (fun d b => createLinkBodySchema_parse (body_of (folderId payload0) d) = Some b)
      (linksToCreate (workspaceId payload0) (linkTable (world0 []))
         ([] ++ result_a :: [] ++ result_a :: []))
      [body_of None data_a; body_of None data_a]
  ∧ ∃ w', processMappedLinks ([] ++ result_a :: [] ++ result_a :: []) payload0 (world0 [])
          = (Ok tt, w')
          ∧ createdCount payload0 w' + length (failedRows payload0 w') = 2.
Proof.
  assert (Hs : success result_a = true) by reflexivity.
  assert (Hd : data result_a = Some data_a) by reflexivity.
  assert (Hfree : ∀ l : StoredLink, l ∈ linkTable (world0 []) →
                    sl_projectId l = workspaceId payload0 →
                    sl_shortLink l ≠ shortLinkOf data_a).
  { intros l Hl. by apply elem_of_nil in Hl. }
  assert (Hfind : List.find (fun x => String.eqb (proj_id x) (workspaceId payload0))
                    (projectTable (world0 [])) = Some project0) by reflexivity.
  assert (Hsurvivors : linksToCreate (workspaceId payload0) (linkTable (world0 []))
                         ([] ++ result_a :: [] ++ result_a :: [])
                       = [data_a; data_a]) by (vm_compute; reflexivity).
  assert (Hbodies : Forall2
            (fun d b => createLinkBodySchema_parse (body_of (folderId payload0) d) = Some b)
            (linksToCreate (workspaceId payload0) (linkTable (world0 []))
               ([] ++ result_a :: [] ++ result_a :: []))
            [body_of None data_a; body_of None data_a]).
  { rewrite Hsurvivors. repeat constructor. }
  split; [exact Hs|]. split; [exact Hd|]. split; [exact Hfree|].
  split; [exact Hfind|]. split; [exact Hbodies|].
  destruct (C10_no_dedup_within_batch payload0 (world0 []) project0 [] [] [] result_a
              result_a data_a data_a _ Hs Hd Hs Hd eq_refl eq_refl Hfree Hfind Hbodies)
    as (_ & s1 & s2 & s3 & bs1 & b1 & bs2 & b2 & bs3 & w' & Hsplit & _ & _ & _ & Hrun
        & _ & _ & Hcount & _).
  exists w'. split; [exact Hrun|].
  rewrite Hcount. rewrite Hsurvivors in Hsplit.
  apply (f_equal length) in Hsplit. rewrite !length_app in Hsplit. simpl in Hsplit.
  rewrite !length_app in Hsplit. simpl in Hsplit.
  replace (length s1 + length s2 + length s3 + 2) with 2 by lia.
  reflexivity.
Defined.



Lemma C5_witness :
  0 ≤ length ([] : list Row)
  ∧ length ([] : list Row) < 0 + MAX_ROWS_PER_EXECUTION
  ∧ StronglySorted lt
      (cursor_history payload0 (world0 rows60) (invocations 3 payload0 (world0 rows60))).
Proof.
  assert (H1 : 0 ≤ length ([] : list Row)) by (simpl; lia).
  assert (H2 : length ([] : list Row) < 0 + MAX_ROWS_PER_EXECUTION)
    by (vm_compute; lia).
  split; [exact H1|]. split; [exact H2|].
  apply (C5_cursor_persisted_then_increasing payload0 0 []
           (row_of "d.co/a" "https://example.com") [] (world0 []) 3 (world0 rows60)
           H1 H2).
Defined.



Lemma C9_witness :
  testCompletedAt link0 = Some 1000%Z
  ∧ (1000 ≤ now_compared (env_ok 2000))%Z
  ∧ queue (snd (scheduleTestCompletion link0 (env_ok 2000) (world0 []))) = [].
Proof.
  assert (H1 : testCompletedAt link0 = Some 1000%Z) by reflexivity.
  assert (H2 : (1000 ≤ now_compared (env_ok 2000))%Z) by (simpl; lia).
  split; [exact H1|]. split; [exact H2|].
  destruct (C9_past_timestamp_schedules_nothing link0 (env_ok 2000) (world0 []) 1000
              H1 H2) as (Hsame & _).
  rewrite Hsame. reflexivity.
Defined.

End Instances.

(** * Further properties of the modelled code *)

(** ** The row mapper *)

Section MapperExtras.
Context `{Externals}.

Lemma find_app_none {A} (f : A → bool) (l1 l2 : list A) :
  List.find f l1 = None → List.find f (l1 ++ l2) = List.find f l2.
Proof.
  induction l1 as [|x l1 IH]; [done|]. simpl.
  destruct (f x); [done|]. exact IH.
Qed.

(** X1. Column lookup goes through [normalizeString] on both sides and
    takes the first matching header: two targets with the same normal
    form read the same value; the value read is the trimmed cell of the
    first header whose normal form is the target's; a row with no such
    header reads as the empty string, so that a mapping whose [link]
    column is absent from the row yields the missing-link failure. *)
Theorem X1_lookup_by_normal_form (row : Row) (target : string) :
  (∀ target', normalizeString target' = normalizeString target →
     getValueByKey row target' = getValueByKey row target)
  ∧ (∀ pre k v post,
       row = pre ++ (k, v) :: post →
       Forall (fun kv => normalizeString (fst kv) ≠ normalizeString target) pre →
       normalizeString k = normalizeString target → k ≠ "" →
       getValueByKey row target = trim v)
  ∧ (Forall (fun kv => normalizeString (fst kv) ≠ normalizeString target) row →
     getValueByKey row target = ""
     ∧ ∀ mp, map_link mp = target →
         mapCsvRowToLink row mp = mapper_failure "Missing required field: link").
Proof.
  assert (Hnone : ∀ l : Row,
            Forall (fun kv => normalizeString (fst kv) ≠ normalizeString target) l →
            List.find (fun k => String.eqb (normalizeString k) (normalizeString target))
              (row_keys l) = None).
  { induction 1 as [|kv l Hkv _ IH]; [done|]. simpl.
    destruct (String.eqb_spec (normalizeString kv.1) (normalizeString target)); done. }
  split; [|split].
  - intros target' Heq. unfold getValueByKey. by rewrite Heq.
  - intros pre k v post -> Hpre Hk Hne.
    unfold getValueByKey, row_keys. rewrite map_app. 
    rewrite find_app_none by (apply Hnone, Hpre). simpl.
    rewrite Hk, String.eqb_refl.
    apply truthy_true_iff in Hne as ->.
    f_equal. unfold row_get. rewrite find_app_none.
    + simpl. by rewrite String.eqb_refl.
    + clear -Hpre Hk. induction Hpre as [|kv l Hkv _ IH]; [done|]. simpl.
      destruct (String.eqb (fst kv) k) eqn:E; [|exact IH].
      apply String.eqb_eq in E. congruence.
  - intros Hrow.
    assert (Hval : getValueByKey row target = "")
      by (unfold getValueByKey; by rewrite (Hnone row Hrow)).
    split; [done|]. intros mp <-. unfold mapCsvRowToLink. by rewrite Hval.
Qed.

(** X2. On the results of the row mapper the two type guards of
    [processMappedLinks] are complementary: every mapped row is counted
    either as a failed mapping or as a successful one, never as both and
    never as neither, and every successful one contributes a candidate. *)
Theorem X2_guards_partition_mapper_results (mp : LinkMapping) (rows : list Row) :
  Forall (fun r => is_failed_mapping r = negb (is_successful_mapping r))
    (map (fun row => mapCsvRowToLink row mp) rows)
  ∧ length (failedMappings (map (fun row => mapCsvRowToLink row mp) rows))
    + length (successfulMappings (map (fun row => mapCsvRowToLink row mp) rows))
    = length rows
  ∧ length (candidates (map (fun row => mapCsvRowToLink row mp) rows))
    = length (successfulMappings (map (fun row => mapCsvRowToLink row mp) rows)).
Proof.
  assert (Hone : ∀ row,
            (is_failed_mapping (mapCsvRowToLink row mp) = true
             ∧ is_successful_mapping (mapCsvRowToLink row mp) = false)
            ∨ (is_failed_mapping (mapCsvRowToLink row mp) = false
               ∧ is_successful_mapping (mapCsvRowToLink row mp) = true
               ∧ is_Some (data (mapCsvRowToLink row mp)))).
  { intros row.
    destruct (mapCsvRowToLink_cases row mp)
      as [[_ ->]|[(_ & _ & ->)|[(_ & _ & _ & ->)|(_ & _ & _ & d & -> & _)]]];
      [left; done..|right; by eauto]. }
  split; [|split].
  - apply Forall_forall. intros r Hr.
    apply list_elem_of_In, in_map_iff in Hr as (row & <- & _).
    by destruct (Hone row) as [[-> ->]|(-> & -> & _)].
  - unfold failedMappings, successfulMappings.
    induction rows as [|row rows IH]; [done|]. simpl.
    destruct (Hone row) as [[-> ->]|(-> & -> & _)]; simpl; lia.
  - unfold candidates, successfulMappings.
    induction rows as [|row rows IH]; [done|]. simpl.
    destruct (Hone row) as [[_ ->]|(_ & -> & [d Hd])]; [done|].
    change (omap data (?r :: ?l)) with (omap data ([r] ++ l)).
    rewrite omap_app. simpl. rewrite Hd. simpl. by rewrite IH.
Qed.

(** X3. Every candidate produced from mapped rows has a non-empty key, a
    non-empty URL that [new URL] accepted, and a domain without ["/"]. *)
Theorem X3_candidates_well_formed (mp : LinkMapping) (rows : list Row) :
  Forall (fun d => key d ≠ "" ∧ url d ≠ "" ∧ constructsURL (url d) = true
                   ∧ JS.contains "/" (domain d) = false)
    (candidates (map (fun row => mapCsvRowToLink row mp) rows)).
Proof.
  unfold candidates, successfulMappings.
  induction rows as [|row rows IH]; simpl; [constructor|].
  destruct (mapCsvRowToLink_cases row mp)
    as [[_ ->]|[(_ & _ & ->)|[(_ & _ & _ & ->)|(_ & Hu & Hc & d & -> & Hurl & Hdom & Hkey)]]];
    simpl; try exact IH.
  constructor; [|exact IH]. rewrite Hurl, Hdom, Hkey. repeat split; try done.
  - unfold JS.or_else. destruct (JS.truthy _) eqn:Ht; [|done].
    by apply truthy_true_iff.
  - apply split_head_no_sep.
Qed.

(** X4. Whether a row is accepted, with which error it is refused, and
    the domain, key and URL it is accepted with depend on the two
    required columns only: dropping the optional columns from the mapping
    changes none of them. In particular no title, description, tag list
    or creation date, however malformed, makes a row fail. *)
Theorem X4_optional_columns_never_fail_a_row (row : Row) (mp : LinkMapping) :
  success (mapCsvRowToLink row mp) = success (mapCsvRowToLink row (required_only mp))
  ∧ error (mapCsvRowToLink row mp) = error (mapCsvRowToLink row (required_only mp))
  ∧ required_part <$> data (mapCsvRowToLink row mp)
    = required_part <$> data (mapCsvRowToLink row (required_only mp)).
Proof.
  unfold mapCsvRowToLink. simpl.
  destruct (JS.truthy (getValueByKey row (map_link mp))); simpl; [|done].
  destruct (JS.truthy (getValueByKey row (map_url mp))); simpl; [|done].
  by destruct (constructsURL (getValueByKey row (map_url mp))).
Qed.

(** X5. Optional fields are absent rather than empty. In the data of an
    accepted row a title or description is never the empty string and is
    set only if its column is mapped; a tag list holds, in order, only
    normal forms of non-empty trimmed segments of the tags cell; a
    creation date is set only to what [parseDateTime] made of a non-empty
    cell. *)
Theorem X5_optional_fields_absent_rather_than_empty (row : Row)
    (mp : LinkMapping) (d : LinkData) :
  data (mapCsvRowToLink row mp) = Some d →
  title d ≠ Some "" ∧ description d ≠ Some ""
  ∧ (JS.truthy_opt (map_title mp) = false → title d = None)
  ∧ (JS.truthy_opt (map_description mp) = false → description d = None)
  ∧ (JS.truthy_opt (map_tags mp) = false → tags d = None)
  ∧ (JS.truthy_opt (map_createdAt mp) = false → createdAt d = None)
  ∧ (∀ ts, tags d = Some ts →
       ∃ column cell, map_tags mp = Some column
         ∧ cell = getValueByKey row column ∧ cell ≠ ""
         ∧ ts = map normalizeString (List.filter JS.truthy (map trim (JS.split "," cell)))
         ∧ Forall (fun t => ∃ seg, seg ∈ JS.split "," cell ∧ trim seg ≠ ""
                                   ∧ t = normalizeString (trim seg)) ts)
  ∧ (∀ t, createdAt d = Some t →
       ∃ column, map_createdAt mp = Some column
         ∧ getValueByKey row column ≠ ""
         ∧ parseDateTime (getValueByKey row column) = Some t).
Proof.
  intros Hd.
  assert (Htext : ∀ column v, optional_text row column = Some v →
            v ≠ "" ∧ ∃ c, column = Some c ∧ v = getValueByKey row c).
  { intros column v. unfold optional_text.
    destruct (JS.truthy_opt column) eqn:Hcol; [|done].
    destruct column as [c|]; [|discriminate Hcol].
    change (default "" (Some c)) with c.
    destruct (JS.truthy (getValueByKey row c)) eqn:Hv; [|done].
    intros [= <-]. split; [by apply truthy_true_iff|by exists c]. }
  assert (Hunmapped : ∀ column, JS.truthy_opt column = false →
            optional_text row column = None).
  { intros column Hc. unfold optional_text. by rewrite Hc. }
  destruct (mapCsvRowToLink_cases row mp)
    as [[_ E]|[(_ & _ & E)|[(_ & _ & _ & E)|_]]];
    try (rewrite E in Hd; discriminate).
  unfold mapCsvRowToLink in Hd.
  destruct (negb (JS.truthy (getValueByKey row (map_link mp)))); [discriminate|].
  destruct (negb (JS.truthy (getValueByKey row (map_url mp)))); [discriminate|].
  cbv zeta in Hd.
  destruct (negb (constructsURL (getValueByKey row (map_url mp)))); [discriminate|].
  injection Hd as <-. cbn [title description tags createdAt].
  split; [intros Ht; by destruct (Htext _ _ Ht)|].
  split; [intros Ht; by destruct (Htext _ _ Ht)|].
  split; [apply Hunmapped|]. split; [apply Hunmapped|].
  split; [intros Hc; by rewrite Hunmapped|].
  split; [intros Hc; by rewrite Hunmapped|].
  split.
  - intros ts Hts.
    destruct (optional_text row (map_tags mp)) as [v|] eqn:Hv; [|discriminate].
    injection Hts as <-.
    destruct (Htext _ _ Hv) as (Hne & c & Hc & ->).
    exists c, (getValueByKey row c). repeat split; try done.
    unfold parse_tags. apply Forall_forall. intros t Ht.
    apply list_elem_of_In, in_map_iff in Ht as (s & <- & Hs).
    apply filter_In in Hs as (Hs & Htruthy).
    apply in_map_iff in Hs as (seg & <- & Hseg).
    exists seg. split; [by apply list_elem_of_In|].
    split; [by apply truthy_true_iff|done].
  - intros t Ht.
    destruct (optional_text row (map_createdAt mp)) as [v|] eqn:Hv; [|discriminate].
    destruct (Htext _ _ Hv) as (Hne & c & Hc & ->).
    by exists c.
Qed.

End MapperExtras.

(** ** Tags, domains and the job's counters *)

Section MaterializerExtras.
Context `{Externals}.

Lemma createMany_skipDuplicates_grows {A} (same_key : A → A → bool) rows table :
  ∃ added, createMany_skipDuplicates same_key rows table = table ++ added
           ∧ Forall (fun r => r ∈ rows) added.
Proof.
  unfold createMany_skipDuplicates. revert table.
  induction rows as [|r rows IH]; intros table; simpl.
  - exists []. by rewrite app_nil_r.
  - destruct (existsb (same_key r) table).
    + destruct (IH table) as (added & -> & Hadd). exists added. split; [done|].
      eapply Forall_impl; [exact Hadd|]. intros x Hx. by right.
    + destruct (IH (table ++ [r])) as (added & -> & Hadd).
      exists (r :: added). split; [by rewrite <- app_assoc|].
      constructor; [by left|].
      eapply Forall_impl; [exact Hadd|]. intros x Hx. by right.
Qed.

Lemma createMany_skipDuplicates_covers {A} (same_key : A → A → bool) rows table r :
  (∀ x, same_key x x = true) → r ∈ rows →
  ∃ x, x ∈ createMany_skipDuplicates same_key rows table ∧ same_key r x = true.
Proof.
  intros Hrefl. unfold createMany_skipDuplicates. revert table.
  induction rows as [|r0 rows IH]; intros table Hin; [by apply elem_of_nil in Hin|].
  simpl. apply elem_of_cons in Hin as [->|Hin]; [|by apply IH].
  set (table' := if existsb (same_key r0) table then table else table ++ [r0]).
  assert (Hhas : ∃ x, x ∈ table' ∧ same_key r0 x = true).
  { unfold table'. destruct (existsb (same_key r0) table) eqn:Hex.
    - apply existsb_exists in Hex as (x & Hx & Hk). exists x.
      by rewrite list_elem_of_In.
    - exists r0. split; [|done]. apply elem_of_app. right. by left. }
  destruct Hhas as (x & Hx & Hk). exists x. split; [|done].
  destruct (createMany_skipDuplicates_grows same_key rows table') as (added & Hg & _).
  unfold createMany_skipDuplicates in Hg. rewrite Hg. apply elem_of_app. by left.
Qed.

(** X6. Tag resolution only adds rows to the tag table, each for this
    workspace and for a requested tag that no tag of the workspace
    matched case-insensitively; afterwards every requested tag is matched
    case-insensitively by a tag of the workspace. *)
Theorem X6_requested_tags_exist_afterwards (ml : list MapperResult)
    (p : Payload) (w : World) :
  ∃ w' added,
    process_tags ml p w = (Ok tt, w')
    ∧ tagTable w' = tagTable w ++ added
    ∧ Forall (fun t => tag_projectId t = workspaceId p
                       ∧ tag_name t ∈ selectedTags ml
                       ∧ Forall (fun e => tag_projectId e = workspaceId p →
                                   toLowerCase (tag_name e) ≠ toLowerCase (tag_name t))
                           (tagTable w)) added
    ∧ Forall (fun tag => ∃ t, t ∈ tagTable w' ∧ tag_projectId t = workspaceId p
                              ∧ toLowerCase (tag_name t) = toLowerCase tag)
        (selectedTags ml).
Proof.
  set (ws := workspaceId p).
  set (existing := List.filter (fun t => String.eqb (tag_projectId t) ws) (tagTable w)).
  set (newTags := tagsNotInWorkspace existing (selectedTags ml)).
  set (rows := map (fun name => {| tag_projectId := ws; tag_name := name |}) newTags).
  assert (Hnew : ∀ tag, tag ∈ newTags ↔
            tag ∈ selectedTags ml
            ∧ Forall (fun e => tag_projectId e = ws →
                        toLowerCase (tag_name e) ≠ toLowerCase tag) (tagTable w)).
  { intros tag. unfold newTags, tagsNotInWorkspace.
    rewrite list_elem_of_In, filter_In, <- list_elem_of_In, negb_true_iff.
    split; intros (Hsel & Hno); (split; [done|]).
    - apply Forall_forall. intros e He Hws Heq.
      assert (existsb (fun t => String.eqb (toLowerCase (tag_name t)) (toLowerCase tag))
                existing = true); [|congruence].
      apply existsb_exists. exists e. split; [|by apply String.eqb_eq].
      apply filter_In. split; [by apply list_elem_of_In|by apply String.eqb_eq].
    - destruct (existsb _ existing) eqn:Hex; [|done].
      apply existsb_exists in Hex as (e & He & Heq).
      apply filter_In in He as (He & Hws).
      apply String.eqb_eq in Heq, Hws. rewrite Forall_forall in Hno.
      by destruct (Hno e (proj2 (list_elem_of_In _ _) He) Hws). }
  assert (Hrun : process_tags ml p w
                 = (Ok tt, if 0 <? length newTags
                           then upd_tagTable (createMany_skipDuplicates same_tag rows) w
                           else w)).
  { unfold process_tags. erewrite bind_Ok by reflexivity. fold ws existing newTags rows.
    by destruct (0 <? length newTags). }
  destruct (createMany_skipDuplicates_grows same_tag rows (tagTable w))
    as (added & Hgrow & Hadded).
  assert (Hrows : ∀ t, t ∈ rows → tag_projectId t = ws ∧ tag_name t ∈ newTags).
  { intros t Ht. apply list_elem_of_In, in_map_iff in Ht as (name & <- & Hn).
    split; [done|]. by apply list_elem_of_In. }
  destruct (0 <? length newTags) eqn:Hlen.
  - eexists _, added. split; [exact Hrun|]. simpl. split; [exact Hgrow|]. split.
    + eapply Forall_impl; [exact Hadded|]. intros t Ht.
      destruct (Hrows t Ht) as (Hws & Hn). apply Hnew in Hn as (Hsel & Hno). done.
    + apply Forall_forall. intros tag Hsel.
      destruct (existsb (fun t => String.eqb (toLowerCase (tag_name t)) (toLowerCase tag))
                  existing) eqn:Hex.
      * apply existsb_exists in Hex as (e & He & Heq).
        apply filter_In in He as (He & Hws). apply String.eqb_eq in Heq, Hws.
        exists e. split; [|done]. rewrite Hgrow. apply elem_of_app. left.
        by apply list_elem_of_In.
      * assert (Hin : tag ∈ newTags).
        { unfold newTags, tagsNotInWorkspace.
          apply list_elem_of_In, filter_In. split; [by apply list_elem_of_In|].
          by rewrite Hex. }
        destruct (createMany_skipDuplicates_covers same_tag rows (tagTable w)
                    {| tag_projectId := ws; tag_name := tag |}) as (x & Hx & Hk).
        { intros x. unfold same_tag. by rewrite !String.eqb_refl. }
        { apply list_elem_of_In, in_map. by apply list_elem_of_In. }
        unfold same_tag in Hk. simpl in Hk.
        apply andb_true_iff in Hk as (Hk1 & Hk2). apply String.eqb_eq in Hk1, Hk2.
        exists x. by rewrite <- Hk1, <- Hk2.
  - apply ltb_length_false in Hlen.
    exists w, []. split; [exact Hrun|]. split; [by rewrite app_nil_r|].
    split; [constructor|].
    apply Forall_forall. intros tag Hsel.
    destruct (existsb (fun t => String.eqb (toLowerCase (tag_name t)) (toLowerCase tag))
                existing) eqn:Hex.
    + apply existsb_exists in Hex as (e & He & Heq).
      apply filter_In in He as (He & Hws). apply String.eqb_eq in Heq, Hws.
      exists e. split; [by apply list_elem_of_In|done].
    + assert (Hin : tag ∈ newTags).
      { unfold newTags, tagsNotInWorkspace.
        apply list_elem_of_In, filter_In. split; [by apply list_elem_of_In|].
        by rewrite Hex. }
      rewrite Hlen in Hin. by apply elem_of_nil in Hin.
Qed.

Lemma for_each_emit_log (f : string → Event) (l : list string) w :
  ∃ w', for_each (fun d => modify (emit (f d))) l w = (Ok tt, w')
        ∧ log w' = log w ++ map f l
        ∧ redis w' = redis w ∧ domainTable w' = domainTable w
        ∧ linkTable w' = linkTable w ∧ tagTable w' = tagTable w
        ∧ projectTable w' = projectTable w.
Proof.
  revert w. induction l as [|d l IH]; intros w.
  - exists w. by rewrite app_nil_r.
  - destruct (IH (emit (f d) w)) as (w' & Hrun & Hlog & Hr & Hd & Hl & Ht & Hp).
    exists w'. split; [simpl; erewrite bind_Ok by reflexivity; exact Hrun|].
    simpl in *. by rewrite Hlog, <- app_assoc.
Qed.

Lemma set_add_elem s members x :
  x ∈ set_add s members ↔ x ∈ s ∨ x ∈ members.
Proof.
  unfold set_add. revert s. induction members as [|m members IH]; intros s; simpl.
  - rewrite elem_of_nil. tauto.
  - rewrite IH, elem_of_cons. destruct (existsb (String.eqb m) s) eqn:Hex.
    + apply existsb_exists in Hex as (y & Hy & Heq). apply String.eqb_eq in Heq as <-.
      apply list_elem_of_In in Hy. split; [tauto|]. intros [?|[->|?]]; tauto.
    + rewrite elem_of_app, list_elem_of_singleton. tauto.
Qed.

Lemma set_add_NoDup s members : NoDup s → NoDup (set_add s members).
Proof.
  unfold set_add. revert s. induction members as [|m members IH]; intros s Hs; [done|].
  simpl. apply IH. destruct (existsb (String.eqb m) s) eqn:Hex; [done|].
  apply NoDup_app. split; [done|]. split; [|apply NoDup_singleton].
  intros x Hx Hx'. apply list_elem_of_singleton in Hx' as ->.
  assert (existsb (String.eqb m) s = true); [|congruence].
  apply existsb_exists. exists m. split; [by apply list_elem_of_In|].
  apply String.eqb_refl.
Qed.

(** The domain phase, step by step. *)
Lemma process_domains_run ml p w :
  ∃ w',
    process_domains ml p w = (Ok tt, w')
    ∧ log w' = log w
        ++ map EvAddDomainToVercel (unregisteredDomains ml p w)
        ++ map (fun d => EvCreateLink (workspaceId p) (userId p) d "_root")
             (unregisteredDomains ml p w)
        ++ (if 0 <? length (selectedDomains ml)
            then [EvRedisSAdd (redisKeyOf p +:+ ":domains") (selectedDomains ml)]
            else [])
    ∧ domainTable w'
      = (if 0 <? length (unregisteredDomains ml p w)
         then createMany_skipDuplicates same_domain
                (map (fun slug => {| dom_projectId := workspaceId p; dom_slug := slug;
                                     dom_primary := false |})
                   (unregisteredDomains ml p w)) (domainTable w)
         else domainTable w)
    ∧ touchedDomains p w'
      = (if 0 <? length (selectedDomains ml)
         then set_add (touchedDomains p w) (selectedDomains ml)
         else touchedDomains p w)
    ∧ linkTable w' = linkTable w ∧ tagTable w' = tagTable w
    ∧ projectTable w' = projectTable w
    ∧ (∀ k, k ≠ redisKeyOf p +:+ ":domains" → redis w' !! k = redis w !! k).
Proof.
  unfold process_domains. erewrite bind_Ok by reflexivity.
  fold (unregisteredDomains ml p w). set (new := unregisteredDomains ml p w).
  assert (Hfirst : ∃ w1,
    (if 0 <? length new
     then modify (upd_domainTable (createMany_skipDuplicates same_domain
            (map (fun slug => {| dom_projectId := workspaceId p; dom_slug := slug;
                                 dom_primary := false |}) new))) ;;
          for_each (fun d => modify (emit (EvAddDomainToVercel d))) new ;;
          for_each (fun d => modify (emit (EvCreateLink (workspaceId p) (userId p) d "_root")))
            new
     else mret tt) w = (Ok tt, w1)
    ∧ log w1 = log w ++ map EvAddDomainToVercel new
                 ++ map (fun d => EvCreateLink (workspaceId p) (userId p) d "_root") new
    ∧ domainTable w1
      = (if 0 <? length new
         then createMany_skipDuplicates same_domain
                (map (fun slug => {| dom_projectId := workspaceId p; dom_slug := slug;
                                     dom_primary := false |}) new) (domainTable w)
         else domainTable w)
    ∧ redis w1 = redis w ∧ linkTable w1 = linkTable w ∧ tagTable w1 = tagTable w
    ∧ projectTable w1 = projectTable w).
  { destruct (0 <? length new) eqn:Hlen.
    - erewrite bind_Ok by reflexivity.
      set (w0 := upd_domainTable _ w).
      destruct (for_each_emit_log EvAddDomainToVercel new w0)
        as (wa & Ha & Hla & Hra & Hda & Hlka & Hta & Hpa).
      destruct (for_each_emit_log
                  (fun d => EvCreateLink (workspaceId p) (userId p) d "_root") new wa)
        as (wb & Hb & Hlb & Hrb & Hdb & Hlkb & Htb & Hpb).
      exists wb. split; [erewrite bind_Ok by exact Ha; exact Hb|].
      rewrite Hlb, Hla, Hrb, Hra, Hdb, Hda, Hlkb, Hlka, Htb, Hta, Hpb, Hpa.
      simpl. by rewrite <- ?app_assoc.
    - apply ltb_length_false in Hlen. rewrite Hlen. exists w. simpl.
      by rewrite app_nil_r. }
  destruct Hfirst as (w1 & Hrun1 & Hlog1 & Hdom1 & Hred1 & Hlk1 & Ht1 & Hp1).
  erewrite bind_Ok by exact Hrun1.
  unfold touchedDomains.
  destruct (0 <? length (selectedDomains ml)).
  - eexists. split; [reflexivity|]. simpl.
    rewrite lookup_insert_eq, Hlog1, Hred1, <- ?app_assoc.
    repeat split; try done. intros k Hk. by rewrite lookup_insert_ne.
  - exists w1. rewrite Hlog1, Hred1, <- ?app_assoc. by rewrite ?app_nil_r.
Qed.


Lemma process_tags_run ml p w :
  ∃ w', process_tags ml p w = (Ok tt, w')
        ∧ redis w' = redis w ∧ log w' = log w ∧ linkTable w' = linkTable w
        ∧ domainTable w' = domainTable w ∧ projectTable w' = projectTable w.
Proof.
  unfold process_tags. erewrite bind_Ok by reflexivity.
  match goal with |- context [if ?b then _ else _] => destruct b end; by eexists.
Qed.

Lemma record_results_domains p processed w :
  touchedDomains p (snd (record_results p processed w)) = touchedDomains p w.
Proof.
  destruct (job_keys_distinct (redisKeyOf p)) as (_ & _ & _ & _ & Hdf & Hdc).
  unfold record_results, touchedDomains.
  destruct (0 <? length (validLinks processed));
    destruct (0 <? length (errorLinks processed)); simpl;
    by rewrite ?lookup_insert_ne by done.
Qed.

(** A non-empty batch reaches the link phase in a world whose link and
    project tables and job keys, the touched domains apart, are the
    initial ones. *)
Lemma processMappedLinks_reaches_links ml p w :
  ml ≠ [] →
  ∃ w1,
    processMappedLinks ml p w = process_links ml p w1
    ∧ linkTable w1 = linkTable w ∧ projectTable w1 = projectTable w
    ∧ touchedDomains p w1
      = (if 0 <? length (selectedDomains ml)
         then set_add (touchedDomains p w) (selectedDomains ml)
         else touchedDomains p w)
    ∧ (∀ k, k ≠ redisKeyOf p +:+ ":domains" → redis w1 !! k = redis w !! k).
Proof.
  intros Hne. unfold processMappedLinks.
  destruct ml as [|r ml']; [done|].
  change (length (r :: ml') =? 0) with false. cbv iota.
  set (ml := r :: ml').
  erewrite bind_Ok by reflexivity.
  set (w0 := emit _ w).
  destruct (process_tags_run ml p w0) as (wt & Ht & Hrt & _ & Hlt & _ & Hpt).
  destruct (process_domains_run ml p wt)
    as (wd & Hd & _ & _ & Htouched & Hld & _ & Hpd & Hother).
  exists wd. split; [erewrite bind_Ok by exact Ht; erewrite bind_Ok by exact Hd; done|].
  split; [by rewrite Hld, Hlt|]. split; [by rewrite Hpd, Hpt|]. split.
  - rewrite Htouched. unfold touchedDomains. by rewrite Hrt.
  - intros k Hk. by rewrite Hother, Hrt.
Qed.

(** X8. Whatever the outcome of [processMappedLinks] -- also when the
    workspace lookup or the schema throws afterwards -- the job's set of
    touched domains then holds every non-empty domain of the batch's
    successful rows, keeps the members it had, and stays free of
    duplicates. *)
Theorem X8_touched_domains_recorded_whatever_the_outcome
    (ml : list MapperResult) (p : Payload) (w : World) :
  Forall (fun d => d ∈ touchedDomains p (snd (processMappedLinks ml p w)))
    (selectedDomains ml)
  ∧ Forall (fun d => d ∈ touchedDomains p (snd (processMappedLinks ml p w)))
      (touchedDomains p w)
  ∧ Forall (fun d => d ∈ touchedDomains p w ∨ d ∈ selectedDomains ml)
      (touchedDomains p (snd (processMappedLinks ml p w)))
  ∧ (NoDup (touchedDomains p w) →
     NoDup (touchedDomains p (snd (processMappedLinks ml p w)))).
Proof.
  assert (Hafter : touchedDomains p (snd (processMappedLinks ml p w))
                   = if 0 <? length (selectedDomains ml)
                     then set_add (touchedDomains p w) (selectedDomains ml)
                     else touchedDomains p w).
  { destruct ml as [|r ml'] eqn:Eml; [done|]. rewrite <- Eml.
    destruct (processMappedLinks_reaches_links ml p w)
      as (w1 & -> & _ & _ & Htouched & _); [by rewrite Eml|].
    rewrite process_links_run. cbv zeta.
    destruct (List.find _ (projectTable w1)) as [pr|]; [|exact Htouched].
    destruct (parsed_bodies _ _) as [bodies|]; [|exact Htouched].
    rewrite record_results_domains. exact Htouched. }
  rewrite Hafter. destruct (0 <? length (selectedDomains ml)) eqn:Hlen.
  - repeat split.
    + apply Forall_forall. intros d Hd. apply set_add_elem. by right.
    + apply Forall_forall. intros d Hd. apply set_add_elem. by left.
    + apply Forall_forall. intros d Hd. by apply set_add_elem.
    + apply set_add_NoDup.
  - apply ltb_length_false in Hlen. rewrite Hlen. repeat split; try done.
    + apply Forall_forall. intros d Hd. exact Hd.
    + apply Forall_forall. intros d Hd. left. exact Hd.
Qed.

(** X9. The failed-rows list and the created counter of a job only ever
    grow under [processMappedLinks]: the old list is a prefix of the new
    one and the counter never decreases. An invocation that stops at one
    of the two throws placed before the insert -- the workspace is not on
    record, or the schema refuses a survivor of the duplicate check --
    leaves both, and the link table, exactly as they were. *)
Theorem X9_counters_grow_and_early_throws_record_nothing
    (ml : list MapperResult) (p : Payload) (w : World) :
  failedRows p w `prefix_of` failedRows p (snd (processMappedLinks ml p w))
  ∧ createdCount p w ≤ createdCount p (snd (processMappedLinks ml p w))
  ∧ (ml ≠ [] →
     List.find (fun x => String.eqb (proj_id x) (workspaceId p)) (projectTable w) = None
     ∨ (∃ d, d ∈ linksToCreate (workspaceId p) (linkTable w) ml
             ∧ createLinkBodySchema_parse (body_of (folderId p) d) = None) →
     (∃ msg, fst (processMappedLinks ml p w) = Thrown msg)
     ∧ failedRows p (snd (processMappedLinks ml p w)) = failedRows p w
     ∧ createdCount p (snd (processMappedLinks ml p w)) = createdCount p w
     ∧ linkTable (snd (processMappedLinks ml p w)) = linkTable w).
Proof.
  assert (Hgrow :
    failedRows p w `prefix_of` failedRows p (snd (processMappedLinks ml p w))
    ∧ createdCount p w ≤ createdCount p (snd (processMappedLinks ml p w))
    ∧ match fst (processMappedLinks ml p w) with
      | Ok _ => True
      | Thrown _ =>
          failedRows p (snd (processMappedLinks ml p w)) = failedRows p w
          ∧ createdCount p (snd (processMappedLinks ml p w)) = createdCount p w
          ∧ linkTable (snd (processMappedLinks ml p w)) = linkTable w
      end).
  { destruct (job_keys_distinct (redisKeyOf p)) as (_ & _ & _ & _ & Hdf & Hdc).
    destruct ml as [|r ml'] eqn:Eml; [done|]. rewrite <- Eml.
    destruct (processMappedLinks_reaches_links ml p w)
      as (w1 & -> & Hl & _ & _ & Hother); [by rewrite Eml|].
    assert (Hf1 : failedRows p w1 = failedRows p w)
      by (unfold failedRows; rewrite Hother; [done|by apply not_eq_sym]).
    assert (Hc1 : createdCount p w1 = createdCount p w)
      by (unfold createdCount; rewrite Hother; [done|by apply not_eq_sym]).
    assert (Hfe : ∀ e, failedRows p (emit e w1) = failedRows p w) by (intros; exact Hf1).
    assert (Hce : ∀ e, createdCount p (emit e w1) = createdCount p w) by (intros; exact Hc1).
    rewrite process_links_run. cbv zeta.
    destruct (List.find _ (projectTable w1)) as [pr|];
      [|cbn [fst snd]; by rewrite Hfe, Hce].
    destruct (parsed_bodies _ _) as [bodies|];
      [|cbn [fst snd]; by rewrite Hfe, Hce].
    match goal with |- context [record_results p ?pr ?w2] =>
      destruct (record_results_run p pr w2)
        as (w3 & -> & _ & _ & _ & _ & Hfail & Hcreated & _) end.
    cbn [fst snd]. rewrite Hfail, Hcreated, Hfe, Hce.
    split; [by apply prefix_app_r|]. split; [lia|done]. }
  destruct Hgrow as (Hprefix & Hle & Hthrown).
  split; [exact Hprefix|]. split; [exact Hle|].
  intros Hne Hcase.
  assert (Hstops : ∃ msg, fst (processMappedLinks ml p w) = Thrown msg).
  { destruct (processMappedLinks_prefix ml p w Hne)
      as (w1 & (_ & _ & Hp & Hl & _) & ->).
    rewrite process_links_run. cbv zeta. rewrite Hp, Hl.
    destruct Hcase as [-> | (d & Hd & Hrefused)]; [by eexists|].
    destruct (List.find _ (projectTable w)); [|by eexists].
    destruct (parsed_bodies _ _) as [bodies|] eqn:Hb; [|by eexists].
    apply parsed_bodies_Forall2 in Hb.
    apply list_elem_of_lookup in Hd as (i & Hi).
    destruct (Forall2_lookup_l _ _ _ _ _ Hb Hi) as (b & _ & Hparse). congruence. }
  destruct Hstops as (msg & Hmsg). rewrite Hmsg in Hthrown.
  split; [by exists msg|exact Hthrown].
Qed.

(** X10. One surviving candidate that the schema refuses makes the whole
    invocation throw before anything is validated: no link of the batch,
    refused or not, is inserted, counted or listed as failed. *)
Theorem X10_one_refused_body_aborts_the_batch (ml : list MapperResult)
    (p : Payload) (w : World) (pr : Project) (d : LinkData) :
  List.find (fun x => String.eqb (proj_id x) (workspaceId p)) (projectTable w) = Some pr →
  d ∈ linksToCreate (workspaceId p) (linkTable w) ml →
  createLinkBodySchema_parse (body_of (folderId p) d) = None →
  ∃ w', processMappedLinks ml p w = (Thrown "ZodError", w')
        ∧ linkTable w' = linkTable w
        ∧ failedRows p w' = failedRows p w
        ∧ createdCount p w' = createdCount p w
        ∧ ∀ links, EvBulkCreateLinks links ∉ drop (length (log w)) (log w').
Proof.
  intros Hfind Hd Hrefused.
  destruct (job_keys_distinct (redisKeyOf p)) as (_ & _ & _ & _ & Hdf & Hdc).
  assert (Hne : ml ≠ []).
  { intros ->. by apply elem_of_nil in Hd. }
  assert (Hnone : parsed_bodies (folderId p)
                    (linksToCreate (workspaceId p) (linkTable w) ml) = None).
  { destruct (parsed_bodies _ _) as [bodies|] eqn:Hb; [|done].
    apply parsed_bodies_Forall2 in Hb.
    apply list_elem_of_lookup in Hd as (i & Hi).
    destruct (Forall2_lookup_l _ _ _ _ _ Hb Hi) as (b & _ & Hparse). congruence. }
  destruct (processMappedLinks_prefix ml p w Hne)
    as (w1 & (_ & _ & Hp & Hl & Hother & evs & Hlog & Hside) & ->).
  rewrite process_links_run. cbv zeta. rewrite Hp, Hl, Hfind, Hnone.
  eexists. split; [reflexivity|]. simpl. split; [done|].
  split; [unfold failedRows; simpl; rewrite Hother; [done|by apply not_eq_sym]|].
  split; [unfold createdCount; simpl; rewrite Hother; [done|by apply not_eq_sym]|].
  intros links Hin. rewrite Hlog, <- app_assoc, drop_app_length in Hin.
  apply elem_of_app in Hin as [Hin|Hin].
  - rewrite Forall_forall in Hside. by specialize (Hside _ Hin).
  - apply list_elem_of_singleton in Hin. discriminate.
Qed.

End MaterializerExtras.

Section AccountingExtras.
Context `{Externals}.

(** X11. An invocation of [processMappedLinks] that returns has accounted
    for every survivor of the duplicate check exactly once: the created
    counter and the failed-rows list together grow by the number of links
    handed to validation. *)
Theorem X11_every_survivor_is_created_or_listed (ml : list MapperResult)
    (p : Payload) (w w' : World) :
  processMappedLinks ml p w = (Ok tt, w') →
  createdCount p w' + length (failedRows p w')
  = createdCount p w + length (failedRows p w)
    + length (linksToCreate (workspaceId p) (linkTable w) ml).
Proof.
  intros Hrun.
  destruct ml as [|r ml'] eqn:Eml.
  { injection Hrun as <-.
    change (createdCount p w + length (failedRows p w)
            = createdCount p w + length (failedRows p w) + 0). lia. }
  rewrite <- Eml in *.
  destruct (processMappedLinks_prefix ml p w)
    as (w1 & (_ & _ & Hp & Hl & Hother & _) & Heq); [by rewrite Eml|].
  destruct (job_keys_distinct (redisKeyOf p)) as (_ & _ & _ & _ & Hdf & Hdc).
  assert (Hf1 : failedRows p w1 = failedRows p w)
    by (unfold failedRows; rewrite Hother; [done|by apply not_eq_sym]).
  assert (Hc1 : createdCount p w1 = createdCount p w)
    by (unfold createdCount; rewrite Hother; [done|by apply not_eq_sym]).
  rewrite Heq, process_links_run in Hrun. cbv zeta in Hrun. rewrite Hl in Hrun.
  destruct (List.find _ (projectTable w1)) as [pr|]; [|discriminate].
  destruct (parsed_bodies _ _) as [bodies|] eqn:Hb; [|discriminate].
  apply parsed_bodies_length in Hb.
  match type of Hrun with record_results p ?pr ?w2 = _ =>
    destruct (record_results_run p pr w2)
      as (w3 & Hrec & _ & _ & _ & _ & Hfail & Hcreated & _);
    pose proof (valid_error_partition pr) as Hpart end.
  rewrite Hrec in Hrun. injection Hrun as <-.
  rewrite Hfail, Hcreated, length_app.
  change (failedRows p (emit ?e w1)) with (failedRows p w1).
  change (createdCount p (emit ?e w1)) with (createdCount p w1).
  rewrite Hf1, Hc1. unfold process_all in Hpart. rewrite length_map in Hpart.
  unfold process_all. lia.
Qed.

End AccountingExtras.

Section RouteExtras.
Context `{Externals}.

(** X12. Once the file of a job is gone -- never uploaded, or deleted by
    the invocation that finished the job -- every further delivery is
    answered with an error and only writes to the cron log: no key, file,
    queue message or link is created by it. A payload with an empty id or
    URL is refused with the first message, before storage is asked. *)
Theorem X12_deliveries_without_file_only_log (p : Payload) (w : World) (n : nat) :
  files w !! file_url p = None →
  fst (POST p w) = ResponseError (early_message p)
  ∧ log (invocations n p w)
    = log w ++ replicate n (EvLogCron ("Error importing CSV links: " +:+ early_message p))
  ∧ redis (invocations n p w) = redis w
  ∧ files (invocations n p w) = files w
  ∧ queue (invocations n p w) = queue w
  ∧ linkTable (invocations n p w) = linkTable w.
Proof.
  intros Hnone. split; [by rewrite POST_without_file|].
  revert w Hnone. induction n as [|n IH]; intros w Hnone.
  - simpl. by rewrite app_nil_r.
  - simpl invocations. rewrite POST_without_file by done. cbn [snd].
    destruct (IH (emit (EvLogCron ("Error importing CSV links: " +:+ early_message p)) w))
      as (Hlog & Hr & Hf & Hq & Hl); [done|].
    rewrite Hlog, Hr, Hf, Hq, Hl. simpl. by rewrite <- app_assoc.
Qed.

(** X13. The cursor is advanced while the rows are read, before anything
    is done with them: a delivery for a workspace that is not on record
    answers with an error after moving the stored cursor past its whole
    batch, without creating a link or listing a failure for any of its
    rows, and with the file and the queue as they were; a redelivery
    starts after the batch. *)
Theorem X13_unknown_workspace_skips_the_batch (p : Payload) (w : World)
    (rows : list Row) :
  id p ≠ "" → file_url p ≠ "" →
  files w !! file_url p = Some rows →
  storedCursor p w < length rows →
  List.find (fun x => String.eqb (proj_id x) (workspaceId p)) (projectTable w) = None →
  ∃ w',
    POST p w = (ResponseError "No Project found", w')
    ∧ storedCursor p w' = storedCursor p w + length (batch_rows p w rows)
    ∧ batch_rows p w' rows
      = take MAX_ROWS_PER_EXECUTION
          (drop (storedCursor p w + length (batch_rows p w rows)) rows)
    ∧ files w' = files w ∧ queue w' = queue w
    ∧ linkTable w' = linkTable w
    ∧ failedRows p w' = failedRows p w
    ∧ createdCount p w' = createdCount p w.
Proof.
  intros Hid Hurl Hfile Hlt Hfind.
  destruct (job_keys_distinct (redisKeyOf p)) as (Hcc & Hfc & Hdc & Hcf & Hdf & Hdcr).
  unfold POST. rewrite (POST_try_run p w rows Hid Hurl Hfile). cbv zeta.
  set (c := storedCursor p w) in *. set (batch := batch_rows p w rows).
  assert (Hlen : length batch = (length rows - c) `min` MAX_ROWS_PER_EXECUTION)
    by (unfold batch, batch_rows; fold c; rewrite length_take, length_drop; lia).
  set (wp := persist_cursor (cursorKey p) c (length batch) w).
  destruct (persist_cursor_others (cursorKey p) c (length batch) w)
    as (Hfp & Hqp & Hpp & Hlp & _).
  fold wp in Hfp, Hqp, Hpp, Hlp.
  assert (Hrp : redis wp = <[cursorKey p := RInt (c + length batch)]> (redis w)).
  { unfold wp. rewrite persist_cursor_redis.
    destruct (length batch) eqn:E; [|done]. unfold MAX_ROWS_PER_EXECUTION in Hlen. lia. }
  set (ml := map _ batch).
  assert (Hne : ml ≠ []).
  { unfold ml. destruct batch; [|done]. unfold MAX_ROWS_PER_EXECUTION in Hlen.
    simpl in Hlen. lia. }
  destruct (processMappedLinks_prefix ml p wp Hne)
    as (w1 & (Hf1 & Hq1 & Hp1 & Hl1 & Hother & _) & ->).
  rewrite process_links_run. cbv zeta. rewrite Hp1, Hpp, Hfind.
  eexists. split; [reflexivity|].
  assert (Hcur : storedCursor p
                   (emit (EvLogCron ("Error importing CSV links: " +:+ "No Project found"))
                      (emit (EvConsoleLog (LogExistingLinks
                         (existingLinks (workspaceId p) (candidates ml) (linkTable w1)))) w1))
                 = c + length batch).
  { unfold storedCursor at 1. simpl redis. unfold cursorKey.
    rewrite Hother by (by apply not_eq_sym). fold (cursorKey p).
    by rewrite Hrp, lookup_insert_eq. }
  split; [exact Hcur|].
  split; [unfold batch_rows at 1; by rewrite Hcur|].
  simpl. repeat split; try congruence.
  - unfold failedRows. simpl. rewrite Hother by (by apply not_eq_sym).
    rewrite Hrp. unfold cursorKey. by rewrite lookup_insert_ne by (by apply not_eq_sym).
  - unfold createdCount. simpl. rewrite Hother by (by apply not_eq_sym).
    rewrite Hrp. unfold cursorKey. by rewrite lookup_insert_ne by (by apply not_eq_sym).
Qed.

(** X14. A delivery whose stored cursor is at or past the end of the file
    -- an empty file included -- maps no row, never looks the workspace
    up, and finalizes at once: it only logs, sends the summary e-mail with
    the counters as they stand, deletes the four keys of the job and the
    file, and leaves the queue and the tables alone. *)
Theorem X14_exhausted_file_finalizes_at_once (p : Payload) (w : World)
    (rows : list Row) :
  id p ≠ "" → file_url p ≠ "" →
  files w !! file_url p = Some rows →
  length rows ≤ storedCursor p w →
  ∃ w',
    POST p w = (ResponseOK, w')
    ∧ log w' = log w ++ [EvConsoleLog LogNoLinks; EvConsoleLog (LogIsComplete true)]
                     ++ finalize_events p w
    ∧ files w' = delete (file_url p) (files w)
    ∧ queue w' = queue w
    ∧ linkTable w' = linkTable w ∧ tagTable w' = tagTable w
    ∧ domainTable w' = domainTable w
    ∧ redis w' !! (redisKeyOf p +:+ ":cursor") = None
    ∧ redis w' !! (redisKeyOf p +:+ ":created") = None
    ∧ redis w' !! (redisKeyOf p +:+ ":failed") = None
    ∧ redis w' !! (redisKeyOf p +:+ ":domains") = None.
Proof.
  intros Hid Hurl Hfile Hle.
  unfold POST. rewrite (POST_try_run p w rows Hid Hurl Hfile). cbv zeta.
  assert (Hbatch : batch_rows p w rows = [])
    by (unfold batch_rows; by rewrite drop_ge).
  rewrite Hbatch.
  change (persist_cursor (cursorKey p) (storedCursor p w) (length []) w) with w.
  change (processMappedLinks (map _ []) p w) with (Ok tt, emit (EvConsoleLog LogNoLinks) w).
  cbv iota beta.
  rewrite completes_at_end by lia.
  set (wl := emit _ (emit _ w)).
  destruct (finalize_run p wl) as (wf & Hrun & Hlog & Hq & _ & Hf & Hk1 & Hk2 & Hk3 & Hk4).
  destruct (finalize_tables p wl) as (Hl & Ht & Hd).
  rewrite Hrun in Hl, Ht, Hd |- *. exists wf. split; [reflexivity|].
  split; [rewrite Hlog; unfold wl; simpl; by rewrite <- !app_assoc|].
  repeat split; done.
Qed.

(** One job run to its end, by induction on the number of full batches
    still ahead. *)
Lemma job_run p rows pr n :
  id p ≠ "" → file_url p ≠ "" →
  (∀ d, d ∈ candidates (map (fun r => mapCsvRowToLink r (mapping p)) rows) →
        is_Some (createLinkBodySchema_parse (body_of (folderId p) d))) →
  ∀ w,
    files w !! file_url p = Some rows →
    List.find (fun x => String.eqb (proj_id x) (workspaceId p)) (projectTable w) = Some pr →
    (∀ k row,
       rows !! (storedCursor p w + MAX_ROWS_PER_EXECUTION * S k) = Some row →
       complete (storedCursor p w + MAX_ROWS_PER_EXECUTION * S k) (DataRow row) = false) →
    length rows - storedCursor p w ≤ MAX_ROWS_PER_EXECUTION * S n →
    MAX_ROWS_PER_EXECUTION * n < length rows - storedCursor p w ∨ n = 0 →
    (∀ k, k ≤ n → files (invocations k p w) !! file_url p = Some rows)
    ∧ files (invocations (S n) p w) !! file_url p = None
    ∧ redis (invocations (S n) p w) !! (redisKeyOf p +:+ ":cursor") = None
    ∧ redis (invocations (S n) p w) !! (redisKeyOf p +:+ ":created") = None
    ∧ redis (invocations (S n) p w) !! (redisKeyOf p +:+ ":failed") = None
    ∧ redis (invocations (S n) p w) !! (redisKeyOf p +:+ ":domains") = None
    ∧ queue (invocations (S n) p w) = queue w ++ replicate n (continuation p)
    ∧ ∃ evs, log (invocations (S n) p w) = log w ++ evs
             ∧ cursor_writes (cursorKey p) evs
               = seq (S (storedCursor p w)) (length rows - storedCursor p w).
Proof.
  intros Hid Hurl Haccept.
  assert (Hacc : ∀ w d,
            d ∈ candidates (map (fun r => mapCsvRowToLink r (mapping p)) (batch_rows p w rows)) →
            is_Some (createLinkBodySchema_parse (body_of (folderId p) d))).
  { intros w d Hd. apply Haccept. unfold batch_rows in Hd.
    by apply candidates_of_batch in Hd. }
  unfold MAX_ROWS_PER_EXECUTION.
  induction n as [|n IH]; intros w Hfile Hfind Hnolength Hup Hlow.
  - destruct (POST_ok p w rows pr Hid Hurl Hfile Hfind (Hacc w))
      as (w' & evs & processed & Hrun & Hlog & Hwrites & _ & _ & _ & Hbranch).
    rewrite completes_at_end in Hbranch by (unfold MAX_ROWS_PER_EXECUTION; lia).
    destruct Hbranch as (Hq & Hf & Hk1 & Hk2 & Hk3 & Hk4 & _).
    simpl invocations. rewrite Hrun. cbn [snd].
    split; [intros k Hk; by replace k with 0 by lia|].
    repeat (split; [done|]). split; [by rewrite Hq, app_nil_r|].
    exists evs. split; [done|]. rewrite Hwrites. f_equal.
    unfold batch_rows, MAX_ROWS_PER_EXECUTION. rewrite length_take, length_drop. lia.
  - destruct Hlow as [Hlow|]; [|done].
    destruct (POST_ok p w rows pr Hid Hurl Hfile Hfind (Hacc w))
      as (w1 & evs & processed & Hrun & Hlog & Hwrites & Hp1 & _ & _ & Hbranch).
    destruct (lookup_lt_is_Some_2 rows (storedCursor p w + MAX_ROWS_PER_EXECUTION))
      as [row Hrow]; [unfold MAX_ROWS_PER_EXECUTION; lia|].
    assert (Hfalse : complete (storedCursor p w + MAX_ROWS_PER_EXECUTION) (DataRow row)
                     = false).
    { change MAX_ROWS_PER_EXECUTION with 25 in *.
      replace (storedCursor p w + 25) with (storedCursor p w + 25 * 1) in * by lia.
      by apply (Hnolength 0). }
    rewrite (completes_at_row _ _ _ Hrow), Hfalse in Hbranch.
    destruct Hbranch as (Hq & Hf & Hc & _).
    unfold MAX_ROWS_PER_EXECUTION in Hc.
    destruct (IH w1) as (Hkept & Hgone & Hk1 & Hk2 & Hk3 & Hk4 & Hqueue & evs' & Hlog' & Hw');
      [by rewrite Hf|by rewrite Hp1| |lia|destruct n; [by right|left; lia]|].
    { intros k row' Hrow'. rewrite Hc in Hrow' |- *.
      replace (storedCursor p w + 25 + 25 * S k)
        with (storedCursor p w + 25 * S (S k)) in Hrow' |- * by lia.
      by apply (Hnolength (S k)). }
    assert (Hstep : ∀ k, invocations (S k) p w = invocations k p w1)
      by (intros k; simpl; by rewrite Hrun).
    rewrite Hstep.
    split.
    { intros [|k] Hk; [done|]. rewrite Hstep. apply Hkept. lia. }
    repeat (split; [done|]).
    split; [rewrite Hqueue, Hq, <- app_assoc; done|].
    exists (evs ++ evs'). split; [by rewrite Hlog', Hlog, app_assoc|].
    rewrite cursor_writes_app, Hwrites, Hw', Hc.
    assert (Hb : length (batch_rows p w rows) = 25)
      by (unfold batch_rows, MAX_ROWS_PER_EXECUTION; rewrite length_take, length_drop; lia).
    rewrite Hb.
    replace (length rows - storedCursor p w)
      with (25 + (length rows - (storedCursor p w + 25))) by lia.
    rewrite seq_app. repeat f_equal; lia.
Qed.

(** X15. A job whose workspace is on record, whose candidates the schema
    accepts, and in which no row on which a parse is aborted has a
    [length] cell that the row counter has reached (so any file without a
    column headed [length]) runs to its end in one delivery more than the
    number of full batches of 25 that fit strictly before the last
    remaining row: the file stays
    in place until the last of these deliveries, which deletes it
    together with the four keys of the job; every earlier one publishes
    one continuation, and together they persist each cursor value from the
    stored cursor's successor to the number of rows exactly once, in
    order. *)
Theorem X15_job_completes_after_ceil_deliveries (p : Payload) (rows : list Row)
    (w : World) (pr : Project) :
  id p ≠ "" → file_url p ≠ "" →
  files w !! file_url p = Some rows →
  List.find (fun x => String.eqb (proj_id x) (workspaceId p)) (projectTable w) = Some pr →
  (∀ d, d ∈ candidates (map (fun r => mapCsvRowToLink r (mapping p)) rows) →
        is_Some (createLinkBodySchema_parse (body_of (folderId p) d))) →
  (∀ k row,
     rows !! (storedCursor p w + MAX_ROWS_PER_EXECUTION * S k) = Some row →
     complete (storedCursor p w + MAX_ROWS_PER_EXECUTION * S k) (DataRow row) = false) →
  let remaining := length rows - storedCursor p w in
  let n := (remaining - 1) / MAX_ROWS_PER_EXECUTION in
  (∀ k, k ≤ n → files (invocations k p w) !! file_url p = Some rows)
  ∧ files (invocations (S n) p w) !! file_url p = None
  ∧ redis (invocations (S n) p w) !! (redisKeyOf p +:+ ":cursor") = None
  ∧ redis (invocations (S n) p w) !! (redisKeyOf p +:+ ":created") = None
  ∧ redis (invocations (S n) p w) !! (redisKeyOf p +:+ ":failed") = None
  ∧ redis (invocations (S n) p w) !! (redisKeyOf p +:+ ":domains") = None
  ∧ queue (invocations (S n) p w) = queue w ++ replicate n (continuation p)
  ∧ cursor_history p w (invocations (S n) p w)
    = seq (S (storedCursor p w)) remaining.
Proof.
  intros Hid Hurl Hfile Hfind Haccept Hnolength remaining n.
  assert (Hdiv : remaining - 1 = 25 * n + (remaining - 1) mod 25)
    by apply Nat.div_mod_eq.
  assert (Hmod : (remaining - 1) mod 25 < 25) by (apply Nat.mod_upper_bound; lia).
  destruct (job_run p rows pr n Hid Hurl Haccept w Hfile Hfind Hnolength)
    as (Hkept & Hgone & Hk1 & Hk2 & Hk3 & Hk4 & Hq & evs & Hlog & Hw).
  { unfold MAX_ROWS_PER_EXECUTION. fold remaining. lia. }
  { unfold MAX_ROWS_PER_EXECUTION. fold remaining. destruct n; [by right|left; lia]. }
  repeat (split; [done|]).
  unfold cursor_history. by rewrite Hlog, drop_app_length.
Qed.

End RouteExtras.

Lemma append_inj_r (t a b : string) : a +:+ t = b +:+ t → a = b.
Proof.
  assert (Hlen : ∀ x y : string, String.length (x +:+ y) = String.length x + String.length y).
  { induction x as [|c x IH]; intros y; simpl; [done|]. by rewrite IH. }
  revert b. induction a as [|c a IH]; intros [|c' b] Heq; simpl in Heq.
  - done.
  - apply (f_equal String.length) in Heq. simpl in Heq. rewrite !Hlen in Heq.
    simpl in Heq. lia.
  - apply (f_equal String.length) in Heq. simpl in Heq. rewrite !Hlen in Heq.
    simpl in Heq. lia.
  - injection Heq as -> Heq. f_equal. by apply IH.
Qed.

Section SchedulerExtras.
Context `{Externals}.

Lemma completionUrl_inj link link' :
  completionUrl link = completionUrl link' → link_id link = link_id link'.
Proof.
  unfold completionUrl. intros Heq.
  apply append_inj_l in Heq. apply append_inj_l in Heq.
  by apply append_inj_r in Heq.
Qed.

Lemma filter_filter_same {A} (f : A → bool) l :
  List.filter f (List.filter f l) = List.filter f l.
Proof.
  induction l as [|x l IH]; [done|]. simpl.
  destruct (f x) eqn:E; simpl; rewrite ?E, IH; done.
Qed.

Lemma filter_other_url u v (q : list QMessage) :
  u ≠ v →
  List.filter (fun m => String.eqb (q_url m) v)
    (List.filter (fun m => negb (String.eqb (q_url m) u)) q)
  = List.filter (fun m => String.eqb (q_url m) v) q.
Proof.
  intros Hne. induction q as [|m q IH]; [done|]. simpl.
  destruct (String.eqb_spec (q_url m) u) as [Hu|Hu]; simpl.
  - destruct (String.eqb_spec (q_url m) v) as [Hv|Hv]; [congruence|done].
  - by rewrite IH.
Qed.

(** X16. Whatever a call of [scheduleTestCompletion] does, it touches
    only queue messages addressed to its own link's completion URL. In
    the state left by the cancellation alone (where a call stops that
    publishes nothing) and in the state left by the whole call, the other
    messages are kept, in order, the pending completion messages of a link
    with another id are exactly what they were, and no key, file or link
    has been written. *)
Theorem X16_scheduler_touches_only_its_own_messages (link : ExpandedLink)
    (env : CallEnv) (w w' : World) :
  w' = snd (cancel_scheduled (cancel_response env) (completionUrl link) w)
  ∨ w' = snd (scheduleTestCompletion link env w) →
  List.filter (fun m => negb (String.eqb (q_url m) (completionUrl link))) (queue w')
  = List.filter (fun m => negb (String.eqb (q_url m) (completionUrl link))) (queue w)
  ∧ (∀ other, link_id other ≠ link_id link →
              outstanding other w' = outstanding other w)
  ∧ redis w' = redis w ∧ files w' = files w ∧ linkTable w' = linkTable w.
Proof.
  intros Hw'.
  assert (Hcancel : ∃ wc,
    cancel_scheduled (cancel_response env) (completionUrl link) w = (Ok tt, wc)
    ∧ (queue wc = queue w
       ∨ queue wc = List.filter (fun m => negb (String.eqb (q_url m) (completionUrl link)))
                      (queue w))
    ∧ redis wc = redis w ∧ files wc = files w ∧ linkTable wc = linkTable w).
  { unfold cancel_scheduled. destruct (cancel_response env) as [|[] ?];
      eexists; (split; [reflexivity|]); simpl; auto. }
  destruct Hcancel as (wc & Hc & Hqc & Hrc & Hfc & Hlc).
  assert (Hrest : ∃ wr,
    scheduleTestCompletion link env w = (Ok tt, wr)
    ∧ (queue wr = queue wc
       ∨ ∃ m, q_url m = completionUrl link ∧ queue wr = queue wc ++ [m])
    ∧ redis wr = redis wc ∧ files wr = files wc ∧ linkTable wr = linkTable wc).
  { unfold scheduleTestCompletion. erewrite bind_Ok by exact Hc.
    destruct (testVariants link); [|eexists; split; [reflexivity|auto]].
    destruct (testCompletedAt link) as [t|]; [|eexists; split; [reflexivity|auto]].
    destruct (now_compared env <? t)%Z; [|eexists; split; [reflexivity|auto]].
    eexists; split; [reflexivity|]. simpl.
    split; [right; eexists; split; [|reflexivity]; reflexivity|auto]. }
  destruct Hrest as (wr & Hrun & Hq & Hr & Hf & Hl).
  assert (Hwc : List.filter (fun m => negb (String.eqb (q_url m) (completionUrl link)))
                  (queue wc)
                = List.filter (fun m => negb (String.eqb (q_url m) (completionUrl link)))
                    (queue w))
    by (destruct Hqc as [->| ->]; [done|apply filter_filter_same]).
  assert (Hwr : List.filter (fun m => negb (String.eqb (q_url m) (completionUrl link)))
                  (queue wr)
                = List.filter (fun m => negb (String.eqb (q_url m) (completionUrl link)))
                    (queue w)).
  { destruct Hq as [->|(m & Hm & ->)]; [done|].
    rewrite List.filter_app, Hwc. simpl. rewrite Hm, String.eqb_refl. simpl.
    apply app_nil_r. }
  assert (Hmine : List.filter (fun m => negb (String.eqb (q_url m) (completionUrl link)))
                    (queue w')
                  = List.filter (fun m => negb (String.eqb (q_url m) (completionUrl link)))
                      (queue w)
                  ∧ redis w' = redis w ∧ files w' = files w ∧ linkTable w' = linkTable w).
  { destruct Hw' as [-> | ->].
    - rewrite Hc. cbn [snd]. done.
    - rewrite Hrun. cbn [snd]. repeat split; congruence. }
  destruct Hmine as (Hmine & Hstate).
  split; [exact Hmine|]. split; [|exact Hstate].
  intros other Hother. unfold outstanding.
  assert (Hurl : completionUrl link ≠ completionUrl other)
    by (intros Heq; apply Hother; symmetry; by apply completionUrl_inj).
  rewrite <- (filter_other_url (completionUrl link) (completionUrl other) (queue w') Hurl).
  rewrite <- (filter_other_url (completionUrl link) (completionUrl other) (queue w) Hurl).
  by rewrite Hmine.
Qed.

(** X17. A call for a link with test variants and a completion time still
    ahead publishes one message addressed to the link's completion URL,
    delayed by the remaining milliseconds divided by 1000. If the
    cancellation was answered with an [ok] status this message replaces
    whatever was pending for the link; otherwise the pending messages are
    all kept and the new one is added behind them. *)
Theorem X17_future_completion_is_scheduled_once (link : ExpandedLink)
    (env : CallEnv) (w : World) (vs : list TestVariant) (t : Z) :
  testVariants link = Some vs →
  testCompletedAt link = Some t →
  (now_compared env < t)%Z →
  let m := {| q_url := completionUrl link; q_body := None;
              q_delay := Some (QArith_base.Qmake (t - now_delayed env) 1000) |} in
  ∃ w',
    scheduleTestCompletion link env w = (Ok tt, w')
    ∧ outstanding link w'
      = match cancel_response env with
        | FetchResponse true _ => [m]
        | _ => outstanding link w ++ [m]
        end
    ∧ List.filter (fun e => match e with EvPublish _ => true | _ => false end)
        (drop (length (log w)) (log w'))
      = [EvPublish m].
Proof.
  intros Hvs Ht Hnow m.
  unfold scheduleTestCompletion, cancel_scheduled, outstanding.
  apply Z.ltb_lt in Hnow.
  destruct (cancel_response env) as [|[] ?];
    (erewrite bind_Ok by reflexivity); rewrite Hvs, Ht, Hnow;
    (eexists; split; [reflexivity|]); simpl;
    rewrite ?List.filter_app, ?outstanding_after_cancel; simpl;
    rewrite ?String.eqb_refl; simpl;
    rewrite <- ?app_assoc, drop_app_length; done.
Qed.

End SchedulerExtras.

(** ** The further properties on sample data *)

Section MoreInstances.
Import Sample MoreSamples.
#[local] Existing Instance externals.

Lemma X5_witness :
  data (mapCsvRowToLink row_full mapping_full) = Some data_full
  ∧ title data_full ≠ Some "" ∧ description data_full ≠ Some "".
Proof.
  assert (H1 : data (mapCsvRowToLink row_full mapping_full) = Some data_full)
    by (vm_compute; reflexivity).
  split; [exact H1|].
  destruct (X5_optional_fields_absent_rather_than_empty row_full mapping_full data_full H1)
    as (Ht & Hd & _).
  split; [exact Ht|exact Hd].
Defined.

Lemma X10_witness :
  List.find (fun x => String.eqb (proj_id x) (workspaceId payload0))
    (projectTable (world0 [])) = Some project0
  ∧ data_bad ∈ @linksToCreate strict_externals (workspaceId payload0)
                 (linkTable (world0 [])) refused_batch
  ∧ @createLinkBodySchema_parse strict_externals (body_of (folderId payload0) data_bad)
    = None
  ∧ ∃ w', @processMappedLinks strict_externals refused_batch payload0 (world0 [])
          = (Thrown "ZodError", w')
          ∧ linkTable w' = [].
Proof.
  assert (H1 : List.find (fun x => String.eqb (proj_id x) (workspaceId payload0))
                 (projectTable (world0 [])) = Some project0) by reflexivity.
  assert (H2 : data_bad ∈ @linksToCreate strict_externals (workspaceId payload0)
                            (linkTable (world0 [])) refused_batch).
  { replace (@linksToCreate strict_externals (workspaceId payload0)
               (linkTable (world0 [])) refused_batch)
      with [{| domain := "d.co"; key := "ok"; url := "https://example.com";
               title := None; description := None; tags := None; createdAt := None |};
            data_bad] by (vm_compute; reflexivity).
    rewrite !elem_of_cons. right; by left. }
  assert (H3 : @createLinkBodySchema_parse strict_externals
                 (body_of (folderId payload0) data_bad) = None) by reflexivity.
  split; [exact H1|]. split; [exact H2|]. split; [exact H3|].
  destruct (@X10_one_refused_body_aborts_the_batch strict_externals refused_batch payload0
              (world0 []) project0 data_bad H1 H2 H3) as (w' & Hrun & Hl & _).
  exists w'. split; [exact Hrun|]. rewrite Hl. reflexivity.
Defined.

Lemma X11_witness :
  ∃ w', processMappedLinks mixed_and_taken payload0 (world0 []) = (Ok tt, w')
        ∧ createdCount payload0 w' + length (failedRows payload0 w') = 2.
Proof.
  destruct (processMappedLinks_total mixed_and_taken payload0 (world0 []) project0)
    as (w' & _ & Hrun & _); [reflexivity|intros b; by exists b|].
  exists w'. split; [exact Hrun|].
  rewrite (X11_every_survivor_is_created_or_listed mixed_and_taken payload0 (world0 []) w' Hrun).
  vm_compute. reflexivity.
Defined.

Lemma X12_witness :
  files fileless_world !! file_url payload0 = None
  ∧ fst (POST payload0 fileless_world) = ResponseError "CSV import file not found."
  ∧ log (invocations 2 payload0 fileless_world)
    = [EvLogCron "Error importing CSV links: CSV import file not found.";
       EvLogCron "Error importing CSV links: CSV import file not found."]
  ∧ queue (invocations 2 payload0 fileless_world) = [].
Proof.
  assert (H1 : files fileless_world !! file_url payload0 = None) by reflexivity.
  split; [exact H1|].
  destruct (X12_deliveries_without_file_only_log payload0 fileless_world 2 H1)
    as (Hresp & Hlog & _ & _ & Hq & _).
  split; [exact Hresp|]. split; [exact Hlog|]. exact Hq.
Defined.

Lemma X13_witness :
  id payload0 ≠ "" ∧ file_url payload0 ≠ ""
  ∧ files (orphan_world rows60) !! file_url payload0 = Some rows60
  ∧ storedCursor payload0 (orphan_world rows60) < length rows60
  ∧ List.find (fun x => String.eqb (proj_id x) (workspaceId payload0))
      (projectTable (orphan_world rows60)) = None
  ∧ ∃ w', POST payload0 (orphan_world rows60) = (ResponseError "No Project found", w')
          ∧ storedCursor payload0 w' = 25
          ∧ linkTable w' = []
          ∧ failedRows payload0 w' = [].
Proof.
  assert (H1 : id payload0 ≠ "") by (vm_compute; discriminate).
  assert (H2 : file_url payload0 ≠ "") by (vm_compute; discriminate).
  assert (H3 : files (orphan_world rows60) !! file_url payload0 = Some rows60)
    by (vm_compute; reflexivity).
  assert (H4 : storedCursor payload0 (orphan_world rows60) < length rows60)
    by (vm_compute; lia).
  assert (H5 : List.find (fun x => String.eqb (proj_id x) (workspaceId payload0))
                 (projectTable (orphan_world rows60)) = None) by reflexivity.
  split; [exact H1|]. split; [exact H2|]. split; [exact H3|]. split; [exact H4|].
  split; [exact H5|].
  destruct (X13_unknown_workspace_skips_the_batch payload0 (orphan_world rows60) rows60
              H1 H2 H3 H4 H5) as (w' & Hrun & Hc & _ & _ & _ & Hl & Hf & _).
  exists w'. split; [exact Hrun|]. split; [rewrite Hc; vm_compute; reflexivity|].
  split; [rewrite Hl; reflexivity|]. rewrite Hf. vm_compute. reflexivity.
Defined.

Lemma X14_witness :
  id payload0 ≠ "" ∧ file_url payload0 ≠ ""
  ∧ files (world0 []) !! file_url payload0 = Some []
  ∧ length ([] : list Row) ≤ storedCursor payload0 (world0 [])
  ∧ ∃ w', POST payload0 (world0 []) = (ResponseOK, w')
          ∧ files w' = delete (file_url payload0) (files (world0 []))
          ∧ queue w' = [].
Proof.
  assert (H1 : id payload0 ≠ "") by (vm_compute; discriminate).
  assert (H2 : file_url payload0 ≠ "") by (vm_compute; discriminate).
  assert (H3 : files (world0 []) !! file_url payload0 = Some [])
    by (vm_compute; reflexivity).
  assert (H4 : length ([] : list Row) ≤ storedCursor payload0 (world0 []))
    by (vm_compute; lia).
  split; [exact H1|]. split; [exact H2|]. split; [exact H3|]. split; [exact H4|].
  destruct (X14_exhausted_file_finalizes_at_once payload0 (world0 []) [] H1 H2 H3 H4)
    as (w' & Hrun & _ & Hf & Hq & _).
  exists w'. split; [exact Hrun|]. split; [exact Hf|]. exact Hq.
Defined.

Lemma X16_witness :
  (snd (scheduleTestCompletion link0 (env_ok 400) busy_world)
   = snd (cancel_scheduled (cancel_response (env_ok 400)) (completionUrl link0) busy_world)
   ∨ snd (scheduleTestCompletion link0 (env_ok 400) busy_world)
     = snd (scheduleTestCompletion link0 (env_ok 400) busy_world))
  ∧ List.filter (fun m => negb (String.eqb (q_url m) (completionUrl link0)))
      (queue (snd (scheduleTestCompletion link0 (env_ok 400) busy_world)))
    = [completion_other].
Proof.
  assert (H1 : snd (scheduleTestCompletion link0 (env_ok 400) busy_world)
               = snd (cancel_scheduled (cancel_response (env_ok 400)) (completionUrl link0)
                        busy_world)
               ∨ snd (scheduleTestCompletion link0 (env_ok 400) busy_world)
                 = snd (scheduleTestCompletion link0 (env_ok 400) busy_world))
    by (right; reflexivity).
  split; [exact H1|].
  destruct (X16_scheduler_touches_only_its_own_messages link0 (env_ok 400) busy_world _ H1)
    as (Hmine & _).
  rewrite Hmine. reflexivity.
Defined.

Lemma X17_witness :
  testVariants link0 = Some [{| tv_url := "https://a.example"; tv_percentage := 50 |};
                             {| tv_url := "https://b.example"; tv_percentage := 50 |}]
  ∧ testCompletedAt link0 = Some 1000%Z
  ∧ (now_compared (env_ok 400) < 1000)%Z
  ∧ ∃ w', scheduleTestCompletion link0 (env_ok 400) (world0 []) = (Ok tt, w')
          ∧ outstanding link0 w' = [completion0 400].
Proof.
  assert (H1 : testVariants link0
               = Some [{| tv_url := "https://a.example"; tv_percentage := 50 |};
                       {| tv_url := "https://b.example"; tv_percentage := 50 |}])
    by reflexivity.
  assert (H2 : testCompletedAt link0 = Some 1000%Z) by reflexivity.
  assert (H3 : (now_compared (env_ok 400) < 1000)%Z) by (simpl; lia).
  split; [exact H1|]. split; [exact H2|]. split; [exact H3|].
  destruct (X17_future_completion_is_scheduled_once link0 (env_ok 400) (world0 []) _ 1000
              H1 H2 H3) as (w' & Hrun & Hout & _).
  exists w'. split; [exact Hrun|]. rewrite Hout. reflexivity.
Defined.

End MoreInstances.

(** ** Whole jobs under a schema that can refuse *)

Section StrictInstances.
Import Sample MoreSamples.
#[local] Existing Instance strict_externals.

Lemma strict_accepts (rows : list Row) :
  forallb (fun d => negb (String.eqb (key d) "bad"))
    (candidates (map (fun r => mapCsvRowToLink r (mapping payload0)) rows)) = true →
  ∀ d, d ∈ candidates (map (fun r => mapCsvRowToLink r (mapping payload0)) rows) →
       is_Some (createLinkBodySchema_parse (body_of (folderId payload0) d)).
Proof.
  intros Hall d Hd. apply list_elem_of_In in Hd.
  rewrite forallb_forall in Hall. specialize (Hall d Hd).
  unfold createLinkBodySchema_parse. simpl.
  destruct (String.eqb (key d) "bad"); [discriminate|by eexists].
Qed.

Lemma strict_accepts_rows60 :
  ∀ d, d ∈ candidates (map (fun r => mapCsvRowToLink r (mapping payload0)) rows60) →
       is_Some (createLinkBodySchema_parse (body_of (folderId payload0) d)).
Proof. apply strict_accepts. vm_compute. reflexivity. Qed.

Lemma strict_accepts_rows60_length :
  ∀ d, d ∈ candidates (map (fun r => mapCsvRowToLink r (mapping payload0)) rows60_length) →
       is_Some (createLinkBodySchema_parse (body_of (folderId payload0) d)).
Proof. apply strict_accepts. vm_compute. reflexivity. Qed.

Lemma C2_witness :
  id payload0 ≠ "" ∧ file_url payload0 ≠ ""
  ∧ files (world0 rows60_length) !! file_url payload0
    = Some rows60_length
  ∧ length rows60_length = 60
  ∧ redis (world0 rows60_length) !! cursorKey payload0 = None
  ∧ List.find (fun x => String.eqb (proj_id x) (workspaceId payload0))
      (projectTable (world0 rows60_length)) = Some project0
  ∧ (∀ d, d ∈ candidates (map (fun r => mapCsvRowToLink r (mapping payload0))
                            rows60_length) →
          is_Some (createLinkBodySchema_parse (body_of (folderId payload0) d)))
  ∧ (∃ row, rows60_length !! 25 = Some row
            ∧ complete 25 (DataRow row) = true)
  ∧ (∃ w1, POST payload0 (world0 rows60_length) = (ResponseOK, w1)
           ∧ queue w1 = []
           ∧ files w1 !! file_url payload0 = None
           ∧ cursor_history payload0 (world0 rows60_length)
               (invocations 3 payload0 (world0 rows60_length))
             = seq 1 25)
  ∧ (∀ row, rows60 !! 25 = Some row → complete 25 (DataRow row) = false)
  ∧ (∀ row, rows60 !! 50 = Some row → complete 50 (DataRow row) = false)
  ∧ ∃ w1 w2 w3,
      POST payload0 (world0 rows60) = (ResponseOK, w1)
      ∧ POST payload0 w1 = (ResponseOK, w2)
      ∧ POST payload0 w2 = (ResponseOK, w3)
      ∧ queue w3 = [continuation payload0; continuation payload0]
      ∧ files w3 !! file_url payload0 = None.
Proof.
  assert (H1 : id payload0 ≠ "") by (vm_compute; discriminate).
  assert (H2 : file_url payload0 ≠ "") by (vm_compute; discriminate).
  assert (H3 : files (world0 rows60_length) !! file_url payload0
               = Some rows60_length) by (vm_compute; reflexivity).
  assert (H4 : length rows60_length = 60) by reflexivity.
  assert (H5 : redis (world0 rows60_length) !! cursorKey payload0 = None)
    by (vm_compute; reflexivity).
  assert (H6 : List.find (fun x => String.eqb (proj_id x) (workspaceId payload0))
                 (projectTable (world0 rows60_length))
               = Some project0) by reflexivity.
  assert (H7 : ∀ d, d ∈ candidates (map (fun r => mapCsvRowToLink r (mapping payload0))
                                      rows60_length) →
                    is_Some (createLinkBodySchema_parse (body_of (folderId payload0) d)))
    by exact strict_accepts_rows60_length.
  assert (Hreached : ∃ row, rows60_length !! 25 = Some row
                            ∧ complete 25 (DataRow row) = true)
    by (eexists; split; vm_compute; reflexivity).
  assert (H3' : files (world0 rows60) !! file_url payload0 = Some rows60)
    by (vm_compute; reflexivity).
  assert (H4' : length rows60 = 60) by reflexivity.
  assert (H5' : redis (world0 rows60) !! cursorKey payload0 = None)
    by (vm_compute; reflexivity).
  assert (H7' : ∀ d, d ∈ candidates (map (fun r => mapCsvRowToLink r (mapping payload0))
                                       rows60) →
                     is_Some (createLinkBodySchema_parse (body_of (folderId payload0) d)))
    by exact strict_accepts_rows60_length.
  assert (Hno25 : ∀ row, rows60 !! 25 = Some row → complete 25 (DataRow row) = false).
  { intros row Hrow. apply complete_no_length_cell.
    vm_compute in Hrow. injection Hrow as <-. reflexivity. }
  assert (Hno50 : ∀ row, rows60 !! 50 = Some row → complete 50 (DataRow row) = false).
  { intros row Hrow. apply complete_no_length_cell.
    vm_compute in Hrow. injection Hrow as <-. reflexivity. }
  split; [exact H1|]. split; [exact H2|]. split; [exact H3|].
  split; [exact H4|]. split; [exact H5|]. split; [exact H6|]. split; [exact H7|].
  split; [exact Hreached|].
  split.
  { destruct (proj2 (C2_three_deliveries_unless_length_cell payload0
                       rows60_length (world0 rows60_length)
                       project0 H1 H2 H3 H4 H5 H6 H7) Hreached)
      as (w1 & evs1 & done1 & Hrun & _ & _ & _ & _ & Hq & _ & Hf & _ & Hlater).
    exists w1. split; [exact Hrun|]. split; [exact Hq|]. split; [exact Hf|].
    apply (Hlater 2). }
  split; [exact Hno25|]. split; [exact Hno50|].
  destruct (proj1 (C2_three_deliveries_unless_length_cell payload0 rows60 (world0 rows60)
                     project0 H1 H2 H3' H4' H5' H6 H7') Hno25 Hno50)
    as (w1 & w2 & w3 & evs1 & evs2 & evs3 & done1 & done2 & done3
        & Hr1 & _ & _ & _ & _ & _ & _ & _ & Hq1
        & Hr2 & _ & _ & _ & _ & _ & _ & _ & Hq2
        & Hr3 & _ & _ & _ & _ & Hq3 & Hrest).
  exists w1, w2, w3.
  split; [exact Hr1|]. split; [exact Hr2|]. split; [exact Hr3|]. split.
  - rewrite Hq3, Hq2, Hq1. reflexivity.
  - apply Hrest.
Defined.

Lemma X15_witness :
  id payload0 ≠ "" ∧ file_url payload0 ≠ ""
  ∧ files (world0 rows60) !! file_url payload0 = Some rows60
  ∧ List.find (fun x => String.eqb (proj_id x) (workspaceId payload0))
      (projectTable (world0 rows60)) = Some project0
  ∧ (∀ d, d ∈ candidates (map (fun r => mapCsvRowToLink r (mapping payload0)) rows60) →
          is_Some (createLinkBodySchema_parse (body_of (folderId payload0) d)))
  ∧ (∀ k row,
       rows60 !! (storedCursor payload0 (world0 rows60) + MAX_ROWS_PER_EXECUTION * S k)
       = Some row →
       complete (storedCursor payload0 (world0 rows60) + MAX_ROWS_PER_EXECUTION * S k)
         (DataRow row) = false)
  ∧ files (invocations 2 payload0 (world0 rows60)) !! file_url payload0 = Some rows60
  ∧ files (invocations 3 payload0 (world0 rows60)) !! file_url payload0 = None
  ∧ queue (invocations 3 payload0 (world0 rows60))
    = [continuation payload0; continuation payload0]
  ∧ cursor_history payload0 (world0 rows60) (invocations 3 payload0 (world0 rows60))
    = seq 1 60.
Proof.
  assert (H1 : id payload0 ≠ "") by (vm_compute; discriminate).
  assert (H2 : file_url payload0 ≠ "") by (vm_compute; discriminate).
  assert (H3 : files (world0 rows60) !! file_url payload0 = Some rows60)
    by (vm_compute; reflexivity).
  assert (H4 : List.find (fun x => String.eqb (proj_id x) (workspaceId payload0))
                 (projectTable (world0 rows60)) = Some project0) by reflexivity.
  assert (H5 : ∀ d, d ∈ candidates (map (fun r => mapCsvRowToLink r (mapping payload0))
                                      rows60) →
                    is_Some (createLinkBodySchema_parse (body_of (folderId payload0) d)))
    by exact strict_accepts_rows60.
  assert (H6 : ∀ k row,
            rows60 !! (storedCursor payload0 (world0 rows60) + MAX_ROWS_PER_EXECUTION * S k)
            = Some row →
            complete (storedCursor payload0 (world0 rows60) + MAX_ROWS_PER_EXECUTION * S k)
              (DataRow row) = false).
  { intros k row Hrow. apply complete_no_length_cell.
    unfold rows60 in Hrow. rewrite list_lookup_fmap in Hrow.
    destruct (seq 0 60 !! _) as [i|]; [|discriminate].
    injection Hrow as <-. reflexivity. }
  split; [exact H1|]. split; [exact H2|]. split; [exact H3|]. split; [exact H4|].
  split; [exact H5|]. split; [exact H6|].
  destruct (X15_job_completes_after_ceil_deliveries payload0 rows60 (world0 rows60)
              project0 H1 H2 H3 H4 H5 H6) as (Hkept & Hgone & _ & _ & _ & _ & Hq & Hhist).
  split; [apply (Hkept 2); vm_compute; lia|].
  split; [exact Hgone|]. split; [exact Hq|]. exact Hhist.
Defined.

End StrictInstances.
